(** * Stock analysis scoring and valuation engine (app.py)

    A shallow embedding of the indicator library, the valuation library,
    the sentiment and macro classifiers and the composite scorer of
    [src/app.py], with the properties of its specification.

    Numbers.  Python floats are idealised as exact rationals ([Q]): rounding
    error and overflow are not modelled.  What IEEE arithmetic adds on top, and
    the code relies on, is kept: pandas/numpy division never raises and yields
    an infinity or NaN on a zero denominator ([xfloat]), whereas division of
    Python scalars raises ZeroDivisionError ([py_div]).  Point totals are
    Python ints ([Z]).  A statement that would fail on doubles outside a
    range of magnitudes, or within rounding distance of a threshold, carries
    that range or margin as a hypothesis.

    Scope.  Of [generate_ai_analysis] the model keeps what decides a number,
    a label or an exception: the five checklists, the adjustments, the score
    set, the overall score, the rating, the price target and the exception
    handler.  The signal, risk and opportunity sentences and the narrative
    sections are text assembled under the same tests and are left out. *)

From Stdlib Require Import ZArith QArith Qround Qabs Qpower Lqa Lia List Bool String Ascii.
From stdpp Require Import gmap strings.
Import ListNotations.

Local Open Scope string_scope.
Local Open Scope Q_scope.

(** ** Python values and exceptions *)

(** The values the provider's dictionaries hold: a number, a string (among
    them the placeholder ['N/A']) or Python's [None]. *)
Inductive pyval : Type :=
| VNum (q : Q)
| VStr (s : string)
| VNone.

(** An argument or local that should hold a number: [Some q] when
    [isinstance(v, (int, float))] holds, [None] otherwise. *)
Definition pynum := option Q.

Definition as_num (v : pyval) : pynum :=
  match v with VNum q => Some q | _ => None end.

(** [d.get(k, default)] followed by the [isinstance] test, for a default that
    is not a number ([None] or ['N/A']). *)
Definition get_num (d : gmap string pyval) (k : string) : pynum :=
  match d !! k with Some v => as_num v | None => None end.

(** The same for a numeric default, which passes the [isinstance] test when
    the key is absent. *)
Definition get_num_or (d : gmap string pyval) (k : string) (default : Q) : pynum :=
  match d !! k with Some v => as_num v | None => Some default end.

(** [d.get(k, '')] read as text, for the keys that hold text or nothing
    ([sector], [industry], [symbol], [recommendationKey]); empty for a
    missing key, [None] or a number. *)
Definition get_str (d : gmap string pyval) (k : string) : string :=
  match d !! k with Some (VStr s) => s | _ => "" end.

Inductive exn : Type :=
| ZeroDivisionError
| TypeError
| IndexError.

(** Outcome of a piece of Python code that may raise. *)
Inductive result (A : Type) : Type :=
| Returned (a : A)
| Raised (e : exn).

Arguments Returned {A} a.
Arguments Raised {A} e.

Definition bind {A B : Type} (r : result A) (k : A -> result B) : result B :=
  match r with
  | Returned a => k a
  | Raised e => Raised e
  end.

Notation "'try!' x ':=' r 'in' k" := (bind r (fun x => k))
  (at level 10, x name, r at level 100, k at level 200).

(** Boolean comparisons on [Q], as the code's [<], [<=], [>], [==]. *)
Definition Qltb (a b : Q) : bool := negb (Qle_bool b a).
Definition Qgtb (a b : Q) : bool := Qltb b a.
Definition Qleb (a b : Q) : bool := Qle_bool a b.
Definition Qgeb (a b : Q) : bool := Qle_bool b a.

Infix "<?" := Qltb (at level 70, no associativity) : Q_scope.
Infix "<=?" := Qleb (at level 70, no associativity) : Q_scope.
Infix ">?" := Qgtb (at level 70, no associativity) : Q_scope.
Infix ">=?" := Qgeb (at level 70, no associativity) : Q_scope.
Infix "=?" := Qeq_bool (at level 70, no associativity) : Q_scope.

(** [a / b] on Python scalars. *)
Definition py_div (a b : Q) : result Q :=
  if b =? 0 then Raised ZeroDivisionError else Returned (a / b).

(** [max(a, b)] and [min(a, b)] of Python: the first argument wins a tie. *)
Definition py_max (a b : Q) : Q := if b >? a then b else a.
Definition py_min (a b : Q) : Q := if b <? a then b else a.

(** ** numpy scalars

    Values read out of a pandas column are numpy floats: arithmetic on them
    never raises.  A finite value is an exact rational; the sign of a zero
    is not tracked, a zero denominator counts as [+0]. *)
Inductive xfloat : Type :=
| Fin (q : Q)
| PInf
| NInf
| NaN.

Definition sign_inf (q : Q) : xfloat :=
  if q =? 0 then NaN else if q >? 0 then PInf else NInf.

Definition xopp (a : xfloat) : xfloat :=
  match a with
  | Fin q => Fin (- q)
  | PInf => NInf
  | NInf => PInf
  | NaN => NaN
  end.

Definition xadd (a b : xfloat) : xfloat :=
  match a, b with
  | NaN, _ | _, NaN => NaN
  | Fin x, Fin y => Fin (x + y)
  | PInf, NInf | NInf, PInf => NaN
  | PInf, _ | _, PInf => PInf
  | NInf, _ | _, NInf => NInf
  end.

Definition xsub (a b : xfloat) : xfloat := xadd a (xopp b).

Definition xmul (a b : xfloat) : xfloat :=
  match a, b with
  | NaN, _ | _, NaN => NaN
  | Fin x, Fin y => Fin (x * y)
  | Fin x, PInf | PInf, Fin x => sign_inf x
  | Fin x, NInf | NInf, Fin x => sign_inf (- x)
  | PInf, PInf | NInf, NInf => PInf
  | PInf, NInf | NInf, PInf => NInf
  end.

Definition xdiv (a b : xfloat) : xfloat :=
  match a, b with
  | NaN, _ | _, NaN => NaN
  | Fin x, Fin y => if y =? 0 then sign_inf x else Fin (x / y)
  | Fin _, (PInf | NInf) => Fin 0
  | PInf, Fin y => if y >=? 0 then PInf else NInf
  | NInf, Fin y => if y >=? 0 then NInf else PInf
  | (PInf | NInf), (PInf | NInf) => NaN
  end.

(** Ordering; every comparison with NaN is false. *)
Definition xltb (a b : xfloat) : bool :=
  match a, b with
  | NaN, _ | _, NaN => false
  | Fin x, Fin y => x <? y
  | NInf, (Fin _ | PInf) => true
  | Fin _, PInf => true
  | _, _ => false
  end.

Definition xgtb (a b : xfloat) : bool := xltb b a.

Definition xleb (a b : xfloat) : bool :=
  match a, b with
  | NaN, _ | _, NaN => false
  | _, _ => negb (xltb b a)
  end.

(** [a != b]: true as soon as one side is NaN. *)
Definition xneqb (a b : xfloat) : bool :=
  match a, b with
  | Fin x, Fin y => negb (x =? y)
  | PInf, PInf | NInf, NInf => false
  | _, _ => true
  end.

Definition xabs (a : xfloat) : xfloat :=
  match a with
  | Fin q => Fin (Qabs q)
  | PInf | NInf => PInf
  | NaN => NaN
  end.

(** [np.sign]. *)
Definition xsign (a : xfloat) : xfloat :=
  match a with
  | Fin q => Fin (if q >? 0 then 1 else if q <? 0 then -(1) else 0)
  | PInf => Fin 1
  | NInf => Fin (-(1))
  | NaN => NaN
  end.

Definition xmin (a b : xfloat) : xfloat := if xltb b a then b else a.
Definition xmax (a b : xfloat) : xfloat := if xgtb b a then b else a.

(** [pd.isna]. *)
Definition isna (a : xfloat) : bool :=
  match a with NaN => true | _ => false end.

(** [float(x) if not pd.isna(x) else None]. *)
Definition float_or_none (a : xfloat) : option xfloat :=
  if isna a then None else Some a.

(** ** pandas series

    A series is the list of its values, oldest first.  The operations are the
    ones the indicator library calls, with pandas' defaults. *)
Module Series.

Definition of_values (l : list Q) : list xfloat := map Fin l.

(** [s.iloc[-1]]. *)
Definition iloc_last (s : list xfloat) : result xfloat :=
  match last s with
  | Some x => Returned x
  | None => Raised IndexError
  end.

(** [s.shift()]. *)
Definition shift (s : list xfloat) : list xfloat :=
  match s with
  | [] => []
  | _ :: _ => NaN :: removelast s
  end.

(** [s.diff(n)]: the first [n] entries have no predecessor. *)
Definition diff_n (n : nat) (s : list xfloat) : list xfloat :=
  (repeat NaN (Nat.min n (length s)) ++ zip_with xsub (skipn n s) s)%list.

(** [s.diff()]. *)
Definition diff (s : list xfloat) : list xfloat := diff_n 1 s.

(** [s.where(cond, 0)]. *)
Definition where_or_zero (cond : xfloat -> bool) (s : list xfloat) : list xfloat :=
  map (fun x => if cond x then x else Fin 0) s.

(** [s.fillna(0)]. *)
Definition fillna_zero (s : list xfloat) : list xfloat :=
  map (fun x => if isna x then Fin 0 else x) s.

(** [s.cumsum()] on a series without NaN. *)
Fixpoint cumsum_from (acc : xfloat) (s : list xfloat) : list xfloat :=
  match s with
  | [] => []
  | x :: s' => let acc := xadd acc x in acc :: cumsum_from acc s'
  end.

Definition cumsum (s : list xfloat) : list xfloat := cumsum_from (Fin 0) s.

Definition sum (l : list xfloat) : xfloat := fold_right xadd (Fin 0) l.

Definition mean (l : list xfloat) : xfloat :=
  xdiv (sum l) (Fin (inject_Z (Z.of_nat (length l)))).

Definition minimum (l : list xfloat) : xfloat :=
  match l with
  | [] => NaN
  | x :: l' => fold_left xmin l' x
  end.

Definition maximum (l : list xfloat) : xfloat :=
  match l with
  | [] => NaN
  | x :: l' => fold_left xmax l' x
  end.

(** The [w] values ending at position [i]. *)
Definition window_at (w i : nat) (s : list xfloat) : list xfloat :=
  firstn w (skipn (i + 1 - w) s).

(** [s.rolling(window=w).agg()]: NaN until [w] values are there, and
    wherever the window holds a NaN ([min_periods] defaults to the window). *)
Definition rolling (w : nat) (agg : list xfloat -> xfloat) (s : list xfloat)
    : list xfloat :=
  map (fun i =>
         if (w <=? i + 1)%nat then
           let win := window_at w i s in
           if existsb isna win then NaN else agg win
         else NaN)
      (seq 0 (length s)).

(** [s.ewm(span=span, adjust=False).mean()]: seeded by the first value, then
    [y = (1 - alpha) * y_prev + alpha * x] with [alpha = 2 / (span + 1)], for
    a span of 1 or more; pandas rejects a smaller span with a ValueError. *)
Fixpoint ewm_from (alpha : Q) (prev : xfloat) (s : list xfloat) : list xfloat :=
  match s with
  | [] => []
  | x :: s' =>
      let y := xadd (xmul (Fin (1 - alpha)) prev) (xmul (Fin alpha) x) in
      y :: ewm_from alpha y s'
  end.

Definition ewm_mean (span : nat) (s : list xfloat) : list xfloat :=
  match s with
  | [] => []
  | x :: s' => x :: ewm_from (2 / (inject_Z (Z.of_nat span) + 1)) x s'
  end.

(** Row-wise maximum of three aligned columns, NaN skipped. *)
Definition max_skipna (a b : xfloat) : xfloat :=
  match a, b with
  | NaN, x | x, NaN => x
  | _, _ => xmax a b
  end.

Definition row_max3 (a b c : list xfloat) : list xfloat :=
  zip_with max_skipna (zip_with max_skipna a b) c.

End Series.

(** ** Indicator library *)

Module TechnicalAnalysis.

Import Series.

Definition calculate_rsi (prices : list Q) (period : nat)
    : result (option xfloat) :=
  let prices := of_values prices in
  if (length prices <? period + 1)%nat then Returned None else
  let delta := diff prices in
  let gain := rolling period mean (where_or_zero (fun d => xgtb d (Fin 0)) delta) in
  let loss :=
    rolling period mean (map xopp (where_or_zero (fun d => xltb d (Fin 0)) delta)) in
  let rs := zip_with xdiv gain loss in
  let rsi := map (fun r => xsub (Fin 100) (xdiv (Fin 100) (xadd (Fin 1) r))) rs in
  try! x := iloc_last rsi in
  Returned (float_or_none x).

Record MACD : Type := {
  macd : option xfloat;
  signal : option xfloat;
  histogram : option xfloat
}.

Definition calculate_macd (prices : list Q) (fast slow signal_span : nat)
    : result (option MACD) :=
  let prices := of_values prices in
  if (length prices <? slow)%nat then Returned None else
  let ema_fast := ewm_mean fast prices in
  let ema_slow := ewm_mean slow prices in
  let macd_line := zip_with xsub ema_fast ema_slow in
  let signal_line := ewm_mean signal_span macd_line in
  let histogram := zip_with xsub macd_line signal_line in
  try! m := iloc_last macd_line in
  try! sg := iloc_last signal_line in
  try! h := iloc_last histogram in
  Returned (Some {| macd := float_or_none m;
                    signal := float_or_none sg;
                    histogram := float_or_none h |}).

(** The dictionary of moving averages; a value is [None] or a float. *)
Definition calculate_moving_averages (prices : list Q)
    : result (gmap string (option xfloat)) :=
  let prices := of_values prices in
  if (length prices <? 200)%nat then Returned ∅ else
  let sma (w : nat) : result (option xfloat) :=
    if (w <=? length prices)%nat then
      try! x := iloc_last (rolling w mean prices) in Returned (Some x)
    else Returned None in
  let ema (span : nat) : result (option xfloat) :=
    if (span <=? length prices)%nat then
      try! x := iloc_last (ewm_mean span prices) in Returned (Some x)
    else Returned None in
  try! sma_20 := sma 20%nat in
  try! sma_50 := sma 50%nat in
  try! sma_200 := sma 200%nat in
  try! ema_12 := ema 12%nat in
  try! ema_26 := ema 26%nat in
  Returned (<["sma_20" := sma_20]>
              (<["sma_50" := sma_50]>
                 (<["sma_200" := sma_200]>
                    (<["ema_12" := ema_12]>
                       (<["ema_26" := ema_26]> ∅))))).

Record Bollinger : Type := {
  upper : xfloat;
  middle : xfloat;
  lower : xfloat;
  percent_b : xfloat;
  bandwidth : option xfloat
}.

Section Bollinger.

(** The square root that the standard deviation takes. *)
Variable sqrt : Q -> Q.

Definition xsqrt (a : xfloat) : xfloat :=
  match a with
  | Fin q => if q <? 0 then NaN else Fin (sqrt q)
  | PInf => PInf
  | NInf | NaN => NaN
  end.

(** Sample standard deviation ([ddof = 1]) of a window. *)
Definition std (l : list xfloat) : xfloat :=
  let m := mean l in
  let sq := map (fun x => xmul (xsub x m) (xsub x m)) l in
  xsqrt (xdiv (sum sq) (Fin (inject_Z (Z.of_nat (length l)) - 1))).

Definition calculate_bollinger_bands (prices : list Q) (period : nat) (std_dev : Q)
    : result (option Bollinger) :=
  let prices := of_values prices in
  if (length prices <? period)%nat then Returned None else
  let sma := rolling period mean prices in
  let sd := rolling period std prices in
  let upper_band := zip_with xadd sma (map (fun x => xmul x (Fin std_dev)) sd) in
  let lower_band := zip_with xsub sma (map (fun x => xmul x (Fin std_dev)) sd) in
  try! current_price := iloc_last prices in
  try! upper := iloc_last upper_band in
  try! lower := iloc_last lower_band in
  try! middle := iloc_last sma in
  let percent_b :=
    if xneqb upper lower then
      xmul (xdiv (xsub current_price lower) (xsub upper lower)) (Fin 100)
    else Fin 50 in
  Returned (Some {| upper := upper;
                    middle := middle;
                    lower := lower;
                    percent_b := percent_b;
                    bandwidth :=
                      if xgtb middle (Fin 0)
                      then Some (xmul (xdiv (xsub upper lower) middle) (Fin 100))
                      else None |}).

End Bollinger.

Record Stochastic : Type := {
  k : option xfloat;
  d : option xfloat
}.

(** The three columns come from one frame, so they have one length. *)
Definition calculate_stochastic (high low close : list Q) (period : nat)
    : result (option Stochastic) :=
  let high := of_values high in
  let low := of_values low in
  let close := of_values close in
  if (length close <? period)%nat then Returned None else
  let lowest_low := rolling period minimum low in
  let highest_high := rolling period maximum high in
  let k_percent :=
    map (xmul (Fin 100))
      (zip_with xdiv (zip_with xsub close lowest_low)
         (zip_with xsub highest_high lowest_low)) in
  let d_percent := rolling 3 mean k_percent in
  try! kv := iloc_last k_percent in
  try! dv := iloc_last d_percent in
  Returned (Some {| k := float_or_none kv; d := float_or_none dv |}).

Definition calculate_atr (high low close : list Q) (period : nat)
    : result (option xfloat) :=
  let high := of_values high in
  let low := of_values low in
  let close := of_values close in
  if (length close <? period + 1)%nat then Returned None else
  let tr1 := zip_with xsub high low in
  let tr2 := map xabs (zip_with xsub high (shift close)) in
  let tr3 := map xabs (zip_with xsub low (shift close)) in
  let tr := row_max3 tr1 tr2 tr3 in
  let atr := rolling period mean tr in
  try! x := iloc_last atr in
  Returned (float_or_none x).

Definition calculate_obv (close volume : list Q) : result (option xfloat) :=
  let close := of_values close in
  let volume := of_values volume in
  if (length close <? 2)%nat then Returned None else
  let obv := cumsum (fillna_zero (zip_with xmul (map xsign (diff close)) volume)) in
  try! x := iloc_last obv in
  Returned (float_or_none x).

Definition calculate_momentum (prices : list Q) (period : nat)
    : result (option xfloat) :=
  let prices := of_values prices in
  if (length prices <? period + 1)%nat then Returned None else
  let momentum := diff_n period prices in
  try! x := iloc_last momentum in
  Returned (float_or_none x).

End TechnicalAnalysis.

(** ** Vocabulary for the statements about the RSI *)

(** Day-over-day changes of a list of closes, and the last [period] of
    them: the window that the RSI averages over. *)
Fixpoint deltas (l : list Q) : list Q :=
  match l with
  | a :: (b :: _) as t => (b - a) :: deltas t
  | _ => []
  end.

Definition trailing_deltas (period : nat) (prices : list Q) : list Q :=
  skipn (length prices - (period + 1)) (deltas prices).

Definition qsum (l : list Q) : Q := fold_right Qplus 0 l.

(** The gain and the loss of a day-over-day change. *)
Definition gain_of (d : Q) : Q := if d >? 0 then d else 0.
Definition loss_of (d : Q) : Q := - (if d <? 0 then d else 0).

(** [100 - 100 / (1 + rs)]. *)
Definition rsi_of_rs (rs : xfloat) : xfloat :=
  xsub (Fin 100) (xdiv (Fin 100) (xadd (Fin 1) rs)).

(** ** Text helpers: [str.lower], [str.upper], [needle in haystack]

    Text is a string of bytes.  [lower] and [upper] change the 26 letters of
    ASCII, which is what Python does on text of 7-bit characters; on other
    text Python follows Unicode and the two differ. *)

Definition lower_ascii (c : ascii) : ascii :=
  let n := nat_of_ascii c in
  if (65 <=? n)%nat && (n <=? 90)%nat then ascii_of_nat (n + 32) else c.

Definition upper_ascii (c : ascii) : ascii :=
  let n := nat_of_ascii c in
  if (97 <=? n)%nat && (n <=? 122)%nat then ascii_of_nat (n - 32) else c.

Fixpoint map_string (f : ascii -> ascii) (s : string) : string :=
  match s with
  | EmptyString => EmptyString
  | String c s' => String (f c) (map_string f s')
  end.

Definition lower (s : string) : string := map_string lower_ascii s.
Definition upper (s : string) : string := map_string upper_ascii s.

Fixpoint contains (needle hay : string) : bool :=
  String.prefix needle hay ||
  match hay with
  | EmptyString => false
  | String _ hay' => contains needle hay'
  end.

(** ** Price history *)

(** One row of the provider's price history. *)
Record Bar : Type := {
  bar_open : Q;
  bar_high : Q;
  bar_low : Q;
  bar_close : Q;
  bar_volume : Q
}.

(** [series.iloc[-k]] for [1 <= k <= len(series)]. *)
Definition iloc_back {A : Type} (l : list A) (k : nat) : option A :=
  nth_error l (length l - k).

(** ** Valuation library *)

Module ValuationModels.

Record Assumptions : Type := {
  a_growth_rate : Q;
  a_terminal_growth : Q;
  a_discount_rate : Q;
  a_years : nat
}.

Record DCFResult : Type := {
  enterprise_value : Q;
  equity_value_per_share : option Q;
  pv_cash_flows : Q;
  pv_terminal : Q;
  assumptions : Assumptions
}.

(** The projection loop [for year in range(1, years + 1)]: [n] iterations are
    left, [year] is the loop variable, the state is [(current_fcf,
    pv_cash_flows)]. *)
Fixpoint project (n : nat) (year : Z) (growth_rate discount_rate : Q)
    (current_fcf pv_cash_flows : Q) : result (Q * Q) :=
  match n with
  | O => Returned (current_fcf, pv_cash_flows)
  | S n' =>
      let current_fcf := current_fcf * (1 + growth_rate) in
      try! pv := py_div current_fcf ((1 + discount_rate) ^ year) in
      project n' (year + 1)%Z growth_rate discount_rate
        current_fcf (pv_cash_flows + pv)
  end.

Definition calculate_dcf (free_cash_flow growth_rate terminal_growth_rate
    discount_rate : pynum) (years : nat) (shares_outstanding : pynum)
    : result (option DCFResult) :=
  match free_cash_flow with
  | None => Returned None
  | Some fcf =>
      if fcf <=? 0 then Returned None else
      let growth_rate := match growth_rate with Some g => g | None => 5 # 100 end in
      let terminal_growth_rate :=
        match terminal_growth_rate with Some g => g | None => 25 # 1000 end in
      let discount_rate := match discount_rate with Some d => d | None => 10 # 100 end in
      try! st := project years 1%Z growth_rate discount_rate fcf 0 in
      let '(current_fcf, pv_flows) := st in
      let terminal_fcf := current_fcf * (1 + terminal_growth_rate) in
      try! terminal_value := py_div terminal_fcf (discount_rate - terminal_growth_rate) in
      try! pv_term := py_div terminal_value ((1 + discount_rate) ^ Z.of_nat years) in
      let ev := pv_flows + pv_term in
      let asm := {| a_growth_rate := growth_rate;
                    a_terminal_growth := terminal_growth_rate;
                    a_discount_rate := discount_rate;
                    a_years := years |} in
      let per_share :=
        match shares_outstanding with
        | Some sh => if negb (sh =? 0) && (sh >? 0) then Some (ev / sh) else None
        | None => None
        end in
      Returned (Some {| enterprise_value := ev;
                        equity_value_per_share := per_share;
                        pv_cash_flows := pv_flows;
                        pv_terminal := pv_term;
                        assumptions := asm |})
  end.

Record RelativeAssessment : Type := {
  pe_vs_market : option Q;
  pb_vs_market : option Q;
  ps_vs_market : option Q;
  overall_valuation : string;
  premium_discount : Q
}.

Definition market_pe : Q := 225 # 10.
Definition market_pb : Q := 35 # 10.
Definition market_ps : Q := 25 # 10.

(** One of the three ratio blocks: the percentage of the market average, and
    what it adds to [premium_discount]; nothing for a ratio that is absent,
    not a number or not positive. *)
Definition ratio_vs_market (ratio : pynum) (market : Q) : option Q :=
  match ratio with
  | Some r => if r >? 0 then Some (r / market * 100) else None
  | None => None
  end.

Definition premium_of (vs_market : option Q) : Q :=
  match vs_market with
  | Some pct => (pct - 100) / 3
  | None => 0
  end.

Definition classify_premium (avg_premium : Q) : string :=
  if avg_premium >? 20 then "EXPENSIVE"
  else if avg_premium >? 10 then "SLIGHTLY EXPENSIVE"
  else if avg_premium >? -(10) then "FAIR"
  else if avg_premium >? -(20) then "SLIGHTLY CHEAP"
  else "CHEAP".

Definition calculate_relative_valuation (info : gmap string pyval)
    : RelativeAssessment :=
  let pe_ratio := get_num info "trailingPE" in
  let pb_ratio := get_num info "priceToBook" in
  let ps_ratio := get_num info "priceToSalesTrailing12Months" in
  let pe := ratio_vs_market pe_ratio market_pe in
  let pb := ratio_vs_market pb_ratio market_pb in
  let ps := ratio_vs_market ps_ratio market_ps in
  let premium := 0 + premium_of pe + premium_of pb + premium_of ps in
  {| pe_vs_market := pe;
     pb_vs_market := pb;
     ps_vs_market := ps;
     overall_valuation := classify_premium premium;
     premium_discount := premium |}.

End ValuationModels.

(** ** Macro classifier *)

Module MacroEconomicAnalysis.

Record MacroAnalysis : Type := {
  sector_outlook : string;
  economic_pressures : list string;
  market_conditions : string;
  interest_rate_sensitivity : string;
  inflation_impact : string;
  recession_resilience : string
}.

(** The first matching branch of the sector chain rewrites the defaults
    ([NEUTRAL], no pressure, [MEDIUM], [MEDIUM], [MEDIUM]). *)
Definition sector_rules (sector_lower industry_lower : string)
    : string * list string * string * string * string :=
  if contains "technology" sector_lower || contains "software" industry_lower
     || contains "semiconductor" industry_lower then
    ("POSITIVE", ["Technology sector benefits from digital transformation trends"],
     "HIGH", "MEDIUM", "LOW-MEDIUM")
  else if contains "financial" sector_lower || contains "bank" industry_lower then
    ("NEUTRAL", ["Financial sector highly sensitive to interest rate changes"],
     "VERY HIGH", "MEDIUM", "LOW")
  else if contains "consumer" sector_lower && contains "discretionary" sector_lower then
    ("CAUTIOUS", ["Consumer discretionary sensitive to economic cycles"],
     "MEDIUM", "HIGH", "LOW")
  else if contains "consumer" sector_lower && contains "staples" sector_lower then
    ("STABLE", ["Consumer staples provide defensive characteristics"],
     "MEDIUM", "MEDIUM", "HIGH")
  else if contains "healthcare" sector_lower || contains "health" sector_lower then
    ("POSITIVE", ["Healthcare sector shows defensive characteristics"],
     "MEDIUM", "LOW-MEDIUM", "HIGH")
  else if contains "energy" sector_lower || contains "oil" industry_lower then
    ("VOLATILE", ["Energy sector subject to commodity price volatility"],
     "MEDIUM", "HIGH", "MEDIUM")
  else if contains "utilities" sector_lower then
    ("STABLE", ["Utilities provide stable dividends but sensitive to rates"],
     "HIGH", "MEDIUM", "HIGH")
  else if contains "real estate" sector_lower || contains "reit" industry_lower then
    ("CAUTIOUS", ["Real estate highly sensitive to interest rates and economic cycles"],
     "VERY HIGH", "MEDIUM", "LOW-MEDIUM")
  else
    ("NEUTRAL", [], "MEDIUM", "MEDIUM", "MEDIUM").

(** [ticker_info] is the [info] dictionary of the ticker object. *)
Definition analyze_macro_environment (ticker_info : gmap string pyval)
    (sector industry : string) : MacroAnalysis :=
  let sector_lower := lower sector in
  let industry_lower := lower industry in
  let '(outlook, pressures, rate, inflation, resilience) :=
    sector_rules sector_lower industry_lower in
  let '(conditions, pressures) :=
    match get_num_or ticker_info "beta" 1 with
    | Some beta =>
        if beta >? 13 # 10 then
          ("HIGH VOLATILITY",
           (pressures ++ ["High beta indicates high market sensitivity"])%list)
        else if beta <? 7 # 10 then
          ("LOW VOLATILITY",
           (pressures ++ ["Low beta indicates defensive characteristics"])%list)
        else ("NEUTRAL", pressures)
    | None => ("NEUTRAL", pressures)
    end in
  {| sector_outlook := outlook;
     economic_pressures := pressures;
     market_conditions := conditions;
     interest_rate_sensitivity := rate;
     inflation_impact := inflation;
     recession_resilience := resilience |}.

End MacroEconomicAnalysis.

(** ** Sentiment classifier *)

Module SocialSentimentAnalysis.

Record Sentiment : Type := {
  overall_sentiment : string;
  retail_interest : string;
  institutional_interest : string;
  analyst_sentiment : string;
  momentum_sentiment : string;
  indicators : list string
}.

(** Each block yields its label and the indicator lines it appends. *)
Definition volume_block (info : gmap string pyval) : string * list string :=
  match get_num_or info "averageVolume" 0, get_num_or info "volume" 0 with
  | Some avg_volume, Some current_volume =>
      if avg_volume >? 0 then
        let volume_ratio := current_volume / avg_volume in
        if volume_ratio >? 15 # 10 then
          ("HIGH", ["High trading volume suggests strong market interest"])
        else if volume_ratio <? 7 # 10 then
          ("LOW", ["Low trading volume suggests weak interest"])
        else ("MEDIUM", [])
      else ("MEDIUM", [])
  | _, _ => ("MEDIUM", [])
  end.

Definition analyst_block (info : gmap string pyval) : string * list string :=
  let recommendation := upper (get_str info "recommendationKey") in
  if String.eqb recommendation "STRONG_BUY" || String.eqb recommendation "BUY" then
    ("BULLISH", ["Analyst recommendations are bullish"])
  else if String.eqb recommendation "STRONG_SELL" || String.eqb recommendation "SELL" then
    ("BEARISH", ["Analyst recommendations are bearish"])
  else ("NEUTRAL", []).

(** [(Close[-1] - Close[-20]) / Close[-20] * 100] on numpy scalars. *)
Definition recent_return (closes : list Q) : option xfloat :=
  match iloc_back closes 1, iloc_back closes 20 with
  | Some last, Some ref =>
      Some (xmul (xdiv (xsub (Fin last) (Fin ref)) (Fin ref)) (Fin 100))
  | _, _ => None
  end.

Definition momentum_block (hist_data : option (list Bar)) : string * list string :=
  match hist_data with
  | Some hist =>
      if (20 <=? length hist)%nat then
        match recent_return (map bar_close hist) with
        | Some ret =>
            if xgtb ret (Fin 10) then
              ("VERY BULLISH",
               ["Strong recent price momentum indicates positive sentiment"])
            else if xgtb ret (Fin 5) then ("BULLISH", [])
            else if xltb ret (Fin (-(10))) then
              ("VERY BEARISH",
               ["Weak recent price momentum indicates negative sentiment"])
            else if xltb ret (Fin (-(5))) then ("BEARISH", [])
            else ("NEUTRAL", [])
        | None => ("NEUTRAL", [])
        end
      else ("NEUTRAL", [])
  | None => ("NEUTRAL", [])
  end.

Definition institutional_block (info : gmap string pyval) : string * list string :=
  match get_num info "heldPercentInstitutions" with
  | Some inst_ownership =>
      if inst_ownership >? 70 then
        ("HIGH", ["High institutional ownership indicates professional confidence"])
      else if inst_ownership <? 30 then
        ("LOW",
         ["Low institutional ownership may indicate lack of professional interest"])
      else ("MEDIUM", [])
  | None => ("MEDIUM", [])
  end.

(** The local [sentiment_score], accumulated from the four labels. *)
Definition sentiment_score (analyst momentum retail institutional : string) : Z :=
  let score := 0%Z in
  let score :=
    if String.eqb analyst "BULLISH" then (score + 30)%Z
    else if String.eqb analyst "BEARISH" then (score - 30)%Z
    else score in
  let score :=
    if String.eqb momentum "VERY BULLISH" || String.eqb momentum "BULLISH"
    then (score + 25)%Z
    else if String.eqb momentum "VERY BEARISH" || String.eqb momentum "BEARISH"
    then (score - 25)%Z
    else score in
  let score :=
    if String.eqb retail "HIGH" then (score + 20)%Z
    else if String.eqb retail "LOW" then (score - 20)%Z
    else score in
  let score :=
    if String.eqb institutional "HIGH" then (score + 25)%Z
    else if String.eqb institutional "LOW" then (score - 15)%Z
    else score in
  score.

Definition overall_label (score : Z) : string :=
  if (40 <? score)%Z then "BULLISH"
  else if (15 <? score)%Z then "SLIGHTLY BULLISH"
  else if (score <? -40)%Z then "BEARISH"
  else if (score <? -15)%Z then "SLIGHTLY BEARISH"
  else "NEUTRAL".

Definition analyze_sentiment (ticker : string) (info : gmap string pyval)
    (hist_data : option (list Bar)) : Sentiment :=
  let '(retail, ind1) := volume_block info in
  let '(analyst, ind2) := analyst_block info in
  let '(momentum, ind3) := momentum_block hist_data in
  let '(institutional, ind4) := institutional_block info in
  let score := sentiment_score analyst momentum retail institutional in
  {| overall_sentiment := overall_label score;
     retail_interest := retail;
     institutional_interest := institutional;
     analyst_sentiment := analyst;
     momentum_sentiment := momentum;
     indicators := (ind1 ++ ind2 ++ ind3 ++ ind4)%list |}.

End SocialSentimentAnalysis.

(** ** Composite scorer *)

Module StockInfoAPI.

Import ValuationModels MacroEconomicAnalysis SocialSentimentAnalysis.

(** What [generate_ai_analysis] receives: the formatted [stock_data], the
    one-year price history (or [None]), the provider's [info] dictionary and
    the [info] dictionary of the ticker object (or no ticker object). *)
Record Inputs : Type := {
  stock_data : gmap string pyval;
  hist_data : option (list Bar);
  info : gmap string pyval;
  ticker_obj : option (gmap string pyval)
}.

(** [current_price]: a missing key reads as 0 and a string is reset to 0;
    [None] stays Python's [None]. *)
Definition current_price (inp : Inputs) : option Q :=
  match stock_data inp !! "currentPrice" with
  | None => Some 0
  | Some (VNum q) => Some q
  | Some (VStr _) => Some 0
  | Some VNone => None
  end.

(** [current_price > 0], which raises on [None]. *)
Definition price_positive (inp : Inputs) : result bool :=
  match current_price inp with
  | Some q => Returned (q >? 0)
  | None => Raised TypeError
  end.

Definition price_value (inp : Inputs) : Q :=
  match current_price inp with Some q => q | None => 0 end.

(** [x and isinstance(x, (int, float))]: a number other than zero. *)
Definition truthy_num (d : gmap string pyval) (k : string) : pynum :=
  match get_num d k with
  | Some q => if q =? 0 then None else Some q
  | None => None
  end.

(** A number that also passes the [> 0] test of its guard. *)
Definition positive_num (d : gmap string pyval) (k : string) : pynum :=
  match get_num d k with
  | Some q => if q >? 0 then Some q else None
  | None => None
  end.

Definition is_some {A : Type} (o : option A) : bool :=
  match o with Some _ => true | None => false end.

(** *** Formatted percentages

    [oneYearReturn] and [fiveYearReturn] are strings such as ["12.34%"],
    read back with [float(s.replace('%', ''))]; a string [float] rejects
    leaves the block without points.  Signed decimals are read; exponents,
    ["inf"] and ["nan"] are not. *)
Definition digit_of (c : ascii) : option Z :=
  let n := nat_of_ascii c in
  if (48 <=? n)%nat && (n <=? 57)%nat then Some (Z.of_nat (n - 48)) else None.

Fixpoint read_digits (acc : Z) (count : nat) (s : string) : Z * nat * string :=
  match s with
  | EmptyString => (acc, count, s)
  | String c s' =>
      match digit_of c with
      | Some dgt => read_digits (10 * acc + dgt)%Z (S count) s'
      | None => (acc, count, s)
      end
  end.

Definition parse_unsigned (s : string) : option Q :=
  let '(int_part, n1, rest) := read_digits 0%Z 0%nat s in
  match rest with
  | EmptyString => if (n1 =? 0)%nat then None else Some (inject_Z int_part)
  | String "."%char rest' =>
      let '(frac_part, n2, rest'') := read_digits 0%Z 0%nat rest' in
      match rest'' with
      | EmptyString =>
          if (n1 + n2 =? 0)%nat then None
          else Some (inject_Z int_part
                     + inject_Z frac_part / inject_Z (10 ^ Z.of_nat n2))
      | _ => None
      end
  | _ => None
  end.

Definition parse_float (s : string) : option Q :=
  match s with
  | String "-"%char s' => option_map Qopp (parse_unsigned s')
  | String "+"%char s' => parse_unsigned s'
  | _ => parse_unsigned s
  end.

Fixpoint remove_percent (s : string) : string :=
  match s with
  | EmptyString => EmptyString
  | String c s' =>
      if Ascii.eqb c "%"%char then remove_percent s' else String c (remove_percent s')
  end.

Definition percent_value (d : gmap string pyval) (k : string) : pynum :=
  match d !! k with
  | Some (VStr s) => if contains "%" s then parse_float (remove_percent s) else None
  | _ => None
  end.

(** *** Factors

    A block of the checklist: whether the data its guard asks for is there,
    and what the block adds to [(score, max)] of its sub-score. *)
Definition Totals : Type := (Z * Z)%type.

Record Factor : Type := {
  usable : Inputs -> bool;
  points : Inputs -> Totals
}.

(** A block never earns more than it makes possible, and never less than 0. *)
Definition bounded_points (inp : Inputs) (f : Factor) : Prop :=
  (0 <= fst (points f inp) <= snd (points f inp))%Z.

Definition add_totals (a b : Totals) : Totals :=
  (fst a + fst b, snd a + snd b)%Z.

Definition totals (factors : list Factor) (inp : Inputs) : Totals :=
  fold_left (fun acc f => add_totals acc (points f inp)) factors (0, 0)%Z.

(** [(score / max * 100) if max > 0 else 50]. *)
Definition ratio_score (t : Totals) : Q :=
  let '(score, max) := t in
  if (0 <? max)%Z then inject_Z score / inject_Z max * 100 else 50.

(** [max(0, min(100, ...))] of the recalculation. *)
Definition clamp_score (t : Totals) : Q :=
  py_max 0 (py_min 100 (ratio_score t)).

(** *** Technical checklist *)

Definition tech_rsi : Factor := {|
  usable inp := is_some (get_num (stock_data inp) "rsi");
  points inp :=
    match get_num (stock_data inp) "rsi" with
    | Some rsi =>
        (if ((30 <=? rsi) && (rsi <=? 70))%Q then 15
         else if (rsi <? 30)%Q then 20
         else if (rsi >? 70)%Q then 5
         else 0, 20)%Z
    | None => (0, 0)%Z
    end
|}.

Definition sma_points (sd : gmap string pyval) (k : string) (above below : Z) : Z :=
  match truthy_num sd k with
  | Some v => if (v >? 0)%Q then above else below
  | None => 0%Z
  end.

Definition tech_moving_averages : Factor := {|
  usable inp :=
    is_some (truthy_num (stock_data inp) "priceVsSMA200")
    || is_some (truthy_num (stock_data inp) "priceVsSMA50")
    || is_some (truthy_num (stock_data inp) "priceVsSMA20");
  points inp :=
    (sma_points (stock_data inp) "priceVsSMA200" 10 2
     + sma_points (stock_data inp) "priceVsSMA50" 8 3
     + sma_points (stock_data inp) "priceVsSMA20" 7 3, 25)%Z
|}.

Definition tech_macd : Factor := {|
  usable inp :=
    (is_some (get_num (stock_data inp) "macd")
     && is_some (get_num (stock_data inp) "macdSignal"))
    || is_some (get_num (stock_data inp) "macdHistogram");
  points inp :=
    ((match get_num (stock_data inp) "macd", get_num (stock_data inp) "macdSignal" with
      | Some macd, Some macd_signal => if (macd >? macd_signal)%Q then 10 else 3
      | _, _ => 0
      end)
     + (match get_num (stock_data inp) "macdHistogram" with
        | Some macd_hist => if (macd_hist >? 0)%Q then 5 else 1
        | None => 0
        end), 15)%Z
|}.

Definition tech_bollinger : Factor := {|
  usable inp := is_some (get_num (stock_data inp) "bbPercentB");
  points inp :=
    (match get_num (stock_data inp) "bbPercentB" with
     | Some bb_percent =>
         if ((20 <=? bb_percent) && (bb_percent <=? 80))%Q then 10
         else if (bb_percent <? 20)%Q then 8
         else if (bb_percent >? 80)%Q then 5
         else 0
     | None => 0
     end, 10)%Z
|}.

Definition tech_stochastic : Factor := {|
  usable inp :=
    is_some (get_num (stock_data inp) "stochK")
    && is_some (get_num (stock_data inp) "stochD");
  points inp :=
    (match get_num (stock_data inp) "stochK", get_num (stock_data inp) "stochD" with
     | Some stoch_k, Some stoch_d =>
         if ((stoch_k >? stoch_d) && (stoch_k <? 80))%Q then 8
         else if ((stoch_k <? stoch_d) && (stoch_k >? 20))%Q then 3
         else if (stoch_k <? 20)%Q then 7
         else 0
     | _, _ => 0
     end, 10)%Z
|}.

Definition tech_volume : Factor := {|
  usable inp := is_some (get_num (stock_data inp) "volumeRatio");
  points inp :=
    (match get_num (stock_data inp) "volumeRatio" with
     | Some volume_ratio =>
         if (volume_ratio >? 120)%Q then 8
         else if (volume_ratio <? 80)%Q then 3
         else 0
     | None => 0
     end, 10)%Z
|}.

Definition tech_momentum : Factor := {|
  usable inp := is_some (get_num (stock_data inp) "momentum");
  points inp :=
    (match get_num (stock_data inp) "momentum" with
     | Some momentum => if (momentum >? 0)%Q then 8 else 2
     | None => 0
     end, 10)%Z
|}.

Definition technical_factors : list Factor :=
  [tech_rsi; tech_moving_averages; tech_macd; tech_bollinger; tech_stochastic;
   tech_volume; tech_momentum].

(** *** Fundamental checklist *)

Definition fund_pe : Factor := {|
  usable inp := is_some (positive_num (info inp) "trailingPE");
  points inp :=
    (match positive_num (info inp) "trailingPE" with
     | Some pe_ratio =>
         if ((10 <=? pe_ratio) && (pe_ratio <=? 25))%Q then 15
         else if (pe_ratio <? 10)%Q then 18
         else if (pe_ratio >? 30)%Q then 5
         else 0
     | None => 0
     end, 20)%Z
|}.

Definition fund_peg : Factor := {|
  usable inp := is_some (positive_num (info inp) "pegRatio");
  points inp :=
    match positive_num (info inp) "pegRatio" with
    | Some peg_ratio =>
        (if (peg_ratio <? 1)%Q then 15
         else if ((1 <=? peg_ratio) && (peg_ratio <=? 2))%Q then 10
         else 3, 15)%Z
    | None => (0, 0)%Z
    end
|}.

Definition fund_health : Factor := {|
  usable inp :=
    is_some (get_num (info inp) "profitMargins")
    || is_some (get_num (info inp) "returnOnEquity");
  points inp :=
    ((match get_num (info inp) "profitMargins" with
      | Some profit_margin =>
          if (profit_margin >? 15 # 100)%Q then 8
          else if (profit_margin >? 0)%Q then 5
          else 1
      | None => 0
      end)
     + (match get_num (info inp) "returnOnEquity" with
        | Some roe =>
            if (roe >? 15 # 100)%Q then 6
            else if (roe >? 0)%Q then 3
            else 1
        | None => 0
        end), 20)%Z
|}.

Definition fund_debt : Factor := {|
  usable inp := is_some (get_num (info inp) "debtToEquity");
  points inp :=
    match get_num (info inp) "debtToEquity" with
    | Some debt_to_equity =>
        (if (debt_to_equity <? 1)%Q then 10
         else if (debt_to_equity <? 2)%Q then 7
         else 3, 10)%Z
    | None => (0, 0)%Z
    end
|}.

Definition fund_current_ratio : Factor := {|
  usable inp := is_some (get_num (info inp) "currentRatio");
  points inp :=
    match get_num (info inp) "currentRatio" with
    | Some current_ratio =>
        (if ((15 # 10 <=? current_ratio) && (current_ratio <=? 3))%Q then 10
         else if (current_ratio <? 1)%Q then 2
         else 0, 10)%Z
    | None => (0, 0)%Z
    end
|}.

Definition fund_growth : Factor := {|
  usable inp :=
    is_some (get_num (info inp) "revenueGrowth")
    || is_some (get_num (info inp) "earningsQuarterlyGrowth");
  points inp :=
    ((match get_num (info inp) "revenueGrowth" with
      | Some revenue_growth =>
          if (revenue_growth >? 10 # 100)%Q then 8
          else if (revenue_growth >? 0)%Q then 5
          else 1
      | None => 0
      end)
     + (match get_num (info inp) "earningsQuarterlyGrowth" with
        | Some earnings_growth =>
            if (earnings_growth >? 15 # 100)%Q then 7
            else if (earnings_growth >? 0)%Q then 4
            else 1
        | None => 0
        end), 15)%Z
|}.

Definition fund_market_position : Factor := {|
  usable inp :=
    is_some (get_num (info inp) "marketCap") || is_some (get_num (info inp) "beta");
  points inp :=
    ((match get_num (info inp) "marketCap" with
      | Some market_cap => if (market_cap >? 10000000000)%Q then 5 else 0
      | None => 0
      end)
     + (match get_num (info inp) "beta" with
        | Some beta =>
            if ((8 # 10 <=? beta) && (beta <=? 12 # 10))%Q then 5
            else if (beta >? 15 # 10)%Q then 2
            else 0
        | None => 0
        end), 10)%Z
|}.

Definition fundamental_factors : list Factor :=
  [fund_pe; fund_peg; fund_health; fund_debt; fund_current_ratio; fund_growth;
   fund_market_position].

(** *** Momentum checklist *)

Definition mom_one_year : Factor := {|
  usable inp := is_some (percent_value (stock_data inp) "oneYearReturn");
  points inp :=
    (match percent_value (stock_data inp) "oneYearReturn" with
     | Some ret_val =>
         if (ret_val >? 20)%Q then 20
         else if (ret_val >? 0)%Q then 12
         else 3
     | None => 0
     end, 30)%Z
|}.

Definition mom_five_year : Factor := {|
  usable inp := is_some (percent_value (stock_data inp) "fiveYearReturn");
  points inp :=
    (match percent_value (stock_data inp) "fiveYearReturn" with
     | Some ret_val =>
         if (ret_val >? 50)%Q then 20
         else if (ret_val >? 20)%Q then 15
         else if (ret_val >? 0)%Q then 8
         else 2
     | None => 0
     end, 20)%Z
|}.

Definition momentum_factors : list Factor := [mom_one_year; mom_five_year].

(** *** Value checklist *)

Definition value_pe : Factor := {|
  usable inp := is_some (positive_num (info inp) "trailingPE");
  points inp :=
    match positive_num (info inp) "trailingPE" with
    | Some pe_ratio =>
        (if (pe_ratio <? 15)%Q then 25
         else if (pe_ratio <? 20)%Q then 18
         else if (pe_ratio <? 25)%Q then 12
         else 5, 25)%Z
    | None => (0, 0)%Z
    end
|}.

Definition value_price_to_book : Factor := {|
  usable inp := is_some (positive_num (info inp) "priceToBook");
  points inp :=
    match positive_num (info inp) "priceToBook" with
    | Some price_to_book =>
        (if (price_to_book <? 1)%Q then 25
         else if (price_to_book <? 2)%Q then 18
         else if (price_to_book <? 3)%Q then 12
         else 5, 25)%Z
    | None => (0, 0)%Z
    end
|}.

Definition value_peg : Factor := {|
  usable inp := is_some (positive_num (info inp) "pegRatio");
  points inp :=
    match positive_num (info inp) "pegRatio" with
    | Some peg_ratio =>
        (if (peg_ratio <? 8 # 10)%Q then 25
         else if (peg_ratio <? 12 # 10)%Q then 18
         else 8, 25)%Z
    | None => (0, 0)%Z
    end
|}.

(** The analyst-target block needs the target and a positive current
    price.  The comparison [current_price > 0] of its guard is only reached
    with a numeric target; that it raises on a [None] price is
    [target_guard] below. *)
Definition value_target : Factor := {|
  usable inp :=
    is_some (get_num (info inp) "targetMeanPrice") && (price_value inp >? 0);
  points inp :=
    match get_num (info inp) "targetMeanPrice" with
    | Some target_mean =>
        let current_price := price_value inp in
        if (current_price >? 0)%Q then
          let upside := (target_mean - current_price) / current_price * 100 in
          (if (upside >? 20)%Q then 25
           else if (upside >? 10)%Q then 18
           else if (upside >? 0)%Q then 12
           else 5, 25)%Z
        else (0, 0)%Z
    | None => (0, 0)%Z
    end
|}.

Definition target_guard (inp : Inputs) : result bool :=
  match get_num (info inp) "targetMeanPrice" with
  | Some _ => price_positive inp
  | None => Returned false
  end.

Definition value_factors : list Factor :=
  [value_pe; value_price_to_book; value_peg; value_target].

(** *** Growth checklist *)

Definition growth_revenue : Factor := {|
  usable inp := is_some (get_num (info inp) "revenueGrowth");
  points inp :=
    match get_num (info inp) "revenueGrowth" with
    | Some revenue_growth =>
        (if (revenue_growth >? 20 # 100)%Q then 30
         else if (revenue_growth >? 10 # 100)%Q then 20
         else if (revenue_growth >? 0)%Q then 12
         else 3, 30)%Z
    | None => (0, 0)%Z
    end
|}.

Definition growth_earnings : Factor := {|
  usable inp := is_some (get_num (info inp) "earningsQuarterlyGrowth");
  points inp :=
    match get_num (info inp) "earningsQuarterlyGrowth" with
    | Some earnings_growth =>
        (if (earnings_growth >? 25 # 100)%Q then 30
         else if (earnings_growth >? 15 # 100)%Q then 20
         else if (earnings_growth >? 0)%Q then 12
         else 3, 30)%Z
    | None => (0, 0)%Z
    end
|}.

Definition growth_peg : Factor := {|
  usable inp := is_some (positive_num (info inp) "pegRatio");
  points inp :=
    match positive_num (info inp) "pegRatio" with
    | Some peg_ratio =>
        (if (peg_ratio <? 1)%Q then 20
         else if (peg_ratio <? 15 # 10)%Q then 15
         else 5, 20)%Z
    | None => (0, 0)%Z
    end
|}.

Definition growth_forward_pe : Factor := {|
  usable inp :=
    is_some (positive_num (info inp) "forwardPE")
    && is_some (positive_num (info inp) "trailingPE");
  points inp :=
    match positive_num (info inp) "forwardPE", positive_num (info inp) "trailingPE" with
    | Some forward_pe, Some pe_ratio =>
        (if (forward_pe <? pe_ratio)%Q then 20 else 8, 20)%Z
    | _, _ => (0, 0)%Z
    end
|}.

Definition growth_factors : list Factor :=
  [growth_revenue; growth_earnings; growth_peg; growth_forward_pe].

(** *** The [scores] and [weights] dictionaries

    Python dictionaries iterate in insertion order, and assigning to a key
    that is there keeps its place. *)
Fixpoint dict_set (key : string) (v : Q) (d : list (string * Q)) : list (string * Q) :=
  match d with
  | [] => [(key, v)]
  | (key', v') :: d' =>
      if String.eqb key key' then (key, v) :: d' else (key', v') :: dict_set key v d'
  end.

Fixpoint dict_get (key : string) (d : list (string * Q)) : option Q :=
  match d with
  | [] => None
  | (key', v) :: d' => if String.eqb key key' then Some v else dict_get key d'
  end.

Definition dict_has (key : string) (d : list (string * Q)) : bool :=
  is_some (dict_get key d).

Definition initial_scores : list (string * Q) :=
  [("technical", 0); ("fundamental", 0); ("momentum", 0); ("value", 0); ("growth", 0)].

Definition weights : list (string * Q) :=
  [("technical", 20 # 100); ("fundamental", 25 # 100); ("momentum", 15 # 100);
   ("value", 20 # 100); ("growth", 10 # 100); ("macro", 5 # 100);
   ("sentiment", 5 # 100)].

(** [sum(scores[key] * weights.get(key, 0) for key in scores if key in weights)]. *)
Definition weighted_sum (scores weights : list (string * Q)) : Q :=
  fold_left
    (fun acc entry =>
       let '(key, v) := entry in
       if dict_has key weights
       then acc + v * match dict_get key weights with Some w => w | None => 0 end
       else acc)
    scores 0.

(** [round(x, ndigits)]: to the nearest, ties to even. *)
Definition round_half_even (q : Q) : Z :=
  let f := Qfloor q in
  let r := q - inject_Z f in
  if r <? 1 # 2 then f
  else if r >? 1 # 2 then (f + 1)%Z
  else if Z.even f then f else (f + 1)%Z.

Definition py_round (q : Q) (ndigits : nat) : Q :=
  let m := inject_Z (10 ^ Z.of_nat ndigits) in
  inject_Z (round_half_even (q * m)) / m.

(** *** Adjustments after the five checklists *)

Definition or_default (v : pynum) (default : Q) : Q :=
  match v with Some q => q | None => default end.

Definition dcf_growth_rate (inp : Inputs) : Q :=
  let revenue_growth_val := or_default (get_num (info inp) "revenueGrowth") (5 # 100) in
  let earnings_growth_val :=
    or_default (get_num (info inp) "earningsQuarterlyGrowth") (5 # 100) in
  py_min (py_max ((revenue_growth_val + earnings_growth_val) / 2) (2 # 100)) (15 # 100).

Definition dcf_discount_rate (inp : Inputs) : Q :=
  let beta_val := or_default (get_num (info inp) "beta") 1 in
  (3 # 100) + beta_val * (7 # 100).

Definition dcf_stage (inp : Inputs) : result (option DCFResult) :=
  match get_num (info inp) "freeCashflow" with
  | Some free_cash_flow =>
      if free_cash_flow >? 0 then
        calculate_dcf (Some free_cash_flow) (Some (dcf_growth_rate inp))
          (Some (25 # 1000)) (Some (dcf_discount_rate inp)) 5
          (get_num (info inp) "sharesOutstanding")
      else Returned None
  | None => Returned None
  end.

(** [dcf_result and dcf_result.get('equity_value_per_share')]. *)
Definition dcf_price_of (dcf_result : option DCFResult) : option Q :=
  match dcf_result with
  | Some r =>
      match equity_value_per_share r with
      | Some v => if v =? 0 then None else Some v
      | None => None
      end
  | None => None
  end.

Record DCFValuation : Type := {
  intrinsicValue : Q;
  dcf_currentPrice : Q;
  upsideDownside : Q;
  dcf_assumptions : Assumptions
}.

(** The DCF block: the [dcfValuation] entry and what it adds to
    [value_score]. *)
Definition dcf_block (inp : Inputs) (dcf_result : option DCFResult)
    : result (option DCFValuation * Z) :=
  match dcf_price_of dcf_result, dcf_result with
  | Some dcf_price, Some r =>
      try! positive := price_positive inp in
      let current_price := price_value inp in
      let valuation :=
        {| intrinsicValue := py_round dcf_price 2;
           dcf_currentPrice := current_price;
           upsideDownside :=
             if positive
             then py_round ((dcf_price - current_price) / current_price * 100) 2
             else 0;
           dcf_assumptions := assumptions r |} in
      let adjustment :=
        if positive then
          if dcf_price >? current_price * (115 # 100) then 15%Z
          else if dcf_price <? current_price * (85 # 100) then (-10)%Z
          else 0%Z
        else 0%Z in
      Returned (Some valuation, adjustment)
  | _, _ => Returned (None, 0%Z)
  end.

Definition relative_adjustment (relative_val : RelativeAssessment) : Z :=
  if String.eqb (overall_valuation relative_val) "CHEAP" then 10%Z
  else if String.eqb (overall_valuation relative_val) "EXPENSIVE" then (-10)%Z
  else 0%Z.

(** [macro_analysis] is the empty dictionary without a ticker object. *)
Definition macro_stage (inp : Inputs) : option MacroAnalysis :=
  match ticker_obj inp with
  | Some ticker_info =>
      Some (analyze_macro_environment ticker_info
              (get_str (stock_data inp) "sector") (get_str (stock_data inp) "industry"))
  | None => None
  end.

Definition macro_adjustment (macro_analysis : option MacroAnalysis) : Z :=
  match macro_analysis with
  | Some m =>
      ((if String.eqb (sector_outlook m) "POSITIVE" then 5
        else if String.eqb (sector_outlook m) "CAUTIOUS"
                || String.eqb (sector_outlook m) "VOLATILE" then -5
        else 0)
       + (if String.eqb (recession_resilience m) "HIGH" then 3
          else if String.eqb (recession_resilience m) "LOW" then -3
          else 0))%Z
  | None => 0%Z
  end.

Definition sentiment_adjustment (sentiment : Sentiment) : Z :=
  if String.eqb (overall_sentiment sentiment) "BULLISH" then 10%Z
  else if String.eqb (overall_sentiment sentiment) "BEARISH" then (-10)%Z
  else 0%Z.

(** *** Scoring, up to the overall score *)

Record Scored : Type := {
  raw_scores : list (string * Q);
  overall_score : Q;
  scored_dcf : option DCFValuation;
  scored_relative : RelativeAssessment;
  scored_macro : option MacroAnalysis;
  scored_sentiment : Sentiment
}.

Definition score (inp : Inputs) : result Scored :=
  let scores := initial_scores in
  let scores := dict_set "technical" (ratio_score (totals technical_factors inp)) scores in
  let '(fund_score, fund_max) := totals fundamental_factors inp in
  let scores := dict_set "fundamental" (ratio_score (fund_score, fund_max)) scores in
  let '(momentum_score, momentum_max) := totals momentum_factors inp in
  let scores := dict_set "momentum" (ratio_score (momentum_score, momentum_max)) scores in
  try! _guard := target_guard inp in
  let '(value_score, value_max) := totals value_factors inp in
  let scores := dict_set "value" (ratio_score (value_score, value_max)) scores in
  let scores := dict_set "growth" (ratio_score (totals growth_factors inp)) scores in
  try! dcf_result := dcf_stage inp in
  try! dcf := dcf_block inp dcf_result in
  let '(dcf_valuation, dcf_adjustment) := dcf in
  let value_score := (value_score + dcf_adjustment)%Z in
  let relative_val := calculate_relative_valuation (info inp) in
  let value_score := (value_score + relative_adjustment relative_val)%Z in
  let macro_analysis := macro_stage inp in
  let fund_score := (fund_score + macro_adjustment macro_analysis)%Z in
  let sentiment :=
    analyze_sentiment (get_str (stock_data inp) "symbol") (info inp) (hist_data inp) in
  let momentum_score := (momentum_score + sentiment_adjustment sentiment)%Z in
  let scores := dict_set "value" (clamp_score (value_score, value_max)) scores in
  let scores := dict_set "fundamental" (clamp_score (fund_score, fund_max)) scores in
  let scores := dict_set "momentum" (clamp_score (momentum_score, momentum_max)) scores in
  Returned {| raw_scores := scores;
              overall_score := weighted_sum scores weights;
              scored_dcf := dcf_valuation;
              scored_relative := relative_val;
              scored_macro := macro_analysis;
              scored_sentiment := sentiment |}.

(** *** Rating, price target and the returned analysis *)

Record Analysis : Type := {
  overallRating : string;
  investmentRecommendation : string;
  longTermOutlook : string;
  riskLevel : string;
  confidence : Q;
  scores : list (string * Q);
  priceTarget : option Q;
  dcfValuation : option DCFValuation;
  relativeValuation : option RelativeAssessment;
  macroAnalysis : option MacroAnalysis;
  sentimentAnalysis : option Sentiment;
  (** the exception the handler caught, reported in [summary] *)
  caught : option exn
}.

Definition initial_analysis : Analysis :=
  {| overallRating := "NEUTRAL";
     investmentRecommendation := "HOLD";
     longTermOutlook := "MODERATE";
     riskLevel := "MEDIUM";
     confidence := 0;
     scores := [];
     priceTarget := None;
     dcfValuation := None;
     relativeValuation := None;
     macroAnalysis := None;
     sentimentAnalysis := None;
     caught := None |}.

(** Rating, recommendation, outlook and risk level. *)
Definition rating (overall_score : Q) : string * string * string * string :=
  if overall_score >=? 75 then ("STRONG BUY", "BUY", "VERY POSITIVE", "LOW-MEDIUM")
  else if overall_score >=? 65 then ("BUY", "BUY", "POSITIVE", "MEDIUM")
  else if overall_score >=? 55 then ("HOLD", "HOLD", "NEUTRAL", "MEDIUM")
  else if overall_score >=? 45 then ("WEAK HOLD", "HOLD", "CAUTIOUS", "MEDIUM-HIGH")
  else ("SELL", "SELL", "NEGATIVE", "HIGH").

Definition price_target (inp : Inputs) (overall_score : Q) : result (option Q) :=
  let estimate :=
    try! positive := price_positive inp in
    if positive then
      let current_price := price_value inp in
      Returned (Some
        (if overall_score >=? 65 then py_round (current_price * (115 # 100)) 2
         else if overall_score >=? 55 then py_round (current_price * (105 # 100)) 2
         else if overall_score >=? 45 then py_round (current_price * (95 # 100)) 2
         else py_round (current_price * (85 # 100)) 2))
    else Returned None in
  match get_num (info inp) "targetMeanPrice" with
  | Some target_mean =>
      if target_mean >? 0 then Returned (Some (py_round target_mean 2)) else estimate
  | None => estimate
  end.

(** The only arithmetic of the report text that can raise: the distance of a
    price target from the current price, in the conclusion. *)
Definition conclusion_check (inp : Inputs) (target : option Q) : result unit :=
  match target with
  | Some t =>
      if t =? 0 then Returned tt
      else
        match current_price inp with
        | Some current_price =>
            try! _pct := py_div (t - current_price) current_price in Returned tt
        | None => Raised TypeError
        end
  | None => Returned tt
  end.

(** The broad handler: whatever was stored before the exception stays, the
    confidence becomes 50. *)
Definition degraded (a : Analysis) (e : exn) : Analysis :=
  {| overallRating := overallRating a;
     investmentRecommendation := investmentRecommendation a;
     longTermOutlook := longTermOutlook a;
     riskLevel := riskLevel a;
     confidence := 50;
     scores := scores a;
     priceTarget := priceTarget a;
     dcfValuation := dcfValuation a;
     relativeValuation := relativeValuation a;
     macroAnalysis := macroAnalysis a;
     sentimentAnalysis := sentimentAnalysis a;
     caught := Some e |}.

Definition generate_ai_analysis (inp : Inputs) : Analysis :=
  match score inp with
  | Raised e => degraded initial_analysis e
  | Returned sc =>
      let '(overall_rating, recommendation, outlook, risk) := rating (overall_score sc) in
      let rated (target : option Q) : Analysis :=
        {| overallRating := overall_rating;
           investmentRecommendation := recommendation;
           longTermOutlook := outlook;
           riskLevel := risk;
           confidence := py_round (overall_score sc) 1;
           scores := map (fun entry => (fst entry, py_round (snd entry) 1)) (raw_scores sc);
           priceTarget := target;
           dcfValuation := scored_dcf sc;
           relativeValuation := Some (scored_relative sc);
           macroAnalysis := scored_macro sc;
           sentimentAnalysis := Some (scored_sentiment sc);
           caught := None |} in
      match price_target inp (overall_score sc) with
      | Raised e => degraded (rated None) e
      | Returned target =>
          match conclusion_check inp target with
          | Raised e => degraded (rated target) e
          | Returned _ => rated target
          end
      end
  end.

End StockInfoAPI.

(** ** Sample inputs *)

Module Samples.

Import StockInfoAPI.

(** Twice the average volume, a "buy" recommendation and 20% institutional
    ownership. *)
Definition bullish_info : gmap string pyval :=
  <["volume" := VNum 200]>
    (<["averageVolume" := VNum 100]>
       (<["recommendationKey" := VStr "buy"]>
          (<["heldPercentInstitutions" := VNum 20]> ∅))).

Definition flat_bar (c : Q) : Bar :=
  {| bar_open := c; bar_high := c; bar_low := c; bar_close := c; bar_volume := 1000 |}.

(** Twenty closes, the last 7% above the first. *)
Definition rising_history : list Bar :=
  (repeat (flat_bar 100) 19 ++ [flat_bar 107])%list.

Definition sample_stock_data : gmap string pyval :=
  <["currentPrice" := VNum 100]>
    (<["rsi" := VNum 25]>
       (<["oneYearReturn" := VStr "25.50%"]>
          (<["fiveYearReturn" := VStr "-3.20%"]>
             (<["sector" := VStr "Technology"]> ∅)))).

Definition sample_info : gmap string pyval :=
  <["trailingPE" := VNum 12]>
    (<["freeCashflow" := VNum 1000]>
       (<["sharesOutstanding" := VNum 100]>
          (<["targetMeanPrice" := VNum 130]>
             (<["beta" := VNum 1]> ∅)))).

Definition sample_inputs : Inputs :=
  {| stock_data := sample_stock_data;
     hist_data := Some rising_history;
     info := sample_info;
     ticker_obj := Some sample_info |}.

(** Nothing but an RSI of 25. *)
Definition rsi_only_inputs : Inputs :=
  {| stock_data := <["rsi" := VNum 25]> ∅;
     hist_data := None;
     info := ∅;
     ticker_obj := None |}.

(** Fifteen closes, each one above the one before. *)
Definition rising_prices : list Q :=
  [100; 101; 102; 103; 104; 105; 106; 107; 108; 109; 110; 111; 112; 113; 114].

(** Five closes: fewer than any default window asks for. *)
Definition short_prices : list Q := [100; 101; 102; 101; 103].

Definition sixty_prices : list Q := repeat 100 60.

End Samples.

(** ** Vocabulary for further statements *)

(** The explicit-horizon value of the textbook DCF: the sum over the years
    [k = 1 .. n] of [fcf (1 + g)^k / (1 + r)^k]. *)
Fixpoint pv_sum (fcf g r : Q) (n : nat) : Q :=
  match n with
  | O => 0
  | S n' =>
      pv_sum fcf g r n' + fcf * (1 + g) ^ Z.of_nat (S n') / (1 + r) ^ Z.of_nat (S n')
  end.

(** The Gordon terminal value on the cash flow of year [n] grown once more at
    [tg], discounted back over [n] years. *)
Definition gordon_terminal (fcf g tg r : Q) (n : nat) : Q :=
  fcf * (1 + g) ^ Z.of_nat n * (1 + tg) / (r - tg) / (1 + r) ^ Z.of_nat n.

(** How many of the four sentiment signals point up, and how many point
    down. *)
Definition bullish_signals (analyst momentum retail institutional : string) : nat :=
  ((if String.eqb analyst "BULLISH" then 1 else 0)
   + (if String.eqb momentum "VERY BULLISH" || String.eqb momentum "BULLISH"
      then 1 else 0)
   + (if String.eqb retail "HIGH" then 1 else 0)
   + (if String.eqb institutional "HIGH" then 1 else 0))%nat.

Definition bearish_signals (analyst momentum retail institutional : string) : nat :=
  ((if String.eqb analyst "BEARISH" then 1 else 0)
   + (if String.eqb momentum "VERY BEARISH" || String.eqb momentum "BEARISH"
      then 1 else 0)
   + (if String.eqb retail "LOW" then 1 else 0)
   + (if String.eqb institutional "LOW" then 1 else 0))%nat.

(** The five ratings from worst to best. *)
Definition rating_rank (overall_rating : string) : nat :=
  if String.eqb overall_rating "STRONG BUY" then 4
  else if String.eqb overall_rating "BUY" then 3
  else if String.eqb overall_rating "HOLD" then 2
  else if String.eqb overall_rating "WEAK HOLD" then 1
  else 0.

(** The direction of a day-over-day change, and the volume of the days
    after the first, each signed by the direction of its close. *)
Definition direction (d : Q) : Q :=
  if d >? 0 then 1 else if d <? 0 then -(1) else 0.

Definition signed_volume (closes volumes : list Q) : Q :=
  qsum (zip_with (fun d v => direction d * v) (deltas closes) (tl volumes)).

(** ** The range of a double

    The rationals of this model stand for doubles.  The two agree, up to
    rounding in the last digits, as long as no intermediate value leaves the
    range of a double: beyond it the code produces an infinity, a zero or an
    OverflowError that a rational never shows.  The statements about the
    discounted cash flow are made for arguments inside the ranges below,
    where every intermediate value of the computation stays between 1e-75
    and 1e89 in size. *)

(** The largest finite double, [(2 - 2^-52) * 2^1023]. *)
Definition float_max : Q := inject_Z (2 ^ 1024 - 2 ^ 971).

(** A cash flow between a billionth and a billion billions. *)
Definition cash_in_range (fcf : Q) : Prop :=
  1 # 1000000000 <= fcf /\ fcf <= 1000000000000000000.

(** A rate between -90% and +900%. *)
Definition rate_in_range (rate : Q) : Prop :=
  -(9 # 10) <= rate /\ rate <= 9.

Definition dcf_in_range (fcf g tg dr : Q) (years : nat) : Prop :=
  cash_in_range fcf /\ rate_in_range g /\ rate_in_range tg /\ rate_in_range dr
  /\ (years <= 30)%nat.

(** A share count, when there is one, of at most a billion billions: a
    larger int does not convert to a double. *)
Definition shares_in_range (shares : pynum) : Prop :=
  match shares with
  | Some n => n <= 1000000000000000000
  | None => True
  end.

(** The least distance between the discount rate and the terminal growth
    rate that the statements ask for. *)
Definition rate_gap : Q := 1 # 1000000000.

(** A close between a millionth and a million millions. *)
Definition price_in_range (p : Q) : Prop :=
  1 # 1000000 <= p /\ p <= 1000000000000.

(** The distance from a threshold of the momentum bands, as a part of the
    reference close, beyond which rounding cannot change the side. *)
Definition band_margin : Q := 1 # 1000000000.

(** Text of 7-bit characters, on which [str.lower] and [str.upper] change
    the 26 letters and nothing else. *)
Fixpoint is_ascii (s : string) : bool :=
  match s with
  | EmptyString => true
  | String c s' => (nat_of_ascii c <? 128)%nat && is_ascii s'
  end.

(** The arithmetic mean and the sample variance ([ddof = 1]) of a window. *)
Definition arithmetic_mean (l : list Q) : Q :=
  qsum l / inject_Z (Z.of_nat (length l)).

Definition sample_variance (l : list Q) : Q :=
  qsum (map (fun x => (x - arithmetic_mean l) * (x - arithmetic_mean l)) l)
  / (inject_Z (Z.of_nat (length l)) - 1).

(** ** More sample inputs *)

Module MoreSamples.

Import StockInfoAPI Samples.

(** Fifteen closes: seven gains of 2, then seven losses of 1. *)
Definition zigzag_prices : list Q :=
  [100; 102; 104; 106; 108; 110; 112; 114; 113; 112; 111; 110; 109; 108; 107].


(** A trailing P/E of 10 and a price-to-book of 2, both below the market
    references. *)
Definition cheap_info : gmap string pyval :=
  <["trailingPE" := VNum 10]> (<["priceToBook" := VNum 2]> ∅).

(** An average volume without a volume. *)
Definition no_volume_info : gmap string pyval :=
  <["averageVolume" := VNum 1000]> ∅.


(** Four bars with their volumes. *)
Definition bar_highs : list Q := [11; 12; 13; 12].
Definition bar_lows : list Q := [9; 10; 11; 10].
Definition bar_closes : list Q := [10; 11; 12; 11].
Definition bar_volumes : list Q := [500; 300; 200; 400].

(** Four closes whose last three have the mean 11 and the sample variance
    4. *)
Definition spread_closes : list Q := [10; 9; 11; 13].

(** A square root on the rationals that is exact on the squares of the
    integers. *)
Definition sqrt_sample (q : Q) : Q :=
  inject_Z (Z.sqrt (Qnum (Qred q))) / inject_Z (Z.sqrt (Zpos (Qden (Qred q)))).

(** Four bars without any movement. *)
Definition still_bars : list Q := [10; 10; 10; 10].

(** A priced stock without an analyst target. *)
Definition untargeted_inputs : Inputs :=
  {| stock_data := <["currentPrice" := VNum 200]> ∅;
     hist_data := None;
     info := ∅;
     ticker_obj := None |}.

(** An analyst target for a stock whose current price is not known. *)
Definition unpriced_inputs : Inputs :=
  {| stock_data := <["currentPrice" := VStr "N/A"]> ∅;
     hist_data := None;
     info := <["targetMeanPrice" := VNum 130]> ∅;
     ticker_obj := None |}.

(** A current price that is Python's [None]. *)
Definition none_price_inputs : Inputs :=
  {| stock_data := <["currentPrice" := VNone]> ∅;
     hist_data := None;
     info := ∅;
     ticker_obj := None |}.

End MoreSamples.

Import ValuationModels Samples.

(* ================================================================= *)
(** * Properties *)

(** ** Comparisons and division *)

Lemma Qltb_lt (a b : Q) : (a <? b) = true <-> a < b.
Proof.
  unfold Qltb. rewrite negb_true_iff, <- not_true_iff_false, Qle_bool_iff.
  split; [apply Qnot_le_lt | apply Qlt_not_le].
Qed.

Lemma Qltb_ge (a b : Q) : (a <? b) = false <-> b <= a.
Proof.
  unfold Qltb. rewrite negb_false_iff. apply Qle_bool_iff.
Qed.

Lemma Qgtb_gt (a b : Q) : (a >? b) = true <-> b < a.
Proof. apply Qltb_lt. Qed.

Lemma Qgtb_le (a b : Q) : (a >? b) = false <-> a <= b.
Proof. apply Qltb_ge. Qed.

Lemma Qleb_le (a b : Q) : (a <=? b) = true <-> a <= b.
Proof. apply Qle_bool_iff. Qed.

Lemma Qleb_gt (a b : Q) : (a <=? b) = false <-> b < a.
Proof.
  unfold Qleb. rewrite <- not_true_iff_false, Qle_bool_iff.
  split; [apply Qnot_le_lt | apply Qlt_not_le].
Qed.

Lemma Qeqb_neq (a b : Q) : (a =? b) = false <-> ~ a == b.
Proof.
  rewrite <- not_true_iff_false, Qeq_bool_iff. tauto.
Qed.

(** ** Dictionary reads *)

Lemma get_num_insert (d : gmap string pyval) (k : string) (q : Q) :
  get_num (<[k := VNum q]> d) k = Some q.
Proof. unfold get_num. now rewrite lookup_insert_eq. Qed.

Lemma get_num_insert_ne (d : gmap string pyval) (k k' : string) (v : pyval) :
  k <> k' -> get_num (<[k := v]> d) k' = get_num d k'.
Proof. intros H. unfold get_num. now rewrite lookup_insert_ne. Qed.

Lemma get_num_delete (d : gmap string pyval) (k : string) :
  get_num (delete k d) k = None.
Proof. unfold get_num. now rewrite lookup_delete_eq. Qed.

Lemma get_num_delete_ne (d : gmap string pyval) (k k' : string) :
  k <> k' -> get_num (delete k d) k' = get_num d k'.
Proof. intros H. unfold get_num. now rewrite lookup_delete_ne. Qed.

Lemma py_div_defined (a b : Q) : ~ b == 0 -> py_div a b = Returned (a / b).
Proof.
  intros H. unfold py_div. apply Qeqb_neq in H. now rewrite H.
Qed.

Lemma py_div_zero (a b : Q) : b == 0 -> py_div a b = Raised ZeroDivisionError.
Proof.
  intros H. unfold py_div. apply Qeq_bool_iff in H. now rewrite H.
Qed.

Lemma Qdiv_pos (a b : Q) : 0 < a -> 0 < b -> 0 < a / b.
Proof.
  intros Ha Hb. unfold Qdiv.
  apply Qmult_lt_0_compat; [assumption | now apply Qinv_lt_0_compat].
Qed.

Lemma Qdiv_nonneg (a b : Q) : 0 <= a -> 0 < b -> 0 <= a / b.
Proof.
  intros Ha Hb. unfold Qdiv.
  apply Qmult_le_0_compat; [assumption |].
  apply Qlt_le_weak. now apply Qinv_lt_0_compat.
Qed.

Lemma Qdiv_le_mono (a b c : Q) : a <= b -> 0 < c -> a / c <= b / c.
Proof.
  intros Hab Hc. unfold Qdiv. apply Qmult_le_compat_r; [assumption |].
  apply Qlt_le_weak. now apply Qinv_lt_0_compat.
Qed.

(** ** Discounted cash flow *)

Section DCF.

Variables growth_rate discount_rate : Q.
Hypothesis growth_ok : -(1) < growth_rate.
Hypothesis discount_ok : -(1) < discount_rate.

(** With a growth rate and a discount rate above -100%, the projection loop
    never divides by zero and keeps the cash flow positive and the running
    present value non-negative. *)
Lemma project_positive (n : nat) :
  forall (year : Z) (current_fcf pv : Q),
    0 < current_fcf -> 0 <= pv ->
    exists fcf' pv',
      project n year growth_rate discount_rate current_fcf pv = Returned (fcf', pv')
      /\ 0 < fcf' /\ 0 <= pv'.
Proof using growth_ok discount_ok.
  induction n as [|n IH]; intros year cur pv Hcur Hpv; simpl.
  - exists cur, pv. auto.
  - assert (Hg : 0 < 1 + growth_rate) by lra.
    assert (Hd : 0 < (1 + discount_rate) ^ year)
      by (apply Qpower_0_lt; lra).
    assert (Hc : 0 < cur * (1 + growth_rate))
      by (now apply Qmult_lt_0_compat).
    rewrite py_div_defined by lra. simpl.
    apply IH; [assumption |].
    pose proof (Qdiv_pos _ _ Hc Hd). lra.
Qed.

End DCF.

(** A non-positive or non-numeric free cash flow is rejected, whatever the
    other arguments are. *)
Lemma dcf_rejects_fcf (fcf g tg dr : pynum) (years : nat) (sh : pynum) :
  match fcf with Some f => f <= 0 | None => True end ->
  calculate_dcf fcf g tg dr years sh = Returned None.
Proof.
  destruct fcf as [f|]; simpl; [|reflexivity].
  intros H. apply Qleb_le in H. now rewrite H.
Qed.

(** For a positive free cash flow, growth rates above -100% and a terminal
    growth rate below the discount rate, every division is defined and the
    enterprise value is positive. *)
Lemma dcf_positive (f g tg dr : Q) (years : nat) (sh : pynum) :
  0 < f -> -(1) < g -> -(1) < tg -> tg < dr ->
  exists r,
    calculate_dcf (Some f) (Some g) (Some tg) (Some dr) years sh = Returned (Some r)
    /\ 0 < enterprise_value r.
Proof.
  intros Hf Hg Htg Hlt.
  assert (Hdr : -(1) < dr) by lra.
  destruct (project_positive g dr Hg Hdr years 1%Z f 0 Hf (Qle_refl 0))
    as (fcf' & pv' & Hproj & Hfcf' & Hpv').
  unfold calculate_dcf.
  apply Qleb_gt in Hf. rewrite Hf. rewrite Hproj. simpl.
  rewrite py_div_defined by lra. simpl.
  assert (Hpow : 0 < (1 + dr) ^ Z.of_nat years) by (apply Qpower_0_lt; lra).
  rewrite py_div_defined by lra. simpl.
  eexists. split; [reflexivity |]. simpl.
  assert (Htf : 0 < fcf' * (1 + tg)) by (apply Qmult_lt_0_compat; lra).
  assert (Hden : 0 < dr - tg) by lra.
  pose proof (Qdiv_pos _ _ (Qdiv_pos _ _ Htf Hden) Hpow). lra.
Qed.

Lemma Qpower_succ (a : Q) (y : nat) : a ^ Z.of_nat (S y) == a ^ Z.of_nat y * a.
Proof.
  rewrite Nat2Z.inj_succ. unfold Z.succ. rewrite Qpower_plus' by lia.
  reflexivity.
Qed.

Section ClosedForm.

Variables fcf g r : Q.
Hypothesis rate_ok : ~ 1 + r == 0.

(** After [y] years the loop state is the compounded cash flow and the sum
    so far; [n] more iterations never divide by zero and reach year
    [y + n]. *)
Lemma project_closed_form (n : nat) :
  forall (y : nat) (current_fcf pv : Q),
    current_fcf == fcf * (1 + g) ^ Z.of_nat y ->
    pv == pv_sum fcf g r y ->
    exists c p,
      project n (Z.of_nat y + 1)%Z g r current_fcf pv = Returned (c, p)
      /\ c == fcf * (1 + g) ^ Z.of_nat (y + n)
      /\ p == pv_sum fcf g r (y + n).
Proof using rate_ok.
  induction n as [|n IH]; intros y cur pv Hcur Hpv.
  - exists cur, pv. rewrite Nat.add_0_r. auto.
  - cbn [project].
    assert (Hpow : ~ (1 + r) ^ (Z.of_nat y + 1) == 0) by now apply Qpower_not_0.
    rewrite py_div_defined by assumption. cbn [bind].
    replace (Z.of_nat y + 1)%Z with (Z.of_nat (S y)) in * by lia.
    assert (Hcur' : cur * (1 + g) == fcf * (1 + g) ^ Z.of_nat (S y)).
    { rewrite Qpower_succ, Hcur. ring. }
    destruct (IH (S y) (cur * (1 + g))
                (pv + cur * (1 + g) / (1 + r) ^ Z.of_nat (S y))) as (c & p & H & Hc & Hp).
    + exact Hcur'.
    + cbn [pv_sum]. rewrite Hpv, Hcur'. reflexivity.
    + exists c, p. replace (y + S n)%nat with (S y + n)%nat by lia. auto.
Qed.

End ClosedForm.

(** The figures of a returned result, for a positive free cash flow and a
    discount rate other than -100% and other than the terminal growth rate. *)
Lemma dcf_value (f g tg r : Q) (years : nat) (sh : pynum) :
  0 < f -> ~ 1 + r == 0 -> ~ r == tg ->
  exists res,
    calculate_dcf (Some f) (Some g) (Some tg) (Some r) years sh = Returned (Some res)
    /\ pv_cash_flows res == pv_sum f g r years
    /\ pv_terminal res == gordon_terminal f g tg r years
    /\ enterprise_value res == pv_sum f g r years + gordon_terminal f g tg r years.
Proof.
  intros Hf Hrate Hgap.
  destruct (project_closed_form f g r Hrate years 0 f 0) as (c & p & Hproj & Hc & Hp).
  { simpl. ring. }
  { reflexivity. }
  change (Z.of_nat 0 + 1)%Z with 1%Z in Hproj.
  change (0 + years)%nat with years in Hc, Hp.
  unfold calculate_dcf. apply Qleb_gt in Hf. rewrite Hf, Hproj. cbn [bind].
  rewrite py_div_defined by (intros H; apply Hgap; lra). cbn [bind].
  rewrite py_div_defined by now apply Qpower_not_0. cbn [bind].
  eexists. split; [reflexivity |]. cbn [pv_cash_flows pv_terminal enterprise_value].
  assert (Hterm : c * (1 + tg) / (r - tg) / (1 + r) ^ Z.of_nat years
                  == gordon_terminal f g tg r years).
  { unfold gordon_terminal. rewrite Hc. reflexivity. }
  split; [assumption |]. split; [assumption |].
  rewrite Hp, Hterm. reflexivity.
Qed.

(** *** Magnitudes *)

Lemma Qpower_nat_le (a b : Q) (n : nat) :
  0 <= a -> a <= b -> a ^ Z.of_nat n <= b ^ Z.of_nat n.
Proof.
  intros Ha Hab. induction n as [|n IH].
  - apply Qle_refl.
  - rewrite !Qpower_succ.
    pose proof (Qpower_0_le a (Z.of_nat n) Ha) as Hpow.
    apply Qle_trans with (a ^ Z.of_nat n * b).
    + rewrite !(Qmult_comm (a ^ Z.of_nat n)).
      now apply Qmult_le_compat_r.
    + apply Qmult_le_compat_r; [exact IH | lra].
Qed.

(** A compounded and discounted cash flow, with both factors between 1/10
    and 10, after at most [n] years. *)
Lemma discounted_growth_bound (f a b : Q) (k n : nat) :
  0 < f -> 1 # 10 <= a -> a <= 10 -> 1 # 10 <= b -> b <= 10 -> (k <= n)%nat ->
  0 < f * a ^ Z.of_nat k / b ^ Z.of_nat k
  /\ f * a ^ Z.of_nat k / b ^ Z.of_nat k <= f * 100 ^ Z.of_nat n.
Proof.
  intros Hf Ha Ha' Hb Hb' Hk.
  assert (Hak : 0 < a ^ Z.of_nat k) by (apply Qpower_0_lt; lra).
  assert (Hbk : 0 < b ^ Z.of_nat k) by (apply Qpower_0_lt; lra).
  split.
  - apply Qdiv_pos; [now apply Qmult_lt_0_compat | assumption].
  - apply Qle_shift_div_r; [assumption |].
    assert (H1 : a ^ Z.of_nat k <= (100 * b) ^ Z.of_nat k)
      by (apply Qpower_nat_le; lra).
    rewrite Qmult_power in H1.
    assert (H2 : 100 ^ Z.of_nat k <= 100 ^ Z.of_nat n)
      by (apply Qpower_le_compat_l; [lia | lra]).
    assert (H3 : 100 ^ Z.of_nat k * b ^ Z.of_nat k
                 <= 100 ^ Z.of_nat n * b ^ Z.of_nat k)
      by (apply Qmult_le_compat_r; [exact H2 | lra]).
    rewrite <- !Qmult_assoc. apply Qmult_le_l; [exact Hf |]. lra.
Qed.

Lemma pv_sum_bound (f g r : Q) (m : nat) :
  0 < f -> rate_in_range g -> rate_in_range r ->
  forall n : nat,
    (n <= m)%nat ->
    0 <= pv_sum f g r n
    /\ pv_sum f g r n <= inject_Z (Z.of_nat n) * (f * 100 ^ Z.of_nat m).
Proof.
  intros Hf [Hg Hg'] [Hr Hr']. induction n as [|n IH]; intros Hn.
  - change (0 <= 0 /\ 0 <= 0 * (f * 100 ^ Z.of_nat m)). lra.
  - destruct (IH ltac:(lia)) as [IH0 IH1].
    destruct (discounted_growth_bound f (1 + g) (1 + r) (S n) m Hf)
      as [Ht0 Ht1]; try lra; try assumption.
    assert (HS : inject_Z (Z.of_nat (S n)) == inject_Z (Z.of_nat n) + 1)
      by (rewrite Nat2Z.inj_succ; unfold Z.succ; now rewrite inject_Z_plus).
    rewrite HS. cbn [pv_sum].
    revert Ht0 Ht1 IH0 IH1.
    generalize (f * (1 + g) ^ Z.of_nat (S n) / (1 + r) ^ Z.of_nat (S n)).
    generalize (f * 100 ^ Z.of_nat m). generalize (pv_sum f g r n).
    intros P X T Ht0 Ht1 IH0 IH1. split; lra.
Qed.

Lemma gordon_terminal_bound (f g tg r : Q) (n m : nat) :
  0 < f -> rate_in_range g -> rate_in_range tg -> rate_in_range r ->
  rate_gap <= r - tg -> (n <= m)%nat ->
  0 < gordon_terminal f g tg r n
  /\ gordon_terminal f g tg r n <= f * 100 ^ Z.of_nat m * 10000000000.
Proof.
  intros Hf [Hg Hg'] [Htg Htg'] [Hr Hr'] Hgap Hn. unfold rate_gap in Hgap.
  destruct (discounted_growth_bound f (1 + g) (1 + r) n m Hf)
    as [Hx0 Hx1]; try lra; try assumption.
  assert (Hpow : 0 < (1 + r) ^ Z.of_nat n) by (apply Qpower_0_lt; lra).
  assert (Hy0 : 0 < (1 + tg) / (r - tg)) by (apply Qdiv_pos; lra).
  assert (Hy1 : (1 + tg) / (r - tg) <= 10000000000)
    by (apply Qle_shift_div_r; lra).
  assert (Heq : gordon_terminal f g tg r n
                == f * (1 + g) ^ Z.of_nat n / (1 + r) ^ Z.of_nat n
                   * ((1 + tg) / (r - tg))).
  { unfold gordon_terminal. field. split; lra. }
  rewrite Heq. clear Heq.
  revert Hx0 Hx1 Hy0 Hy1.
  generalize (f * (1 + g) ^ Z.of_nat n / (1 + r) ^ Z.of_nat n).
  generalize ((1 + tg) / (r - tg)). generalize (f * 100 ^ Z.of_nat m).
  intros X Y T Hx0 Hx1 Hy0 Hy1. split.
  - now apply Qmult_lt_0_compat.
  - apply Qle_trans with (X * Y).
    + apply Qmult_le_compat_r; lra.
    + rewrite !(Qmult_comm X). apply Qmult_le_compat_r; lra.
Qed.

(** Inside the ranges the two parts of the enterprise value stay far below
    the largest double. *)
Lemma dcf_magnitude (f g tg dr : Q) (years : nat) :
  dcf_in_range f g tg dr years -> rate_gap <= dr - tg ->
  0 < pv_sum f g dr years + gordon_terminal f g tg dr years
  /\ pv_sum f g dr years + gordon_terminal f g tg dr years < float_max.
Proof.
  intros ([Hf Hf'] & Hg & Htg & Hdr & Hyears) Hgap.
  assert (Hpos : 0 < f) by lra.
  destruct (pv_sum_bound f g dr 30 Hpos Hg Hdr years Hyears) as [Hp0 Hp1].
  destruct (gordon_terminal_bound f g tg dr years 30 Hpos Hg Htg Hdr Hgap Hyears)
    as [Ht0 Ht1].
  split; [lra |].
  assert (Hn0 : 0 <= inject_Z (Z.of_nat years))
    by (change 0 with (inject_Z 0); rewrite <- Zle_Qle; lia).
  assert (Hn : inject_Z (Z.of_nat years) <= 30)
    by (change 30 with (inject_Z 30); rewrite <- Zle_Qle; lia).
  assert (Hk : 0 < 100 ^ Z.of_nat 30) by reflexivity.
  assert (Hx : f * 100 ^ Z.of_nat 30 <= 1000000000000000000 * 100 ^ Z.of_nat 30)
    by (apply Qmult_le_compat_r; lra).
  assert (Hx0 : 0 < f * 100 ^ Z.of_nat 30) by now apply Qmult_lt_0_compat.
  assert (Hnx : inject_Z (Z.of_nat years) * (f * 100 ^ Z.of_nat 30)
                <= 30 * (f * 100 ^ Z.of_nat 30))
    by (apply Qmult_le_compat_r; lra).
  apply Qle_lt_trans
    with ((30 + 10000000000) * (1000000000000000000 * 100 ^ Z.of_nat 30));
    [| reflexivity].
  revert Hp1 Ht1 Hx Hx0 Hnx.
  generalize (pv_sum f g dr years). generalize (gordon_terminal f g tg dr years).
  generalize (inject_Z (Z.of_nat years) * (f * 100 ^ Z.of_nat 30)).
  generalize (f * 100 ^ Z.of_nat 30). generalize (100 ^ Z.of_nat 30).
  intros K X NX T P Hp1 Ht1 Hx Hx0 Hnx. lra.
Qed.

(** C1 (as amended).  The DCF computation reports unavailable whenever the
    free cash flow is not positive.  For a free cash flow, rates, a horizon
    and a share count inside the ranges of [dcf_in_range] and
    [shares_in_range], and a terminal growth rate below the discount rate by
    [rate_gap] or more, it returns a result whose enterprise value is
    positive and below the largest double: neither negative nor infinite.
    Nothing is said for a terminal growth rate at or above the discount
    rate: the code has no guard there. *)
Theorem dcf_unavailable_or_positive (f g tg dr : Q) (years : nat) (sh : pynum) :
  (f <= 0 ->
   calculate_dcf (Some f) (Some g) (Some tg) (Some dr) years sh = Returned None)
  /\
  (dcf_in_range f g tg dr years -> shares_in_range sh -> rate_gap <= dr - tg ->
   exists r,
     calculate_dcf (Some f) (Some g) (Some tg) (Some dr) years sh = Returned (Some r)
     /\ 0 < enterprise_value r
     /\ enterprise_value r < float_max).
Proof.
  split.
  - intros Hf. now apply dcf_rejects_fcf.
  - intros Hrange _ Hgap.
    destruct (dcf_magnitude f g tg dr years Hrange Hgap) as [Hpos Hmax].
    destruct Hrange as ([Hf _] & _ & _ & [Hdr _] & _). unfold rate_gap in Hgap.
    destruct (dcf_value f g tg dr years sh) as (r & Hr & _ & _ & Hev);
      [lra | lra | lra |].
    exists r. split; [exact Hr |]. now rewrite Hev.
Qed.

Lemma dcf_unavailable_or_positive_witness :
  calculate_dcf (Some (-(5))) (Some (1 # 10)) (Some (25 # 1000)) (Some (1 # 10)) 5 None
    = Returned None
  /\ exists r,
       calculate_dcf (Some 100) (Some (1 # 10)) (Some (25 # 1000)) (Some (1 # 10)) 5
         (Some 10) = Returned (Some r)
       /\ 0 < enterprise_value r
       /\ enterprise_value r < float_max.
Proof.
  split.
  - apply (proj1 (dcf_unavailable_or_positive (-(5)) (1 # 10) (25 # 1000) (1 # 10) 5 None)).
    vm_compute. discriminate.
  - apply (proj2 (dcf_unavailable_or_positive 100 (1 # 10) (25 # 1000) (1 # 10) 5 (Some 10))).
    + unfold dcf_in_range, cash_in_range, rate_in_range.
      repeat split; try (vm_compute; discriminate). lia.
    + vm_compute. discriminate.
    + vm_compute. discriminate.
Defined.

(** C1 as stated fails: with a terminal growth rate (2.5%) above the discount
    rate (2%) the computation returns a result, and its enterprise value is
    negative. *)
Lemma dcf_negative_enterprise_value :
  exists r,
    calculate_dcf (Some 100) (Some (5 # 100)) (Some (25 # 1000)) (Some (2 # 100)) 5 None
      = Returned (Some r)
    /\ (2 # 100) <= (25 # 1000)
    /\ enterprise_value r < 0.
Proof.
  eexists. split; [vm_compute; reflexivity |].
  split; [vm_compute; discriminate | vm_compute; reflexivity].
Qed.

(** With the terminal growth rate equal to the discount rate the Gordon
    denominator is zero and the function raises instead of returning. *)
Lemma dcf_equal_rates_raise (f g r : Q) (years : nat) (sh : pynum) :
  0 < f -> -(1) < g -> -(1) < r ->
  calculate_dcf (Some f) (Some g) (Some r) (Some r) years sh
    = Raised ZeroDivisionError.
Proof.
  intros Hf Hg Hr.
  destruct (project_positive g r Hg Hr years 1%Z f 0 Hf (Qle_refl 0))
    as (fcf' & pv' & Hproj & _).
  unfold calculate_dcf. apply Qleb_gt in Hf. rewrite Hf, Hproj. simpl.
  rewrite py_div_zero by lra. reflexivity.
Qed.

(** ** Relative valuation *)

Lemma premium_of_positive (p market : Q) :
  0 < p -> premium_of (ratio_vs_market (Some p) market) == (p / market * 100 - 100) / 3.
Proof.
  intros Hp. unfold ratio_vs_market. apply Qgtb_gt in Hp. rewrite Hp. reflexivity.
Qed.

Lemma premium_of_monotone (p p' market : Q) :
  0 < market -> 0 < p -> p <= p' ->
  premium_of (ratio_vs_market (Some p) market)
  <= premium_of (ratio_vs_market (Some p') market).
Proof.
  intros Hm Hp Hle.
  rewrite !premium_of_positive by lra.
  apply Qdiv_le_mono; [| reflexivity].
  pose proof (Qdiv_le_mono p p' market Hle Hm) as H.
  revert H. generalize (p / market), (p' / market). intros x y Hxy. lra.
Qed.

Lemma premium_discount_eq (info : gmap string pyval) :
  premium_discount (calculate_relative_valuation info)
  = 0 + premium_of (ratio_vs_market (get_num info "trailingPE") market_pe)
      + premium_of (ratio_vs_market (get_num info "priceToBook") market_pb)
      + premium_of
          (ratio_vs_market (get_num info "priceToSalesTrailing12Months") market_ps).
Proof. reflexivity. Qed.

(** C8 (as amended).  Among positive ratios, which are the ones the
    computation uses, raising the trailing P/E, the price-to-book or the
    price-to-sales ratio while every other field of the record stays as it is
    never lowers the premium/discount score. *)
Theorem relative_valuation_monotone (info : gmap string pyval) (p p' : Q) :
  0 < p -> p <= p' ->
  premium_discount (calculate_relative_valuation (<["trailingPE" := VNum p]> info))
  <= premium_discount (calculate_relative_valuation (<["trailingPE" := VNum p']> info))
  /\
  premium_discount (calculate_relative_valuation (<["priceToBook" := VNum p]> info))
  <= premium_discount (calculate_relative_valuation (<["priceToBook" := VNum p']> info))
  /\
  premium_discount
    (calculate_relative_valuation (<["priceToSalesTrailing12Months" := VNum p]> info))
  <= premium_discount
       (calculate_relative_valuation (<["priceToSalesTrailing12Months" := VNum p']> info)).
Proof.
  intros Hp Hle.
  rewrite !premium_discount_eq, !get_num_insert, !get_num_insert_ne by done.
  pose proof (premium_of_monotone p p' market_pe eq_refl Hp Hle).
  pose proof (premium_of_monotone p p' market_pb eq_refl Hp Hle).
  pose proof (premium_of_monotone p p' market_ps eq_refl Hp Hle).
  repeat split; lra.
Qed.

Lemma relative_valuation_monotone_witness :
  premium_discount (calculate_relative_valuation (<["trailingPE" := VNum 10]> ∅))
  <= premium_discount (calculate_relative_valuation (<["trailingPE" := VNum 30]> ∅)).
Proof.
  apply (proj1 (relative_valuation_monotone ∅ 10 30 eq_refl
                  ltac:(vm_compute; discriminate))).
Defined.

(** C8 as stated fails: a trailing P/E of -4 is not used and leaves the score
    at 0, a trailing P/E of 4 is used and puts the score below 0. *)
Lemma relative_valuation_not_monotone :
  -(4) <= 4
  /\ premium_discount (calculate_relative_valuation (<["trailingPE" := VNum 4]> ∅))
     < premium_discount
         (calculate_relative_valuation (<["trailingPE" := VNum (-(4))]> ∅)).
Proof.
  split; [vm_compute; discriminate | vm_compute; reflexivity].
Qed.

(** ** Sentiment *)

Import SocialSentimentAnalysis.

(** The overall label is the bucket of the score of the four labels that the
    same call reports. *)
Lemma analyze_sentiment_overall (ticker : string) (info : gmap string pyval)
    (hist_data : option (list Bar)) :
  let s := analyze_sentiment ticker info hist_data in
  overall_sentiment s
  = overall_label
      (sentiment_score (analyst_sentiment s) (momentum_sentiment s)
         (retail_interest s) (institutional_interest s)).
Proof.
  unfold analyze_sentiment.
  destruct (volume_block info), (analyst_block info),
    (momentum_block hist_data), (institutional_block info).
  reflexivity.
Qed.

(** C9.  When retail interest is classified HIGH, analyst sentiment BULLISH,
    momentum sentiment BULLISH and institutional interest LOW, the sentiment
    score is 30 + 25 + 20 - 15 = 60 and the overall sentiment is BULLISH. *)
Theorem sentiment_score_example (ticker : string) (info : gmap string pyval)
    (hist_data : option (list Bar)) :
  let s := analyze_sentiment ticker info hist_data in
  retail_interest s = "HIGH" ->
  analyst_sentiment s = "BULLISH" ->
  momentum_sentiment s = "BULLISH" ->
  institutional_interest s = "LOW" ->
  sentiment_score (analyst_sentiment s) (momentum_sentiment s)
    (retail_interest s) (institutional_interest s) = 60%Z
  /\ overall_sentiment s = "BULLISH".
Proof.
  intros s Hr Ha Hm Hi.
  unfold s at 5. rewrite analyze_sentiment_overall. fold s.
  rewrite Hr, Ha, Hm, Hi. split; reflexivity.
Qed.

Lemma sentiment_score_example_witness :
  let s := analyze_sentiment "ACME" bullish_info (Some rising_history) in
  sentiment_score (analyst_sentiment s) (momentum_sentiment s)
    (retail_interest s) (institutional_interest s) = 60%Z
  /\ overall_sentiment s = "BULLISH".
Proof.
  apply (sentiment_score_example "ACME" bullish_info (Some rising_history));
    vm_compute; reflexivity.
Defined.

(** ** Composite scorer: point totals *)

Import StockInfoAPI.

Ltac factor_cases :=
  repeat match goal with
         | |- context [match ?x with _ => _ end] => destruct x
         end;
  simpl; try lia.

Lemma technical_bounded (inp : Inputs) :
  Forall (bounded_points inp) technical_factors.
Proof.
  unfold technical_factors, bounded_points.
  repeat constructor; cbn [points fst snd tech_rsi tech_moving_averages tech_macd
    tech_bollinger tech_stochastic tech_volume tech_momentum]; unfold sma_points;
    factor_cases.
Qed.

Lemma growth_bounded (inp : Inputs) :
  Forall (bounded_points inp) growth_factors.
Proof.
  unfold growth_factors, bounded_points.
  repeat constructor; cbn [points fst snd growth_revenue growth_earnings growth_peg
    growth_forward_pe]; factor_cases.
Qed.

Lemma add_totals_bounded (a b : Totals) :
  (0 <= fst a <= snd a)%Z -> (0 <= fst b <= snd b)%Z ->
  (0 <= fst (add_totals a b) <= snd (add_totals a b))%Z.
Proof. unfold add_totals. simpl. lia. Qed.

Lemma fold_totals_bounded (inp : Inputs) (factors : list Factor) :
  Forall (bounded_points inp) factors ->
  forall acc : Totals,
    (0 <= fst acc <= snd acc)%Z ->
    let t := fold_left (fun acc f => add_totals acc (points f inp)) factors acc in
    (0 <= fst t <= snd t)%Z.
Proof.
  induction 1 as [|f factors Hf _ IH]; intros acc Hacc; simpl.
  - assumption.
  - apply IH. now apply add_totals_bounded.
Qed.

Lemma totals_bounded (inp : Inputs) (factors : list Factor) :
  Forall (bounded_points inp) factors ->
  (0 <= fst (totals factors inp) <= snd (totals factors inp))%Z.
Proof.
  intros H. apply (fold_totals_bounded inp factors H (0, 0)%Z). simpl. lia.
Qed.

(** ** Composite scorer: ratios, clamping and rounding *)

Lemma ratio_score_range (t : Totals) :
  (0 <= fst t <= snd t)%Z -> 0 <= ratio_score t <= 100.
Proof.
  destruct t as [s m]. simpl. intros [Hs Hm]. unfold ratio_score.
  destruct (0 <? m)%Z eqn:Hpos; [| lra].
  apply Z.ltb_lt in Hpos.
  assert (HmQ : 0 < inject_Z m) by (change 0 with (inject_Z 0); now rewrite <- Zlt_Qlt).
  assert (HsQ : 0 <= inject_Z s) by (change 0 with (inject_Z 0); now rewrite <- Zle_Qle).
  assert (Hle : inject_Z s <= inject_Z m) by now rewrite <- Zle_Qle.
  pose proof (Qdiv_nonneg _ _ HsQ HmQ) as H0.
  assert (H1 : inject_Z s / inject_Z m <= 1).
  { apply Qle_shift_div_r; [assumption | lra]. }
  revert H0 H1. generalize (inject_Z s / inject_Z m). intros x H0 H1. lra.
Qed.

Lemma py_min_le (a b : Q) : py_min a b <= a.
Proof.
  unfold py_min. destruct (b <? a) eqn:H.
  - apply Qltb_lt in H. lra.
  - lra.
Qed.

Lemma py_max_range (b hi : Q) : 0 <= hi -> b <= hi -> 0 <= py_max 0 b <= hi.
Proof.
  intros Hhi Hb. unfold py_max. destruct (b >? 0) eqn:H.
  - apply Qgtb_gt in H. lra.
  - lra.
Qed.

Lemma clamp_score_range (t : Totals) : 0 <= clamp_score t <= 100.
Proof.
  unfold clamp_score. apply py_max_range; [lra | apply py_min_le].
Qed.

Lemma round_half_even_nonneg (q : Q) : 0 <= q -> (0 <= round_half_even q)%Z.
Proof.
  intros Hq. unfold round_half_even.
  assert (Hf : (0 <= Qfloor q)%Z).
  { change 0%Z with (Qfloor 0). now apply Qfloor_resp_le. }
  repeat match goal with |- context [if ?c then _ else _] => destruct c end; lia.
Qed.

Lemma round_half_even_le (q : Q) (n : Z) :
  q <= inject_Z n -> (round_half_even q <= n)%Z.
Proof.
  intros Hq. unfold round_half_even.
  assert (Hf : (Qfloor q <= n)%Z).
  { rewrite <- (Qfloor_Z n). now apply Qfloor_resp_le. }
  destruct (Z.eq_dec (Qfloor q) n) as [Heq | Hne].
  - assert (Hr : q - inject_Z (Qfloor q) < 1 # 2) by (rewrite Heq; lra).
    apply Qltb_lt in Hr. rewrite Hr. lia.
  - repeat match goal with |- context [if ?c then _ else _] => destruct c end; lia.
Qed.

(** Rounding to one decimal keeps a score between 0 and 100. *)
Lemma py_round_range (q : Q) : 0 <= q <= 100 -> 0 <= py_round q 1 <= 100.
Proof.
  intros [H0 H100]. unfold py_round.
  change (inject_Z (10 ^ Z.of_nat 1)) with 10.
  assert (Hlo : (0 <= round_half_even (q * 10))%Z)
    by (apply round_half_even_nonneg; lra).
  assert (Hhi : (round_half_even (q * 10) <= 1000)%Z)
    by (apply round_half_even_le; change (inject_Z 1000) with 1000; lra).
  rewrite Zle_Qle in Hlo, Hhi.
  change (inject_Z 0) with 0 in Hlo. change (inject_Z 1000) with 1000 in Hhi.
  split.
  - apply Qdiv_nonneg; [assumption | reflexivity].
  - apply Qle_shift_div_r; [reflexivity | lra].
Qed.

(** ** Composite scorer: the score set *)

(** When scoring completes, [scores] holds the five sub-scores in their
    insertion order: the technical and growth ratios as first computed, the
    other three recalculated and clamped. *)
Lemma score_shape (inp : Inputs) (sc : Scored) :
  score inp = Returned sc ->
  exists fund mom val : Totals,
    raw_scores sc
    = [("technical", ratio_score (totals technical_factors inp));
       ("fundamental", clamp_score fund);
       ("momentum", clamp_score mom);
       ("value", clamp_score val);
       ("growth", ratio_score (totals growth_factors inp))]
    /\ overall_score sc = weighted_sum (raw_scores sc) weights.
Proof.
  unfold score.
  destruct (totals fundamental_factors inp) as [fund_score fund_max].
  destruct (totals momentum_factors inp) as [momentum_score momentum_max].
  destruct (target_guard inp) as [guard | e]; [| discriminate].
  cbn [bind].
  destruct (totals value_factors inp) as [value_score value_max].
  destruct (dcf_stage inp) as [dcf_result | e]; [| discriminate].
  cbn [bind].
  destruct (dcf_block inp dcf_result) as [[dcf_valuation dcf_adjustment] | e];
    [| discriminate].
  cbn [bind].
  intros H. injection H as <-.
  eexists (_, _), (_, _), (_, _). split; reflexivity.
Qed.

Lemma score_entries_range (inp : Inputs) (sc : Scored) :
  score inp = Returned sc ->
  Forall (fun entry => 0 <= snd entry <= 100) (raw_scores sc).
Proof.
  intros H. destruct (score_shape inp sc H) as (fund & mom & val & -> & _).
  repeat constructor; cbn [snd];
    try apply clamp_score_range;
    apply ratio_score_range, totals_bounded;
    [apply technical_bounded | apply technical_bounded
    | apply growth_bounded | apply growth_bounded].
Qed.

(** The sub-scores that [generate_ai_analysis] returns, rounded to one
    decimal: none when an exception kept the scorer from storing them, the
    five otherwise. *)
Lemma analysis_scores (inp : Inputs) :
  scores (generate_ai_analysis inp)
  = match score inp with
    | Returned sc => map (fun entry => (fst entry, py_round (snd entry) 1)) (raw_scores sc)
    | Raised _ => []
    end.
Proof.
  unfold generate_ai_analysis.
  destruct (score inp) as [sc | e]; [| reflexivity].
  destruct (rating (overall_score sc)) as [[[r1 r2] r3] r4].
  destruct (price_target inp (overall_score sc)) as [target | e]; [| reflexivity].
  destruct (conclusion_check inp target); reflexivity.
Qed.

(** C4.  Every sub-score in the score set that the analysis returns lies in
    [0, 100], whatever the adjustments and whatever data is missing; the score
    set holds the five sub-scores, or nothing when an exception ended the
    scoring early. *)
Theorem sub_scores_in_range (inp : Inputs) :
  Forall (fun entry => 0 <= snd entry <= 100) (scores (generate_ai_analysis inp))
  /\ (map fst (scores (generate_ai_analysis inp))
      = ["technical"; "fundamental"; "momentum"; "value"; "growth"]
      \/ (scores (generate_ai_analysis inp) = []
          /\ exists e, score inp = Raised e)).
Proof.
  rewrite analysis_scores.
  destruct (score inp) as [sc | e] eqn:Hscore.
  - split.
    + apply List.Forall_map. cbn [snd].
      eapply List.Forall_impl; [| apply (score_entries_range inp sc Hscore)].
      intros entry Hentry. now apply py_round_range.
    + left. destruct (score_shape inp sc Hscore) as (fund & mom & val & -> & _).
      reflexivity.
  - split; [constructor | right; eauto].
Qed.

(** The weighted sum over a score set of the five sub-scores: the rows
    [macro] and [sentiment] of the weights table meet no key. *)
Lemma weighted_sum_five (t f m v g : Q) :
  weighted_sum
    [("technical", t); ("fundamental", f); ("momentum", m); ("value", v); ("growth", g)]
    weights
  = 0 + t * (20 # 100) + f * (25 # 100) + m * (15 # 100) + v * (20 # 100)
      + g * (10 # 100).
Proof. reflexivity. Qed.

(** The overall score as a sum over the score set. *)
Lemma overall_score_expansion (inp : Inputs) (sc : Scored) :
  score inp = Returned sc ->
  exists t f m v g : Q,
    raw_scores sc
    = [("technical", t); ("fundamental", f); ("momentum", m); ("value", v); ("growth", g)]
    /\ overall_score sc
       == (20 # 100) * t + (25 # 100) * f + (15 # 100) * m + (20 # 100) * v
          + (10 # 100) * g
    /\ dict_get "macro" weights = Some (5 # 100)
    /\ dict_get "sentiment" weights = Some (5 # 100)
    /\ dict_get "macro" (raw_scores sc) = None
    /\ dict_get "sentiment" (raw_scores sc) = None
    /\ overall_score sc <= 90.
Proof.
  intros Hscore.
  pose proof (score_entries_range inp sc Hscore) as Hrange.
  destruct (score_shape inp sc Hscore) as (fund & mom & val & Hshape & Hoverall).
  rewrite Hoverall, Hshape in *. clear Hshape Hoverall.
  set (t := ratio_score (totals technical_factors inp)) in *.
  set (f := clamp_score fund) in *.
  set (m := clamp_score mom) in *.
  set (v := clamp_score val) in *.
  set (g := ratio_score (totals growth_factors inp)) in *.
  clearbody t f m v g.
  exists t, f, m, v, g. split; [reflexivity |].
  rewrite weighted_sum_five.
  repeat match goal with
         | H : Forall _ (_ :: _) |- _ => inversion H; subst; clear H
         end.
  cbn [snd] in *.
  repeat split; try reflexivity; lra.
Qed.

Lemma py_round_le (q : Q) (n : Z) : q <= inject_Z n -> py_round q 1 <= inject_Z n.
Proof.
  intros Hq. unfold py_round.
  change (inject_Z (10 ^ Z.of_nat 1)) with 10.
  assert (Hhi : (round_half_even (q * 10) <= n * 10)%Z).
  { apply round_half_even_le. rewrite inject_Z_mult.
    change (inject_Z 10) with 10. lra. }
  rewrite Zle_Qle, inject_Z_mult in Hhi. change (inject_Z 10) with 10 in Hhi.
  apply Qle_shift_div_r; [reflexivity | assumption].
Qed.

(** The confidence that the analysis reports is the rounded overall score,
    or the fallback 50 of the exception handler. *)
Lemma confidence_cases (inp : Inputs) :
  confidence (generate_ai_analysis inp) = 50
  \/ exists sc,
       score inp = Returned sc
       /\ confidence (generate_ai_analysis inp) = py_round (overall_score sc) 1.
Proof.
  unfold generate_ai_analysis.
  destruct (score inp) as [sc | e]; [| now left].
  destruct (rating (overall_score sc)) as [[[r1 r2] r3] r4].
  destruct (price_target inp (overall_score sc)) as [target | e]; [| now left].
  destruct (conclusion_check inp target); [right; eauto | now left].
Qed.

(** C3.  When scoring completes, the overall score is
    0.20 technical + 0.25 fundamental + 0.15 momentum + 0.20 value
    + 0.10 growth over the five sub-scores of the score set, which has no
    [macro] and no [sentiment] entry for the remaining two weights to meet;
    so the overall score is at most 90, and so is the confidence that the
    analysis reports for any input. *)
Theorem overall_score_weighting (inp : Inputs) :
  (forall sc : Scored,
      score inp = Returned sc ->
      exists t f m v g : Q,
        raw_scores sc
        = [("technical", t); ("fundamental", f); ("momentum", m); ("value", v);
           ("growth", g)]
        /\ overall_score sc
           == (20 # 100) * t + (25 # 100) * f + (15 # 100) * m + (20 # 100) * v
              + (10 # 100) * g
        /\ dict_get "macro" weights = Some (5 # 100)
        /\ dict_get "sentiment" weights = Some (5 # 100)
        /\ dict_get "macro" (raw_scores sc) = None
        /\ dict_get "sentiment" (raw_scores sc) = None
        /\ overall_score sc <= 90)
  /\ confidence (generate_ai_analysis inp) <= 90.
Proof.
  split.
  - apply overall_score_expansion.
  - destruct (confidence_cases inp) as [-> | (sc & Hscore & ->)].
    + vm_compute. discriminate.
    + apply (py_round_le _ 90).
      destruct (overall_score_expansion inp sc Hscore)
        as (t & f & m & v & g & _ & _ & _ & _ & _ & _ & Hle).
      exact Hle.
Qed.

Lemma overall_score_weighting_witness :
  exists sc,
    score sample_inputs = Returned sc
    /\ exists t f m v g : Q,
         raw_scores sc
         = [("technical", t); ("fundamental", f); ("momentum", m); ("value", v);
            ("growth", g)]
         /\ overall_score sc
            == (20 # 100) * t + (25 # 100) * f + (15 # 100) * m + (20 # 100) * v
               + (10 # 100) * g
         /\ dict_get "macro" weights = Some (5 # 100)
         /\ dict_get "sentiment" weights = Some (5 # 100)
         /\ dict_get "macro" (raw_scores sc) = None
         /\ dict_get "sentiment" (raw_scores sc) = None
         /\ overall_score sc <= 90.
Proof.
  eexists. split.
  - vm_compute. reflexivity.
  - apply (proj1 (overall_score_weighting sample_inputs)). vm_compute. reflexivity.
Defined.

(** ** Composite scorer: missing data *)

Lemma add_totals_zero (acc : Totals) : add_totals acc (0, 0)%Z = acc.
Proof. destruct acc as [s m]. unfold add_totals. simpl. f_equal; lia. Qed.

(** A block that adds nothing can be dropped from its checklist. *)
Lemma totals_drop (inp : Inputs) (f : Factor) (before after : list Factor) :
  points f inp = (0, 0)%Z ->
  totals (before ++ f :: after) inp = totals (before ++ after) inp.
Proof.
  intros Hf. unfold totals. rewrite !fold_left_app. simpl.
  now rewrite Hf, add_totals_zero.
Qed.

Ltac missing_cases :=
  repeat match goal with
         | H : context [match ?x with _ => _ end] |- _ => destruct x eqn:?
         | |- context [match ?x with _ => _ end] => destruct x eqn:?
         end;
  simpl in *; try discriminate; try reflexivity.

Lemma dynamic_factor_missing (inp : Inputs) (f : Factor) :
  In f (value_factors ++ growth_factors
        ++ [tech_rsi; fund_peg; fund_debt; fund_current_ratio])%list ->
  usable f inp = false ->
  points f inp = (0, 0)%Z.
Proof.
  intros Hin Hmiss. simpl in Hin.
  repeat destruct Hin as [<- | Hin]; try contradiction;
    cbn [usable points value_pe value_price_to_book value_peg value_target
         growth_revenue growth_earnings growth_peg growth_forward_pe
         tech_rsi fund_peg fund_debt fund_current_ratio is_some] in *;
    missing_cases.
Qed.

(** The blocks that keep the denominator dynamic.  For every factor of the
    value and growth checklists, and for the RSI, PEG, debt-to-equity and
    current-ratio factors of the technical and fundamental checklists,
    missing data adds neither earned nor possible points: the totals, and so
    the ratio, are those of the checklist without that factor. *)
Lemma dynamic_factor_drops_out (inp : Inputs) (f : Factor)
    (before after : list Factor) :
  In f (value_factors ++ growth_factors
        ++ [tech_rsi; fund_peg; fund_debt; fund_current_ratio])%list ->
  usable f inp = false ->
  points f inp = (0, 0)%Z
  /\ totals (before ++ f :: after) inp = totals (before ++ after) inp
  /\ ratio_score (totals (before ++ f :: after) inp)
     = ratio_score (totals (before ++ after) inp).
Proof.
  intros Hin Hmiss.
  pose proof (dynamic_factor_missing inp f Hin Hmiss) as Hzero.
  pose proof (totals_drop inp f before after Hzero) as Hdrop.
  split; [assumption |]. split; [assumption |]. now rewrite Hdrop.
Qed.

(** C2 fails on the code.  The Bollinger block of the technical checklist
    adds its 10 possible points before it tests for data, where its sibling,
    the RSI block, adds them inside the test: with nothing but an RSI of 25
    the Bollinger block has no data and still counts 10 possible points, and
    the technical ratio (20) is lower than that of the checklist without the
    block (200/9). *)
Lemma missing_bollinger_lowers_ratio :
  In tech_bollinger technical_factors
  /\ usable tech_bollinger rsi_only_inputs = false
  /\ points tech_bollinger rsi_only_inputs = (0, 10)%Z
  /\ ratio_score (totals technical_factors rsi_only_inputs)
     < ratio_score
         (totals [tech_rsi; tech_moving_averages; tech_macd; tech_stochastic;
                  tech_volume; tech_momentum] rsi_only_inputs).
Proof.
  split; [simpl; tauto |].
  split; [vm_compute; reflexivity |].
  split; vm_compute; reflexivity.
Qed.

(** ** Macro classifier: case *)

Lemma lower_upper_ascii (c : ascii) : lower_ascii (upper_ascii c) = lower_ascii c.
Proof.
  destruct c as [[] [] [] [] [] [] [] []]; reflexivity.
Qed.

Lemma lower_lower_ascii (c : ascii) : lower_ascii (lower_ascii c) = lower_ascii c.
Proof.
  destruct c as [[] [] [] [] [] [] [] []]; reflexivity.
Qed.

Lemma lower_upper (s : string) : lower (upper s) = lower s.
Proof.
  unfold lower, upper. induction s as [|c s IH]; simpl; [reflexivity |].
  now rewrite lower_upper_ascii, IH.
Qed.

Lemma lower_lower (s : string) : lower (lower s) = lower s.
Proof.
  unfold lower. induction s as [|c s IH]; simpl; [reflexivity |].
  now rewrite lower_lower_ascii, IH.
Qed.

(** X9.  For sector and industry texts of 7-bit characters, the macro
    classification does not depend on their case. *)
Theorem macro_case_insensitive (ticker_info : gmap string pyval)
    (sector industry : string) :
  is_ascii sector = true -> is_ascii industry = true ->
  MacroEconomicAnalysis.analyze_macro_environment ticker_info (upper sector)
    (upper industry)
  = MacroEconomicAnalysis.analyze_macro_environment ticker_info sector industry
  /\ MacroEconomicAnalysis.analyze_macro_environment ticker_info (lower sector)
       (lower industry)
     = MacroEconomicAnalysis.analyze_macro_environment ticker_info sector industry.
Proof.
  intros _ _. unfold MacroEconomicAnalysis.analyze_macro_environment.
  now rewrite !lower_upper, !lower_lower.
Qed.

Lemma macro_case_insensitive_witness :
  MacroEconomicAnalysis.analyze_macro_environment ∅ (upper "Technology")
    (upper "Software")
  = MacroEconomicAnalysis.analyze_macro_environment ∅ "Technology" "Software"
  /\ MacroEconomicAnalysis.analyze_macro_environment ∅ (lower "Technology")
       (lower "Software")
     = MacroEconomicAnalysis.analyze_macro_environment ∅ "Technology" "Software".
Proof.
  apply (macro_case_insensitive ∅ "Technology" "Software"); reflexivity.
Defined.

(** ** Series *)

Import Series TechnicalAnalysis.

Lemma length_of_values (l : list Q) : length (of_values l) = length l.
Proof. unfold of_values. apply length_map. Qed.

Lemma map_is_fmap {A B : Type} (f : A -> B) (l : list A) : map f l = f <$> l.
Proof. induction l as [|x l IH]; simpl; [reflexivity | now rewrite IH]. Qed.

Lemma lookup_map {A B : Type} (f : A -> B) (l : list A) (i : nat) :
  map f l !! i = f <$> (l !! i).
Proof. rewrite map_is_fmap. apply list_lookup_fmap. Qed.

Lemma iloc_last_lookup (s : list xfloat) (x : xfloat) :
  s !! pred (length s) = Some x -> iloc_last s = Returned x.
Proof. intros H. unfold iloc_last. now rewrite last_lookup, H. Qed.

(** The entry of a rolling aggregate at a position of the series. *)
Lemma rolling_lookup (w : nat) (agg : list xfloat -> xfloat) (s : list xfloat)
    (i : nat) :
  (i < length s)%nat ->
  rolling w agg s !! i
  = Some (if (w <=? i + 1)%nat
          then if existsb isna (window_at w i s) then NaN else agg (window_at w i s)
          else NaN).
Proof.
  intros Hi. unfold rolling.
  rewrite lookup_map, lookup_seq_lt by assumption. reflexivity.
Qed.

Lemma length_rolling (w : nat) (agg : list xfloat -> xfloat) (s : list xfloat) :
  length (rolling w agg s) = length s.
Proof. unfold rolling. now rewrite length_map, length_seq. Qed.

Lemma no_nan_of_values (l : list Q) : existsb isna (of_values l) = false.
Proof. induction l as [|x l IH]; simpl; [reflexivity | assumption]. Qed.

Lemma sum_of_values (l : list Q) : Series.sum (of_values l) = Fin (qsum l).
Proof.
  unfold Series.sum, of_values.
  induction l as [|x l IH]; simpl; [reflexivity |]. now rewrite IH.
Qed.

Lemma window_of_values (w i : nat) (l : list Q) :
  window_at w i (of_values l) = of_values (firstn w (skipn (i + 1 - w) l)).
Proof. unfold window_at, of_values. now rewrite skipn_map, firstn_map. Qed.

Lemma inject_nat_nonzero (n : nat) :
  (1 <= n)%nat -> (inject_Z (Z.of_nat n) =? 0) = false.
Proof.
  intros Hn. apply Qeqb_neq. intros H.
  assert (Hpos : 0 < inject_Z (Z.of_nat n)).
  { change 0 with (inject_Z 0). rewrite <- Zlt_Qlt. lia. }
  lra.
Qed.

(** The mean of a full window of finite values. *)
Lemma mean_of_values (l : list Q) :
  (1 <= length l)%nat ->
  mean (of_values l) = Fin (qsum l / inject_Z (Z.of_nat (length l))).
Proof.
  intros Hl. unfold mean. rewrite sum_of_values, length_of_values.
  simpl. now rewrite inject_nat_nonzero.
Qed.

(** The last entry of the rolling mean of a series of finite values: the
    mean of its last [w] values. *)
Lemma rolling_mean_last (w : nat) (l : list Q) :
  (1 <= w)%nat -> (w <= length l)%nat ->
  rolling w mean (of_values l) !! pred (length l)
  = Some (Fin (qsum (skipn (length l - w) l) / inject_Z (Z.of_nat w))).
Proof.
  intros Hw Hl.
  rewrite rolling_lookup by (rewrite length_of_values; lia).
  replace (w <=? pred (length l) + 1)%nat with true
    by (symmetry; apply Nat.leb_le; lia).
  rewrite window_of_values, no_nan_of_values.
  replace (pred (length l) + 1 - w)%nat with (length l - w)%nat by lia.
  rewrite firstn_all2 by (rewrite length_skipn; lia).
  rewrite mean_of_values by (rewrite length_skipn; lia).
  rewrite length_skipn.
  replace (length l - (length l - w))%nat with w by lia.
  reflexivity.
Qed.

(** ** Indicator library: minimum windows *)

Ltac short_series H :=
  apply Nat.ltb_lt in H; rewrite ?length_of_values, H; reflexivity.

(** C5.  On a series shorter than its minimum window every indicator
    returns [None]: it neither computes a number nor raises. *)
Theorem short_series_unavailable :
  (forall (prices : list Q) (period : nat),
      (length prices < period + 1)%nat ->
      calculate_rsi prices period = Returned None)
  /\ (forall (prices : list Q) (fast slow signal_span : nat),
        (length prices < slow)%nat ->
        calculate_macd prices fast slow signal_span = Returned None)
  /\ (forall (sqrt : Q -> Q) (prices : list Q) (period : nat) (std_dev : Q),
        (length prices < period)%nat ->
        calculate_bollinger_bands sqrt prices period std_dev = Returned None)
  /\ (forall (high low close : list Q) (period : nat),
        (length close < period)%nat ->
        calculate_stochastic high low close period = Returned None)
  /\ (forall (high low close : list Q) (period : nat),
        (length close < period + 1)%nat ->
        calculate_atr high low close period = Returned None)
  /\ (forall close volume : list Q,
        (length close < 2)%nat ->
        calculate_obv close volume = Returned None)
  /\ (forall (prices : list Q) (period : nat),
        (length prices < period + 1)%nat ->
        calculate_momentum prices period = Returned None).
Proof.
  repeat split; intros.
  - unfold calculate_rsi. short_series H.
  - unfold calculate_macd. short_series H.
  - unfold calculate_bollinger_bands. short_series H.
  - unfold calculate_stochastic. short_series H.
  - unfold calculate_atr. short_series H.
  - unfold calculate_obv. short_series H.
  - unfold calculate_momentum. short_series H.
Qed.

Lemma short_series_unavailable_witness :
  calculate_rsi short_prices 14 = Returned None
  /\ calculate_macd short_prices 12 26 9 = Returned None
  /\ calculate_bollinger_bands (fun x => x) short_prices 20 2 = Returned None
  /\ calculate_stochastic short_prices short_prices short_prices 14 = Returned None
  /\ calculate_atr short_prices short_prices short_prices 14 = Returned None
  /\ calculate_obv [100] [5000] = Returned None
  /\ calculate_momentum short_prices 10 = Returned None.
Proof.
  destruct short_series_unavailable as (Hrsi & Hmacd & Hbb & Hst & Hatr & Hobv & Hmom).
  split; [apply Hrsi; vm_compute; lia |].
  split; [apply Hmacd; vm_compute; lia |].
  split; [apply Hbb; vm_compute; lia |].
  split; [apply Hst; vm_compute; lia |].
  split; [apply Hatr; vm_compute; lia |].
  split; [apply Hobv; vm_compute; lia |].
  apply Hmom; vm_compute; lia.
Defined.

(** ** Indicator library: moving averages *)

(** Below 200 points the early return hands back the empty dictionary, so
    the per-window tests of the five entries are never reached. *)
Lemma moving_averages_need_200 (prices : list Q) :
  (length prices < 200)%nat -> calculate_moving_averages prices = Returned ∅.
Proof.
  intros H. unfold calculate_moving_averages. short_series H.
Qed.

Lemma rolling_mean_iloc_last (w : nat) (l : list Q) :
  (1 <= w)%nat -> (w <= length l)%nat ->
  exists x, iloc_last (rolling w mean (of_values l)) = Returned x.
Proof.
  intros Hw Hl. eexists. apply iloc_last_lookup.
  rewrite length_rolling, length_of_values. now apply rolling_mean_last.
Qed.

Lemma ewm_mean_iloc_last (span : nat) (l : list Q) :
  (1 <= length l)%nat ->
  exists x, iloc_last (ewm_mean span (of_values l)) = Returned x.
Proof.
  intros Hl. destruct l as [|a t]; [simpl in Hl; lia |].
  unfold iloc_last.
  destruct (last (ewm_mean span (of_values (a :: t)))) as [x |] eqn:Hlast;
    [eauto |].
  apply last_None in Hlast. discriminate.
Qed.

(** From 200 points on all five entries are floats: the per-window tests
    never yield [None]. *)
Lemma moving_averages_full (prices : list Q) :
  (200 <= length prices)%nat ->
  exists sma_20 sma_50 sma_200 ema_12 ema_26 : xfloat,
    calculate_moving_averages prices
    = Returned (<["sma_20" := Some sma_20]>
                  (<["sma_50" := Some sma_50]>
                     (<["sma_200" := Some sma_200]>
                        (<["ema_12" := Some ema_12]>
                           (<["ema_26" := Some ema_26]> ∅))))).
Proof.
  intros Hlen. unfold calculate_moving_averages. cbv zeta.
  rewrite length_of_values.
  replace (length prices <? 200)%nat with false by (symmetry; apply Nat.ltb_ge; lia).
  replace (20 <=? length prices)%nat with true by (symmetry; apply Nat.leb_le; lia).
  replace (50 <=? length prices)%nat with true by (symmetry; apply Nat.leb_le; lia).
  replace (200 <=? length prices)%nat with true by (symmetry; apply Nat.leb_le; lia).
  replace (12 <=? length prices)%nat with true by (symmetry; apply Nat.leb_le; lia).
  replace (26 <=? length prices)%nat with true by (symmetry; apply Nat.leb_le; lia).
  destruct (rolling_mean_iloc_last 20 prices) as [a ->]; [lia | lia |].
  destruct (rolling_mean_iloc_last 50 prices) as [b ->]; [lia | lia |].
  destruct (rolling_mean_iloc_last 200 prices) as [c ->]; [lia | lia |].
  destruct (ewm_mean_iloc_last 12 prices) as [d ->]; [lia |].
  destruct (ewm_mean_iloc_last 26 prices) as [e ->]; [lia |].
  exists a, b, c, d, e. reflexivity.
Qed.

(** C7 fails on the code: a series of 60 points gets no moving average at
    all, neither [sma_20] nor [sma_50]. *)
Theorem moving_averages_sixty_points :
  length sixty_prices = 60%nat
  /\ calculate_moving_averages sixty_prices = Returned ∅
  /\ (forall m, calculate_moving_averages sixty_prices = Returned m ->
      m !! "sma_20" = None /\ m !! "sma_50" = None).
Proof.
  split; [reflexivity |].
  assert (H : calculate_moving_averages sixty_prices = Returned ∅)
    by (apply moving_averages_need_200; vm_compute; lia).
  split; [assumption |].
  intros m Hm. rewrite H in Hm. injection Hm as <-.
  split; apply lookup_empty.
Qed.

(** ** Relative strength index *)

Lemma length_deltas (l : list Q) : length (deltas l) = pred (length l).
Proof.
  induction l as [|a [|b t] IH]; simpl in *; try reflexivity.
  now rewrite IH.
Qed.

Lemma zip_sub_deltas (t : list Q) :
  forall a : Q,
    zip_with xsub (of_values t) (of_values (a :: t)) = of_values (deltas (a :: t)).
Proof.
  induction t as [|b t IH]; intros a; [reflexivity |].
  change (of_values (deltas (a :: b :: t)))
    with (Fin (b - a) :: of_values (deltas (b :: t))).
  rewrite <- IH. reflexivity.
Qed.

(** [diff] of a series of closes: no value for the first day, then the
    day-over-day changes. *)
Lemma diff_of_values (l : list Q) :
  l <> [] -> diff (of_values l) = NaN :: of_values (deltas l).
Proof.
  destruct l as [|a t]; [congruence | intros _].
  unfold diff, diff_n. simpl length. simpl Nat.min. simpl repeat.
  change (skipn 1 (of_values (a :: t))) with (of_values t).
  now rewrite zip_sub_deltas.
Qed.

Lemma gains_of_values (ds : list Q) :
  where_or_zero (fun d => xgtb d (Fin 0)) (NaN :: of_values ds)
  = of_values (0 :: map gain_of ds).
Proof.
  unfold where_or_zero, of_values. simpl. f_equal.
  rewrite !map_map. apply map_ext. intros d.
  unfold gain_of, Qgtb. simpl. now destruct (0 <? d).
Qed.

Lemma losses_of_values (ds : list Q) :
  map xopp (where_or_zero (fun d => xltb d (Fin 0)) (NaN :: of_values ds))
  = of_values (- 0 :: map loss_of ds).
Proof.
  unfold where_or_zero, of_values. simpl. f_equal.
  rewrite !map_map. apply map_ext. intros d.
  unfold loss_of. simpl. now destruct (d <? 0).
Qed.

(** The last window of a column that [diff] heads with a filler entry. *)
Lemma skipn_headed {A : Type} (x : A) (col : list A) (n period : nat) :
  (period + 1 <= n)%nat ->
  skipn (n - period) (x :: col) = skipn (n - (period + 1)) col.
Proof.
  intros H. replace (n - period)%nat with (S (n - (period + 1))) by lia.
  reflexivity.
Qed.

(** With enough history, the RSI is the formula at the ratio of the average
    gain to the average loss over the trailing window. *)
Lemma rsi_value (prices : list Q) (period : nat) :
  (1 <= period)%nat -> (period + 1 <= length prices)%nat ->
  let td := trailing_deltas period prices in
  let avg_gain := qsum (map gain_of td) / inject_Z (Z.of_nat period) in
  let avg_loss := qsum (map loss_of td) / inject_Z (Z.of_nat period) in
  calculate_rsi prices period
  = Returned (float_or_none (rsi_of_rs (xdiv (Fin avg_gain) (Fin avg_loss)))).
Proof.
  intros Hperiod Hlen td avg_gain avg_loss.
  unfold calculate_rsi. rewrite length_of_values.
  replace (length prices <? period + 1)%nat with false
    by (symmetry; apply Nat.ltb_ge; lia).
  rewrite diff_of_values by (intros ->; simpl in Hlen; lia).
  rewrite gains_of_values, losses_of_values.
  set (gains := 0 :: map gain_of (deltas prices)).
  set (losses := - 0 :: map loss_of (deltas prices)).
  assert (Hg : length gains = length prices)
    by (unfold gains; simpl; rewrite length_map, length_deltas; lia).
  assert (Hl : length losses = length prices)
    by (unfold losses; simpl; rewrite length_map, length_deltas; lia).
  erewrite iloc_last_lookup; [reflexivity |].
  rewrite length_map, length_zip_with, !length_rolling, !length_of_values, Hg, Hl,
    Nat.min_id.
  rewrite lookup_map, lookup_zip_with.
  pose proof (rolling_mean_last period gains Hperiod ltac:(lia)) as HG.
  pose proof (rolling_mean_last period losses Hperiod ltac:(lia)) as HL.
  rewrite Hg in HG. rewrite Hl in HL. rewrite HG, HL. simpl.
  unfold gains, losses.
  rewrite !skipn_headed by lia. rewrite !skipn_map. reflexivity.
Qed.

Lemma qsum_cons (x : Q) (l : list Q) : qsum (x :: l) = x + qsum l.
Proof. reflexivity. Qed.

Lemma qsum_nonneg (l : list Q) : Forall (fun x => 0 <= x) l -> 0 <= qsum l.
Proof.
  induction 1 as [|x l Hx _ IH]; [apply Qle_refl |]. rewrite qsum_cons. lra.
Qed.

Lemma qsum_zero (l : list Q) : Forall (fun x => x == 0) l -> qsum l == 0.
Proof.
  induction 1 as [|x l Hx _ IH]; [reflexivity |]. rewrite qsum_cons. lra.
Qed.

Lemma qsum_pos (l : list Q) :
  Forall (fun x => 0 <= x) l -> Exists (fun x => 0 < x) l -> 0 < qsum l.
Proof.
  intros Hall Hex. induction Hex as [x l Hx | x l _ IH];
    inversion Hall as [|? ? Hx0 Hl]; subst; rewrite qsum_cons.
  - pose proof (qsum_nonneg l Hl) as H. lra.
  - specialize (IH Hl). lra.
Qed.

Lemma gain_of_nonneg (d : Q) : 0 <= gain_of d.
Proof.
  unfold gain_of. destruct (d >? 0) eqn:H; [| lra].
  apply Qgtb_gt in H. lra.
Qed.

Lemma gain_of_pos (d : Q) : 0 < d -> 0 < gain_of d.
Proof.
  intros Hd. unfold gain_of. apply Qgtb_gt in Hd as Hb. now rewrite Hb.
Qed.

Lemma gain_of_zero (d : Q) : d == 0 -> gain_of d == 0.
Proof.
  intros Hd. unfold gain_of. destruct (d >? 0) eqn:H; [| reflexivity].
  apply Qgtb_gt in H. lra.
Qed.

Lemma loss_of_zero (d : Q) : 0 <= d -> loss_of d == 0.
Proof.
  intros Hd. unfold loss_of. apply Qltb_ge in Hd. rewrite Hd. reflexivity.
Qed.

Lemma Forall_map_of {A B : Type} (P : A -> Prop) (R : B -> Prop) (f : A -> B)
    (l : list A) :
  (forall x, P x -> R (f x)) -> Forall P l -> Forall R (map f l).
Proof.
  intros Hf. induction 1; simpl; constructor; auto.
Qed.

Lemma Exists_map_of {A B : Type} (P : A -> Prop) (R : B -> Prop) (f : A -> B)
    (l : list A) :
  (forall x, P x -> R (f x)) -> Exists P l -> Exists R (map f l).
Proof.
  intros Hf. induction 1; simpl; [left | right]; auto.
Qed.

Lemma inject_nat_pos (n : nat) : (1 <= n)%nat -> 0 < inject_Z (Z.of_nat n).
Proof.
  intros Hn. change 0 with (inject_Z 0). rewrite <- Zlt_Qlt. lia.
Qed.

Section NoLosses.

Variables (prices : list Q) (period : nat).
Hypothesis period_pos : (1 <= period)%nat.
Hypothesis enough : (period + 1 <= length prices)%nat.
Hypothesis no_loss : Forall (fun d => 0 <= d) (trailing_deltas period prices).

Let window : Q := inject_Z (Z.of_nat period).

Lemma avg_loss_zero :
  (qsum (map loss_of (trailing_deltas period prices)) / window =? 0) = true.
Proof using period_pos no_loss.
  apply Qeq_bool_iff.
  assert (H : qsum (map loss_of (trailing_deltas period prices)) == 0).
  { apply qsum_zero.
    apply (Forall_map_of (fun d => 0 <= d)); [apply loss_of_zero | assumption]. }
  rewrite H. unfold Qdiv. lra.
Qed.

(** Without a loss in the window the ratio is a division by zero, which numpy
    answers with an infinity or, for 0/0, with NaN. *)
Lemma rs_no_loss :
  let avg_gain := qsum (map gain_of (trailing_deltas period prices)) / window in
  let avg_loss := qsum (map loss_of (trailing_deltas period prices)) / window in
  xdiv (Fin avg_gain) (Fin avg_loss) = sign_inf avg_gain.
Proof using period_pos no_loss.
  simpl. now rewrite avg_loss_zero.
Qed.

Lemma rsi_rising :
  Exists (fun d => 0 < d) (trailing_deltas period prices) ->
  exists q, calculate_rsi prices period = Returned (Some (Fin q)) /\ q == 100.
Proof using period_pos enough no_loss.
  intros Hex.
  rewrite rsi_value by assumption. cbv zeta. fold window. rewrite rs_no_loss.
  assert (Hsum : 0 < qsum (map gain_of (trailing_deltas period prices))).
  { apply qsum_pos.
    - apply (Forall_map_of (fun d => 0 <= d)); [| assumption].
      intros d _. apply gain_of_nonneg.
    - apply (Exists_map_of (fun d => 0 < d)); [apply gain_of_pos | assumption]. }
  pose proof (Qdiv_pos _ _ Hsum (inject_nat_pos period period_pos)) as Havg.
  fold window in Havg. unfold sign_inf.
  replace (_ / window =? 0) with false by (symmetry; apply Qeqb_neq; lra).
  apply Qgtb_gt in Havg. rewrite Havg.
  eexists. split; [reflexivity | reflexivity].
Qed.

Lemma rsi_flat :
  Forall (fun d => d == 0) (trailing_deltas period prices) ->
  calculate_rsi prices period = Returned None.
Proof using period_pos enough no_loss.
  intros Hflat.
  rewrite rsi_value by assumption. cbv zeta. fold window. rewrite rs_no_loss.
  assert (Hsum : qsum (map gain_of (trailing_deltas period prices)) == 0).
  { apply qsum_zero.
    apply (Forall_map_of (fun d => d == 0)); [apply gain_of_zero | assumption]. }
  unfold sign_inf.
  replace (_ / window =? 0) with true; [reflexivity |].
  symmetry. apply Qeq_bool_iff. rewrite Hsum. unfold Qdiv. lra.
Qed.

End NoLosses.

(** C6 (as amended).  On a series of at least [period + 1] points whose
    trailing window has no negative day-over-day change, the RSI is 100 when
    some change in the window is positive, and unavailable when every change
    in the window is zero. *)
Theorem rsi_without_losses (prices : list Q) (period : nat) :
  (1 <= period)%nat ->
  (period + 1 <= length prices)%nat ->
  Forall (fun d => 0 <= d) (trailing_deltas period prices) ->
  (Exists (fun d => 0 < d) (trailing_deltas period prices) ->
   exists q, calculate_rsi prices period = Returned (Some (Fin q)) /\ q == 100)
  /\ (Forall (fun d => d == 0) (trailing_deltas period prices) ->
      calculate_rsi prices period = Returned None).
Proof.
  intros Hperiod Hlen Hnoloss. split.
  - now apply rsi_rising.
  - now apply rsi_flat.
Qed.

Lemma rsi_without_losses_witness :
  (exists q, calculate_rsi rising_prices 14 = Returned (Some (Fin q)) /\ q == 100)
  /\ calculate_rsi sixty_prices 14 = Returned None.
Proof.
  split.
  - apply (rsi_without_losses rising_prices 14).
    + lia.
    + vm_compute. lia.
    + vm_compute. repeat constructor; discriminate.
    + vm_compute. left. reflexivity.
  - apply (rsi_without_losses sixty_prices 14).
    + lia.
    + vm_compute. lia.
    + vm_compute. repeat constructor; discriminate.
    + vm_compute. repeat constructor.
Defined.

(** C6 as stated fails: fifteen closes that rise by 1 a day have no loss in
    the 14-day window, and the RSI is the number 100, not unavailable. *)
Lemma rsi_rising_is_numeric :
  (14 + 1 <= length rising_prices)%nat
  /\ Forall (fun d => 0 <= d) (trailing_deltas 14 rising_prices)
  /\ calculate_rsi rising_prices 14 <> Returned None
  /\ exists q, calculate_rsi rising_prices 14 = Returned (Some (Fin q)) /\ q == 100.
Proof.
  split; [vm_compute; lia |].
  split; [vm_compute; repeat constructor; discriminate |].
  split; [vm_compute; discriminate |].
  eexists. split; vm_compute; reflexivity.
Qed.

(* ================================================================= *)
(** * Further properties of the code *)

Import MoreSamples.

(** ** Indicator library: the range of the RSI *)

Lemma loss_of_nonneg (d : Q) : 0 <= loss_of d.
Proof.
  unfold loss_of. destruct (d <? 0) eqn:H; [| lra].
  apply Qltb_lt in H. lra.
Qed.

Lemma qsum_map_nonneg {A : Type} (f : A -> Q) (l : list A) :
  (forall a, 0 <= f a) -> 0 <= qsum (map f l).
Proof.
  intros Hf. apply qsum_nonneg.
  induction l; simpl; constructor; auto.
Qed.

(** [100 - 100 / (1 + gain / loss)] for averages that are not negative:
    NaN, or a number between 0 and 100. *)
Lemma rsi_of_rs_range (g l : Q) (x : xfloat) :
  0 <= g -> 0 <= l ->
  float_or_none (rsi_of_rs (xdiv (Fin g) (Fin l))) = Some x ->
  exists q, x = Fin q /\ 0 <= q <= 100.
Proof.
  intros Hg Hl. unfold xdiv.
  destruct (l =? 0) eqn:Hl0.
  - unfold sign_inf. destruct (g =? 0) eqn:Hg0; [discriminate |].
    apply Qeqb_neq in Hg0.
    assert (Hpos : 0 < g) by (apply Qle_lteq in Hg; destruct Hg as [H | H];
                               [assumption | symmetry in H; contradiction]).
    apply Qgtb_gt in Hpos. rewrite Hpos. simpl.
    intros H. injection H as <-. eexists. split; [reflexivity | lra].
  - apply Qeqb_neq in Hl0.
    assert (Hlpos : 0 < l) by (apply Qle_lteq in Hl; destruct Hl as [H | H];
                                [assumption | symmetry in H; contradiction]).
    pose proof (Qdiv_nonneg _ _ Hg Hlpos) as Hr.
    revert Hr. generalize (g / l). intros r Hr.
    unfold rsi_of_rs. simpl.
    replace (1 + r =? 0) with false by (symmetry; apply Qeqb_neq; lra).
    simpl. intros H. injection H as <-. eexists. split; [reflexivity |].
    assert (Hden : 0 < 1 + r) by lra.
    assert (Hq : 0 < 100 / (1 + r)) by (apply Qdiv_pos; lra).
    assert (Hq' : 100 / (1 + r) <= 100) by (apply Qle_shift_div_r; lra).
    lra.
Qed.

(** X1.  Whenever the RSI is a number it is a finite one between 0 and 100,
    whatever the prices are. *)
Theorem rsi_in_range (prices : list Q) (period : nat) (x : xfloat) :
  (1 <= period)%nat ->
  calculate_rsi prices period = Returned (Some x) ->
  exists q, x = Fin q /\ 0 <= q <= 100.
Proof.
  intros Hperiod Hrsi.
  destruct (Nat.lt_ge_cases (length prices) (period + 1)) as [Hshort | Hlong].
  - unfold calculate_rsi in Hrsi. rewrite length_of_values in Hrsi.
    apply Nat.ltb_lt in Hshort. rewrite Hshort in Hrsi. discriminate.
  - rewrite rsi_value in Hrsi by assumption. cbv zeta in Hrsi.
    injection Hrsi as Hrsi.
    pose proof (inject_nat_pos period Hperiod) as Hw.
    eapply rsi_of_rs_range; [| | exact Hrsi].
    + apply Qdiv_nonneg; [| assumption].
      apply qsum_map_nonneg, gain_of_nonneg.
    + apply Qdiv_nonneg; [| assumption].
      apply qsum_map_nonneg, loss_of_nonneg.
Qed.

Lemma rsi_in_range_witness :
  exists x,
    calculate_rsi zigzag_prices 14 = Returned (Some x)
    /\ exists q, x = Fin q /\ 0 <= q <= 100.
Proof.
  eexists. split.
  - vm_compute. reflexivity.
  - apply (rsi_in_range zigzag_prices 14); [lia | vm_compute; reflexivity].
Defined.

(** ** Indicator library: momentum *)


Lemma lookup_of_values (l : list Q) (i : nat) :
  of_values l !! i = Fin <$> (l !! i).
Proof. unfold of_values. apply lookup_map. Qed.



(** ** Indicator library: simple moving averages *)




(** ** Indicator library: MACD *)

Lemma ewm_from_finite (alpha : Q) (l : list Q) :
  forall prev : Q,
  exists l', ewm_from alpha (Fin prev) (of_values l) = of_values l'
             /\ length l' = length l.
Proof.
  induction l as [|x l IH]; intros prev; simpl.
  - exists []. split; reflexivity.
  - destruct (IH ((1 - alpha) * prev + alpha * x)) as (l' & Hl' & Hlen).
    exists (((1 - alpha) * prev + alpha * x) :: l'). simpl.
    split; [now rewrite Hl' | now rewrite Hlen].
Qed.

(** The exponential average of finite values consists of finite values. *)
Lemma ewm_mean_finite (span : nat) (l : list Q) :
  exists l', ewm_mean span (of_values l) = of_values l' /\ length l' = length l.
Proof.
  destruct l as [|x l]; simpl.
  - exists []. split; reflexivity.
  - destruct (ewm_from_finite (2 / (inject_Z (Z.of_nat span) + 1)) l x)
      as (l' & Hl' & Hlen).
    exists (x :: l'). simpl. split; [now rewrite Hl' | now rewrite Hlen].
Qed.

Lemma zip_sub_of_values (a b : list Q) :
  zip_with xsub (of_values a) (of_values b) = of_values (zip_with Qminus a b).
Proof.
  revert b. induction a as [|x a IH]; intros [|y b]; simpl; try reflexivity.
  now rewrite IH.
Qed.

Lemma iloc_last_of_values (l : list Q) (x : Q) :
  l !! pred (length l) = Some x -> iloc_last (of_values l) = Returned (Fin x).
Proof.
  intros H. apply iloc_last_lookup.
  now rewrite length_of_values, lookup_of_values, H.
Qed.

Lemma lookup_last_exists {A : Type} (l : list A) :
  (1 <= length l)%nat -> exists x, l !! pred (length l) = Some x.
Proof.
  intros H. apply lookup_lt_is_Some. lia.
Qed.

(** X4.  For spans of 1 or more (pandas rejects smaller ones) and a series
    of at least [slow] closes inside [price_in_range], the MACD, its signal
    line and the histogram are finite numbers, and the histogram is the MACD
    minus the signal. *)
Theorem macd_histogram_is_difference (prices : list Q) (fast slow signal_span : nat) :
  (1 <= fast)%nat -> (1 <= slow)%nat -> (1 <= signal_span)%nat ->
  (slow <= length prices)%nat ->
  Forall price_in_range prices ->
  exists m s : Q,
    calculate_macd prices fast slow signal_span
    = Returned (Some {| macd := Some (Fin m);
                        signal := Some (Fin s);
                        histogram := Some (Fin (m - s)) |}).
Proof.
  intros _ Hne _ Hslow _. unfold calculate_macd. rewrite length_of_values.
  replace (length prices <? slow)%nat with false by (symmetry; apply Nat.ltb_ge; lia).
  destruct (ewm_mean_finite fast prices) as (ef & -> & Hef).
  destruct (ewm_mean_finite slow prices) as (es & -> & Hes).
  rewrite zip_sub_of_values.
  set (ml := zip_with Qminus ef es).
  assert (Hml : length ml = length prices)
    by (unfold ml; rewrite length_zip_with; lia).
  destruct (ewm_mean_finite signal_span ml) as (sl & -> & Hsl).
  rewrite zip_sub_of_values.
  destruct (lookup_last_exists ml ltac:(lia)) as [m Hm].
  destruct (lookup_last_exists sl ltac:(lia)) as [sg Hsg].
  exists m, sg.
  rewrite (iloc_last_of_values ml m Hm), (iloc_last_of_values sl sg Hsg).
  rewrite (iloc_last_of_values (zip_with Qminus ml sl) (m - sg)).
  - reflexivity.
  - rewrite length_zip_with, lookup_zip_with.
    replace (Nat.min (length ml) (length sl)) with (length ml) by lia.
    rewrite Hm. replace (length ml) with (length sl) by lia. rewrite Hsg.
    reflexivity.
Qed.

Lemma macd_histogram_is_difference_witness :
  exists m s : Q,
    calculate_macd zigzag_prices 3 5 2
    = Returned (Some {| macd := Some (Fin m);
                        signal := Some (Fin s);
                        histogram := Some (Fin (m - s)) |}).
Proof.
  apply (macd_histogram_is_difference zigzag_prices 3 5 2);
    try (vm_compute; lia).
  repeat constructor; vm_compute; discriminate.
Defined.

(** ** Discounted cash flow: the loop and the formula *)

(** X5.  For arguments inside the ranges of [dcf_in_range] and
    [shares_in_range] and a discount rate at least [rate_gap] away from the
    terminal growth rate, on either side, the projection loop computes the
    textbook figures: the
    explicit-horizon value is the sum of the discounted compounded cash
    flows, the terminal value is the discounted Gordon value, and the
    enterprise value is their sum. *)
Theorem dcf_closed_form (f g tg r : Q) (years : nat) (sh : pynum) :
  dcf_in_range f g tg r years -> shares_in_range sh ->
  rate_gap <= Qabs (r - tg) ->
  exists res,
    calculate_dcf (Some f) (Some g) (Some tg) (Some r) years sh = Returned (Some res)
    /\ pv_cash_flows res == pv_sum f g r years
    /\ pv_terminal res == gordon_terminal f g tg r years
    /\ enterprise_value res == pv_sum f g r years + gordon_terminal f g tg r years.
Proof.
  intros ([Hf _] & _ & _ & [Hr _] & _) _ Hgap. unfold rate_gap in Hgap.
  apply dcf_value; [lra | lra |].
  intros Heq. assert (Hzero : r - tg == 0) by lra.
  rewrite Hzero in Hgap. vm_compute in Hgap. now apply Hgap.
Qed.

Lemma dcf_closed_form_witness :
  exists res,
    calculate_dcf (Some 100) (Some (1 # 10)) (Some (25 # 1000)) (Some (1 # 10)) 5 None
    = Returned (Some res)
    /\ pv_cash_flows res == pv_sum 100 (1 # 10) (1 # 10) 5
    /\ pv_terminal res == gordon_terminal 100 (1 # 10) (25 # 1000) (1 # 10) 5
    /\ enterprise_value res
       == pv_sum 100 (1 # 10) (1 # 10) 5
          + gordon_terminal 100 (1 # 10) (25 # 1000) (1 # 10) 5.
Proof.
  apply (dcf_closed_form 100 (1 # 10) (25 # 1000) (1 # 10) 5 None).
  - unfold dcf_in_range, cash_in_range, rate_in_range.
    repeat split; try (vm_compute; discriminate). lia.
  - exact I.
  - vm_compute. discriminate.
Defined.

(** ** Discounted cash flow: when it raises *)

Lemma dcf_returns (f g tg r : Q) (years : nat) (sh : pynum) :
  0 < f -> ~ 1 + r == 0 -> ~ r == tg ->
  exists res,
    calculate_dcf (Some f) (Some g) (Some tg) (Some r) years sh = Returned (Some res).
Proof.
  intros Hf Hrate Hgap.
  destruct (dcf_value f g tg r years sh Hf Hrate Hgap) as (res & Hres & _).
  eauto.
Qed.

(** X6.  For a cash flow, growth rates and a share count inside the ranges,
    one to thirty projected years and a discount rate that is -100% or
    inside the range, the DCF raises ZeroDivisionError exactly when the
    discount rate is -100% or equals the terminal growth rate. *)
Theorem dcf_raises_iff (f g tg r : Q) (years : nat) (sh : pynum) :
  cash_in_range f -> rate_in_range g -> rate_in_range tg ->
  r == -(1) \/ rate_in_range r ->
  (1 <= years)%nat -> (years <= 30)%nat -> shares_in_range sh ->
  calculate_dcf (Some f) (Some g) (Some tg) (Some r) years sh
  = Raised ZeroDivisionError
  <-> (1 + r == 0 \/ r == tg).
Proof.
  intros [Hcash _] _ _ _ Hyears _ _.
  assert (Hf : 0 < f) by lra.
  split.
  - intros Hraise.
    destruct (Qeq_dec (1 + r) 0) as [Hrate | Hrate]; [now left |].
    destruct (Qeq_dec r tg) as [Hgap | Hgap]; [now right |].
    destruct (dcf_returns f g tg r years sh Hf Hrate Hgap) as (res & Hres).
    rewrite Hres in Hraise. discriminate.
  - intros Hzero. unfold calculate_dcf.
    apply Qleb_gt in Hf as Hfb. rewrite Hfb.
    destruct (Qeq_dec (1 + r) 0) as [Hrate | Hrate].
    + destruct years as [|n]; [lia |]. cbn [project].
      rewrite py_div_zero; [reflexivity |].
      change ((1 + r) ^ 1) with (1 + r). exact Hrate.
    + destruct Hzero as [Hrate' | Hgap]; [contradiction |].
      destruct (project_closed_form f g r Hrate years 0 f 0)
        as (c & p & Hproj & _ & _).
      { simpl. ring. }
      { reflexivity. }
      change (Z.of_nat 0 + 1)%Z with 1%Z in Hproj. rewrite Hproj. cbn [bind].
      rewrite py_div_zero by lra. reflexivity.
Qed.

Lemma dcf_raises_iff_witness :
  calculate_dcf (Some 100) (Some (1 # 10)) (Some (25 # 1000)) (Some (25 # 1000)) 5 None
  = Raised ZeroDivisionError
  <-> (1 + (25 # 1000) == 0 \/ (25 # 1000) == (25 # 1000)).
Proof.
  apply (dcf_raises_iff 100 (1 # 10) (25 # 1000) (25 # 1000) 5 None).
  - split; vm_compute; discriminate.
  - split; vm_compute; discriminate.
  - split; vm_compute; discriminate.
  - right. split; vm_compute; discriminate.
  - lia.
  - lia.
  - exact I.
Defined.

(** ** Relative valuation: which side of the market *)

Lemma premium_of_at_most (v : pynum) (market : Q) :
  0 < market ->
  (forall p, v = Some p -> p <= market) ->
  premium_of (ratio_vs_market v market) <= 0.
Proof.
  intros Hm Hle. unfold ratio_vs_market.
  destruct v as [p |]; [| apply Qle_refl].
  destruct (p >? 0) eqn:Hp; [| apply Qle_refl].
  cbn [premium_of].
  assert (H : p / market <= 1) by (apply Qle_shift_div_r; [assumption | rewrite Qmult_1_l; auto]).
  revert H. generalize (p / market). intros x Hx.
  apply Qle_shift_div_r; [reflexivity | lra].
Qed.

Lemma premium_of_at_least (v : pynum) (market : Q) :
  0 < market ->
  (forall p, v = Some p -> 0 < p -> market <= p) ->
  0 <= premium_of (ratio_vs_market v market).
Proof.
  intros Hm Hge. unfold ratio_vs_market.
  destruct v as [p |]; [| apply Qle_refl].
  destruct (p >? 0) eqn:Hp; [| apply Qle_refl].
  apply Qgtb_gt in Hp. cbn [premium_of].
  assert (H : 1 <= p / market)
    by (apply Qle_shift_div_l; [assumption | rewrite Qmult_1_l; auto]).
  revert H. generalize (p / market). intros x Hx.
  apply Qle_shift_div_l; [reflexivity | lra].
Qed.

Lemma classify_premium_nonpos (premium : Q) :
  premium <= 0 ->
  classify_premium premium <> "EXPENSIVE"
  /\ classify_premium premium <> "SLIGHTLY EXPENSIVE".
Proof.
  intros H. unfold classify_premium.
  replace (premium >? 20) with false by (symmetry; apply Qgtb_le; lra).
  replace (premium >? 10) with false by (symmetry; apply Qgtb_le; lra).
  destruct (premium >? -(10)); [split; discriminate |].
  destruct (premium >? -(20)); split; discriminate.
Qed.

Lemma classify_premium_nonneg (premium : Q) :
  0 <= premium ->
  classify_premium premium <> "CHEAP"
  /\ classify_premium premium <> "SLIGHTLY CHEAP".
Proof.
  intros H. unfold classify_premium.
  destruct (premium >? 20); [split; discriminate |].
  destruct (premium >? 10); [split; discriminate |].
  replace (premium >? -(10)) with true by (symmetry; apply Qgtb_gt; lra).
  split; discriminate.
Qed.

(** X8.  A record whose usable ratios are all at or below the market
    references has a premium/discount score of at most 0 and is never
    labelled expensive; one whose usable ratios are all at or above them has a
    score of at least 0 and is never labelled cheap. *)
Theorem relative_valuation_sides (info : gmap string pyval) :
  ((forall p, get_num info "trailingPE" = Some p -> p <= market_pe) ->
   (forall p, get_num info "priceToBook" = Some p -> p <= market_pb) ->
   (forall p, get_num info "priceToSalesTrailing12Months" = Some p -> p <= market_ps) ->
   premium_discount (calculate_relative_valuation info) <= 0
   /\ overall_valuation (calculate_relative_valuation info) <> "EXPENSIVE"
   /\ overall_valuation (calculate_relative_valuation info) <> "SLIGHTLY EXPENSIVE")
  /\
  ((forall p, get_num info "trailingPE" = Some p -> 0 < p -> market_pe <= p) ->
   (forall p, get_num info "priceToBook" = Some p -> 0 < p -> market_pb <= p) ->
   (forall p, get_num info "priceToSalesTrailing12Months" = Some p -> 0 < p ->
              market_ps <= p) ->
   0 <= premium_discount (calculate_relative_valuation info)
   /\ overall_valuation (calculate_relative_valuation info) <> "CHEAP"
   /\ overall_valuation (calculate_relative_valuation info) <> "SLIGHTLY CHEAP").
Proof.
  split; intros Hpe Hpb Hps.
  - assert (H : premium_discount (calculate_relative_valuation info) <= 0).
    { rewrite premium_discount_eq.
      pose proof (premium_of_at_most _ market_pe eq_refl Hpe).
      pose proof (premium_of_at_most _ market_pb eq_refl Hpb).
      pose proof (premium_of_at_most _ market_ps eq_refl Hps).
      lra. }
    split; [assumption |]. now apply classify_premium_nonpos.
  - assert (H : 0 <= premium_discount (calculate_relative_valuation info)).
    { rewrite premium_discount_eq.
      pose proof (premium_of_at_least _ market_pe eq_refl Hpe).
      pose proof (premium_of_at_least _ market_pb eq_refl Hpb).
      pose proof (premium_of_at_least _ market_ps eq_refl Hps).
      lra. }
    split; [assumption |]. now apply classify_premium_nonneg.
Qed.

Lemma relative_valuation_sides_witness :
  premium_discount (calculate_relative_valuation cheap_info) <= 0
  /\ overall_valuation (calculate_relative_valuation cheap_info) <> "EXPENSIVE"
  /\ overall_valuation (calculate_relative_valuation cheap_info) <> "SLIGHTLY EXPENSIVE".
Proof.
  apply (proj1 (relative_valuation_sides cheap_info)).
  - intros p H. vm_compute in H. injection H as <-. vm_compute. discriminate.
  - intros p H. vm_compute in H. injection H as <-. vm_compute. discriminate.
  - intros p H. vm_compute in H. discriminate.
Defined.

(** ** Sentiment: how many signals a label needs *)

Lemma overall_label_bullish (score : Z) :
  overall_label score = "BULLISH" -> (40 < score)%Z.
Proof.
  unfold overall_label.
  destruct (40 <? score)%Z eqn:H; [intros _; now apply Z.ltb_lt |].
  repeat match goal with |- context [if ?c then _ else _] => destruct c end;
    discriminate.
Qed.

Lemma overall_label_bearish (score : Z) :
  overall_label score = "BEARISH" -> (score < -40)%Z.
Proof.
  unfold overall_label.
  destruct (40 <? score)%Z; [discriminate |].
  destruct (15 <? score)%Z; [discriminate |].
  destruct (score <? -40)%Z eqn:H; [intros _; now apply Z.ltb_lt |].
  destruct (score <? -15)%Z; discriminate.
Qed.

Lemma sentiment_score_signals (analyst momentum retail institutional : string) :
  let score := sentiment_score analyst momentum retail institutional in
  (-90 <= score <= 100)%Z
  /\ ((40 < score)%Z ->
      (2 <= bullish_signals analyst momentum retail institutional)%nat)
  /\ ((score < -40)%Z ->
      (2 <= bearish_signals analyst momentum retail institutional)%nat).
Proof.
  unfold sentiment_score, bullish_signals, bearish_signals.
  destruct (String.eqb analyst "BULLISH"), (String.eqb analyst "BEARISH"),
    (String.eqb momentum "VERY BULLISH"), (String.eqb momentum "BULLISH"),
    (String.eqb momentum "VERY BEARISH"), (String.eqb momentum "BEARISH"),
    (String.eqb retail "HIGH"), (String.eqb retail "LOW"),
    (String.eqb institutional "HIGH"), (String.eqb institutional "LOW");
    cbn; lia.
Qed.

(** X10.  The sentiment score lies between -90 and 100, and no single signal
    decides the overall label: BULLISH needs at least two of the four signals
    pointing up, BEARISH at least two pointing down. *)
Theorem sentiment_needs_two_signals (ticker : string) (info : gmap string pyval)
    (hist_data : option (list Bar)) :
  let s := analyze_sentiment ticker info hist_data in
  (-90 <= sentiment_score (analyst_sentiment s) (momentum_sentiment s)
            (retail_interest s) (institutional_interest s) <= 100)%Z
  /\ (overall_sentiment s = "BULLISH" ->
      (2 <= bullish_signals (analyst_sentiment s) (momentum_sentiment s)
              (retail_interest s) (institutional_interest s))%nat)
  /\ (overall_sentiment s = "BEARISH" ->
      (2 <= bearish_signals (analyst_sentiment s) (momentum_sentiment s)
              (retail_interest s) (institutional_interest s))%nat).
Proof.
  intros s.
  pose proof (sentiment_score_signals (analyst_sentiment s) (momentum_sentiment s)
                (retail_interest s) (institutional_interest s)) as (Hrange & Hup & Hdown).
  split; [exact Hrange |].
  unfold s at 1 6. rewrite analyze_sentiment_overall. fold s.
  split; intros H.
  - apply Hup. now apply overall_label_bullish.
  - apply Hdown. now apply overall_label_bearish.
Qed.

Lemma sentiment_needs_two_signals_witness :
  let s := analyze_sentiment "ACME" bullish_info (Some rising_history) in
  (2 <= bullish_signals (analyst_sentiment s) (momentum_sentiment s)
          (retail_interest s) (institutional_interest s))%nat.
Proof.
  apply (proj1 (proj2 (sentiment_needs_two_signals "ACME" bullish_info
                         (Some rising_history)))).
  vm_compute. reflexivity.
Defined.

(** ** Sentiment: a missing volume *)

Lemma analyze_sentiment_retail (ticker : string) (info : gmap string pyval)
    (hist_data : option (list Bar)) :
  retail_interest (analyze_sentiment ticker info hist_data) = fst (volume_block info).
Proof.
  unfold analyze_sentiment.
  destruct (volume_block info), (analyst_block info),
    (momentum_block hist_data), (institutional_block info).
  reflexivity.
Qed.

(** X11.  A record with a positive average volume and no [volume] key is
    read as a volume of 0: retail interest is LOW. *)
Theorem missing_volume_is_low_interest (ticker : string) (info : gmap string pyval)
    (hist_data : option (list Bar)) (avg_volume : Q) :
  info !! "volume" = None ->
  get_num info "averageVolume" = Some avg_volume ->
  0 < avg_volume ->
  retail_interest (analyze_sentiment ticker info hist_data) = "LOW".
Proof.
  intros Hvol Havg Hpos. rewrite analyze_sentiment_retail.
  unfold volume_block, get_num_or. rewrite Hvol.
  unfold get_num in Havg. destruct (info !! "averageVolume") as [v |]; [| discriminate].
  rewrite Havg. cbn [as_num].
  apply Qgtb_gt in Hpos as Hb. rewrite Hb.
  assert (Hzero : 0 / avg_volume == 0) by (field; lra).
  replace (0 / avg_volume >? 15 # 10) with false
    by (symmetry; apply Qgtb_le; rewrite Hzero; discriminate).
  replace (0 / avg_volume <? 7 # 10) with true
    by (symmetry; apply Qltb_lt; rewrite Hzero; reflexivity).
  reflexivity.
Qed.

Lemma missing_volume_is_low_interest_witness :
  retail_interest (analyze_sentiment "ACME" no_volume_info None) = "LOW".
Proof.
  apply (missing_volume_is_low_interest "ACME" no_volume_info None 1000);
    reflexivity.
Defined.

(** ** Sentiment: the momentum label in terms of prices *)

Lemma analyze_sentiment_momentum (ticker : string) (info : gmap string pyval)
    (hist_data : option (list Bar)) :
  momentum_sentiment (analyze_sentiment ticker info hist_data)
  = fst (momentum_block hist_data).
Proof.
  unfold analyze_sentiment.
  destruct (volume_block info), (analyst_block info),
    (momentum_block hist_data), (institutional_block info).
  reflexivity.
Qed.

Lemma ratio_above (a b c : Q) : 0 < b -> (c < (a - b) / b <-> c * b < a - b).
Proof.
  intros Hb.
  assert (Hx : (a - b) / b * b == a - b) by (field; lra).
  rewrite <- Hx at 2. symmetry. now apply Qmult_lt_r.
Qed.

Lemma ratio_below (a b c : Q) : 0 < b -> ((a - b) / b < c <-> a - b < c * b).
Proof.
  intros Hb.
  assert (Hx : (a - b) / b * b == a - b) by (field; lra).
  rewrite <- Hx at 2. symmetry. now apply Qmult_lt_r.
Qed.

(** The four tests on the percentage return are tests on the latest close
    against multiples of the reference close. *)
Lemma return_tests (a b : Q) :
  0 < b ->
  let ret := (a - b) / b * 100 in
  (10 <? ret) = ((110 # 100) * b <? a)
  /\ (5 <? ret) = ((105 # 100) * b <? a)
  /\ (ret <? -(10)) = (a <? (90 # 100) * b)
  /\ (ret <? -(5)) = (a <? (95 # 100) * b).
Proof.
  intros Hb ret. unfold ret.
  pose proof (ratio_above a b (10 # 100) Hb) as H10.
  pose proof (ratio_above a b (5 # 100) Hb) as H5.
  pose proof (ratio_below a b (-(10 # 100)) Hb) as Hm10.
  pose proof (ratio_below a b (-(5 # 100)) Hb) as Hm5.
  revert H10 H5 Hm10 Hm5. generalize ((a - b) / b). intros x H10 H5 Hm10 Hm5.
  repeat split; apply eq_true_iff_eq; rewrite !Qltb_lt.
  - split; intros H.
    + assert (H' : 10 # 100 < x) by lra. apply H10 in H'. lra.
    + assert (H' : (10 # 100) * b < a - b) by lra. apply H10 in H'. lra.
  - split; intros H.
    + assert (H' : 5 # 100 < x) by lra. apply H5 in H'. lra.
    + assert (H' : (5 # 100) * b < a - b) by lra. apply H5 in H'. lra.
  - split; intros H.
    + assert (H' : x < -(10 # 100)) by lra. apply Hm10 in H'. lra.
    + assert (H' : a - b < -(10 # 100) * b) by lra. apply Hm10 in H'. lra.
  - split; intros H.
    + assert (H' : x < -(5 # 100)) by lra. apply Hm5 in H'. lra.
    + assert (H' : a - b < -(5 # 100) * b) by lra. apply Hm5 in H'. lra.
Qed.

(** X12.  With at least twenty rows, both closes inside [price_in_range]
    and the latest close clear of the four thresholds by [band_margin] of the
    reference close (the close twenty rows back), the momentum label is the
    band of the latest close: from 110% of the reference close VERY BULLISH,
    from 105% BULLISH, down to 90% VERY BEARISH, down to 95% BEARISH, in
    between NEUTRAL. *)
Theorem momentum_label_by_price (ticker : string) (info : gmap string pyval)
    (hist : list Bar) (latest reference : Q) :
  (20 <= length hist)%nat ->
  iloc_back (map bar_close hist) 1 = Some latest ->
  iloc_back (map bar_close hist) 20 = Some reference ->
  price_in_range reference -> price_in_range latest ->
  let label := momentum_sentiment (analyze_sentiment ticker info (Some hist)) in
  (((110 # 100) + band_margin) * reference <= latest -> label = "VERY BULLISH")
  /\ (((105 # 100) + band_margin) * reference <= latest ->
      latest <= ((110 # 100) - band_margin) * reference -> label = "BULLISH")
  /\ (((95 # 100) + band_margin) * reference <= latest ->
      latest <= ((105 # 100) - band_margin) * reference -> label = "NEUTRAL")
  /\ (((90 # 100) + band_margin) * reference <= latest ->
      latest <= ((95 # 100) - band_margin) * reference -> label = "BEARISH")
  /\ (latest <= ((90 # 100) - band_margin) * reference -> label = "VERY BEARISH").
Proof.
  intros Hlen Hlatest Href [Hpos _] _ label.
  assert (Hlabel :
    label
    = if (110 # 100) * reference <? latest then "VERY BULLISH"
      else if (105 # 100) * reference <? latest then "BULLISH"
      else if latest <? (90 # 100) * reference then "VERY BEARISH"
      else if latest <? (95 # 100) * reference then "BEARISH"
      else "NEUTRAL").
  { unfold label. rewrite analyze_sentiment_momentum.
    unfold momentum_block, recent_return.
    apply Nat.leb_le in Hlen. rewrite Hlen, Hlatest, Href.
    cbn [xsub xopp xadd xdiv].
    replace (reference =? 0) with false by (symmetry; apply Qeqb_neq; lra).
    cbn [xmul xgtb xltb].
    destruct (return_tests latest reference ltac:(lra)) as (H10 & H5 & Hm10 & Hm5).
    cbv zeta in H10, H5, Hm10, Hm5.
    change (latest + - reference) with (latest - reference).
    rewrite H10, H5, Hm10, Hm5.
    repeat match goal with |- context [if ?c then _ else _] => destruct c end;
      reflexivity. }
  rewrite Hlabel. clear Hlabel label. unfold band_margin.
  destruct ((110 # 100) * reference <? latest) eqn:H110;
    [apply Qltb_lt in H110 | apply Qltb_ge in H110];
  (destruct ((105 # 100) * reference <? latest) eqn:H105;
    [apply Qltb_lt in H105 | apply Qltb_ge in H105]);
  (destruct (latest <? (90 # 100) * reference) eqn:H90;
    [apply Qltb_lt in H90 | apply Qltb_ge in H90]);
  (destruct (latest <? (95 # 100) * reference) eqn:H95;
    [apply Qltb_lt in H95 | apply Qltb_ge in H95]);
  repeat split; intros; try reflexivity; exfalso; lra.
Qed.

Lemma momentum_label_by_price_witness :
  momentum_sentiment (analyze_sentiment "ACME" bullish_info (Some rising_history))
  = "BULLISH".
Proof.
  apply (proj1 (proj2
           (momentum_label_by_price "ACME" bullish_info rising_history 107 100
              ltac:(vm_compute; lia) ltac:(reflexivity) ltac:(reflexivity)
              ltac:(split; vm_compute; discriminate)
              ltac:(split; vm_compute; discriminate)))).
  - vm_compute. discriminate.
  - vm_compute. discriminate.
Defined.



(** ** Rating *)

Lemma Qgeb_ge (a b : Q) : (a >=? b) = true <-> b <= a.
Proof. apply Qle_bool_iff. Qed.

Lemma Qgeb_lt (a b : Q) : (a >=? b) = false <-> a < b.
Proof.
  unfold Qgeb. rewrite <- not_true_iff_false, Qle_bool_iff.
  split; [apply Qnot_le_lt | apply Qlt_not_le].
Qed.

Ltac rating_cases :=
  repeat match goal with
         | |- context [?a >=? ?b] =>
             let H := fresh "H" in
             destruct (a >=? b) eqn:H;
             [apply Qgeb_ge in H | apply Qgeb_lt in H]
         end.

(** X14.  A higher overall score never gets a worse rating, and the
    recommendation is BUY exactly from 65, SELL exactly below 45. *)
Theorem rating_monotone (score1 score2 : Q) :
  (score1 <= score2 ->
   (rating_rank (rating score1).1.1.1 <= rating_rank (rating score2).1.1.1)%nat)
  /\ ((rating score1).1.1.2 = "BUY" <-> 65 <= score1)
  /\ ((rating score1).1.1.2 = "SELL" <-> score1 < 45).
Proof.
  unfold rating. split; [| split].
  - intros Hle. rating_cases; cbn; try lia; lra.
  - rating_cases; cbn; split; intros; try discriminate; try reflexivity; lra.
  - rating_cases; cbn; split; intros; try discriminate; try reflexivity; lra.
Qed.

Lemma rating_monotone_witness :
  (rating_rank (rating 50).1.1.1 <= rating_rank (rating 70).1.1.1)%nat.
Proof.
  apply (proj1 (rating_monotone 50 70)). vm_compute. discriminate.
Defined.

(** ** Price target *)

Lemma round_half_even_near (x : Q) :
  inject_Z (round_half_even x) - (1 # 2) <= x
  /\ x <= inject_Z (round_half_even x) + (1 # 2).
Proof.
  unfold round_half_even.
  pose proof (Qfloor_le x) as Hlo. pose proof (Qlt_floor x) as Hhi.
  rewrite inject_Z_plus in Hhi. change (inject_Z 1) with 1 in Hhi.
  destruct (x - inject_Z (Qfloor x) <? 1 # 2) eqn:Hlt.
  - apply Qltb_lt in Hlt. lra.
  - apply Qltb_ge in Hlt.
    destruct (x - inject_Z (Qfloor x) >? 1 # 2) eqn:Hgt.
    + rewrite inject_Z_plus. change (inject_Z 1) with 1. lra.
    + apply Qgtb_le in Hgt.
      destruct (Z.even (Qfloor x)); [lra |].
      rewrite inject_Z_plus. change (inject_Z 1) with 1. lra.
Qed.

(** Rounding to two decimals moves a value by at most half a cent. *)
Lemma py_round_2_near (q : Q) :
  q - (1 # 200) <= py_round q 2 /\ py_round q 2 <= q + (1 # 200).
Proof.
  unfold py_round. change (inject_Z (10 ^ Z.of_nat 2)) with 100.
  destruct (round_half_even_near (q * 100)) as [Hlo Hhi].
  split.
  - apply Qle_shift_div_l; [reflexivity | lra].
  - apply Qle_shift_div_r; [reflexivity | lra].
Qed.

Lemma price_target_analyst (inp : Inputs) (overall t : Q) :
  get_num (info inp) "targetMeanPrice" = Some t -> 0 < t ->
  price_target inp overall = Returned (Some (py_round t 2)).
Proof.
  intros Ht Hpos. unfold price_target. rewrite Ht.
  apply Qgtb_gt in Hpos. now rewrite Hpos.
Qed.

(** What the price target block stores, in terms of its inputs. *)
Lemma price_target_cases (inp : Inputs) (overall : Q) :
  (forall p, current_price inp = Some p -> 0 < p ->
             (forall t, get_num (info inp) "targetMeanPrice" = Some t -> t <= 0) ->
             exists x, price_target inp overall = Returned (Some x)
                       /\ (85 # 100) * p - (1 # 200) <= x
                       /\ x <= (115 # 100) * p + (1 # 200))
  /\ (forall p, current_price inp = Some p -> p <= 0 ->
                (forall t, get_num (info inp) "targetMeanPrice" = Some t -> t <= 0) ->
                price_target inp overall = Returned None).
Proof.
  split.
  - intros p Hp Hpos Hnone. unfold price_target, price_positive, price_value.
    rewrite Hp. cbn [bind]. apply Qgtb_gt in Hpos as Hb. rewrite Hb.
    assert (Hest :
      exists x,
        Returned (Some
          (if overall >=? 65 then py_round (p * (115 # 100)) 2
           else if overall >=? 55 then py_round (p * (105 # 100)) 2
           else if overall >=? 45 then py_round (p * (95 # 100)) 2
           else py_round (p * (85 # 100)) 2))
        = Returned (Some x)
        /\ (85 # 100) * p - (1 # 200) <= x /\ x <= (115 # 100) * p + (1 # 200)).
    { eexists. split; [reflexivity |].
      pose proof (py_round_2_near (p * (115 # 100))).
      pose proof (py_round_2_near (p * (105 # 100))).
      pose proof (py_round_2_near (p * (95 # 100))).
      pose proof (py_round_2_near (p * (85 # 100))).
      repeat match goal with |- context [if ?c then _ else _] => destruct c end;
        lra. }
    destruct (get_num (info inp) "targetMeanPrice") as [t |]; [| exact Hest].
    specialize (Hnone t eq_refl). apply Qgtb_le in Hnone. rewrite Hnone.
    exact Hest.
  - intros p Hp Hneg Hnone. unfold price_target, price_positive, price_value.
    rewrite Hp. cbn [bind]. apply Qgtb_le in Hneg. rewrite Hneg.
    destruct (get_num (info inp) "targetMeanPrice") as [t |]; [| reflexivity].
    specialize (Hnone t eq_refl). apply Qgtb_le in Hnone. now rewrite Hnone.
Qed.

(** Once the scoring has completed, the analysis keeps the price target that
    the block stored, also when the conclusion raises afterwards. *)
Lemma analysis_price_target (inp : Inputs) (sc : Scored) (target : option Q) :
  score inp = Returned sc ->
  price_target inp (overall_score sc) = Returned target ->
  priceTarget (generate_ai_analysis inp) = target.
Proof.
  intros Hscore Htarget. unfold generate_ai_analysis. rewrite Hscore.
  destruct (rating (overall_score sc)) as [[[r1 r2] r3] r4].
  rewrite Htarget. now destruct (conclusion_check inp target).
Qed.

(** X15.  The price target of the returned analysis, when the scoring
    completes.  A positive analyst target, rounded to cents, is the price
    target whatever the score is.  Without one, a positive current price
    gives a target between 85% and 115% of it (up to half a cent of
    rounding), and a current price that is not positive gives no target. *)
Theorem price_target_rule (inp : Inputs) (sc : Scored) :
  score inp = Returned sc ->
  (forall t, get_num (info inp) "targetMeanPrice" = Some t -> 0 < t ->
             priceTarget (generate_ai_analysis inp) = Some (py_round t 2))
  /\ (forall p, current_price inp = Some p -> 0 < p ->
                (forall t, get_num (info inp) "targetMeanPrice" = Some t -> t <= 0) ->
                exists x, priceTarget (generate_ai_analysis inp) = Some x
                          /\ (85 # 100) * p - (1 # 200) <= x
                          /\ x <= (115 # 100) * p + (1 # 200))
  /\ (forall p, current_price inp = Some p -> p <= 0 ->
                (forall t, get_num (info inp) "targetMeanPrice" = Some t -> t <= 0) ->
                priceTarget (generate_ai_analysis inp) = None).
Proof.
  intros Hscore.
  destruct (price_target_cases inp (overall_score sc)) as [Hestimate Hnone].
  split; [| split].
  - intros t Ht Hpos. apply (analysis_price_target inp sc _ Hscore).
    now apply price_target_analyst.
  - intros p Hp Hpos Hno.
    destruct (Hestimate p Hp Hpos Hno) as (x & Hx & Hbounds).
    exists x. split; [| exact Hbounds].
    now apply (analysis_price_target inp sc).
  - intros p Hp Hneg Hno. apply (analysis_price_target inp sc _ Hscore).
    now apply (Hnone p).
Qed.

Lemma price_target_rule_witness :
  priceTarget (generate_ai_analysis sample_inputs) = Some (py_round 130 2)
  /\ exists x, priceTarget (generate_ai_analysis untargeted_inputs) = Some x
               /\ (85 # 100) * 200 - (1 # 200) <= x
               /\ x <= (115 # 100) * 200 + (1 # 200).
Proof.
  assert (H1 : exists sc, score sample_inputs = Returned sc)
    by (eexists; vm_compute; reflexivity).
  assert (H2 : exists sc, score untargeted_inputs = Returned sc)
    by (eexists; vm_compute; reflexivity).
  destruct H1 as [sc1 H1]. destruct H2 as [sc2 H2].
  split.
  - apply (proj1 (price_target_rule sample_inputs sc1 H1) 130); reflexivity.
  - apply (proj1 (proj2 (price_target_rule untargeted_inputs sc2 H2)) 200).
    + reflexivity.
    + reflexivity.
    + intros t H. vm_compute in H. discriminate.
Defined.

(** ** Composite scorer: the ceiling of the technical score *)

Lemma technical_caps (inp : Inputs) :
  ((snd (points tech_rsi inp) = 0 \/ snd (points tech_rsi inp) = 20)
   /\ 0 <= fst (points tech_rsi inp) <= snd (points tech_rsi inp))%Z
  /\ (points tech_moving_averages inp).2 = 25%Z
  /\ ((points tech_moving_averages inp).1 <= 25)%Z
  /\ (points tech_macd inp).2 = 15%Z
  /\ ((points tech_macd inp).1 <= 15)%Z
  /\ (points tech_bollinger inp).2 = 10%Z
  /\ ((points tech_bollinger inp).1 <= 10)%Z
  /\ (points tech_stochastic inp).2 = 10%Z
  /\ ((points tech_stochastic inp).1 <= 8)%Z
  /\ (points tech_volume inp).2 = 10%Z
  /\ ((points tech_volume inp).1 <= 8)%Z
  /\ (points tech_momentum inp).2 = 10%Z
  /\ ((points tech_momentum inp).1 <= 8)%Z.
Proof.
  cbn [points fst snd tech_rsi tech_moving_averages tech_macd tech_bollinger
       tech_stochastic tech_volume tech_momentum]; unfold sma_points.
  repeat split; factor_cases.
Qed.

Lemma ratio_score_cap (t : Totals) (c : Z) :
  (100 * fst t <= c * snd t)%Z -> 50 <= inject_Z c ->
  ratio_score t <= inject_Z c.
Proof.
  destruct t as [e m]. cbn [fst snd]. intros Hcap Hc. unfold ratio_score.
  destruct (0 <? m)%Z eqn:Hm; [| exact Hc].
  apply Z.ltb_lt in Hm.
  assert (HmQ : 0 < inject_Z m) by (change 0 with (inject_Z 0); now rewrite <- Zlt_Qlt).
  rewrite Zle_Qle, !inject_Z_mult in Hcap. change (inject_Z 100) with 100 in Hcap.
  assert (Hx : inject_Z e / inject_Z m * inject_Z m == inject_Z e) by (field; lra).
  apply (Qmult_le_r _ _ (inject_Z m) HmQ).
  revert Hx. generalize (inject_Z e / inject_Z m). intros x Hx.
  assert (E : x * 100 * inject_Z m == 100 * (x * inject_Z m)) by ring.
  rewrite E, Hx. exact Hcap.
Qed.

Lemma technical_ratio_cap (inp : Inputs) :
  ratio_score (totals technical_factors inp) <= 94.
Proof.
  apply (ratio_score_cap _ 94); [| vm_compute; discriminate].
  unfold totals, technical_factors. cbn [fold_left]. unfold add_totals.
  cbn [fst snd].
  destruct (technical_caps inp)
    as (Hrsi & Hma & Hma' & Hmacd & Hmacd' & Hbb & Hbb' & Hst & Hst' & Hvol & Hvol'
        & Hmom & Hmom').
  destruct Hrsi as [[Hr | Hr] Hr']; lia.
Qed.

Lemma py_round_le_tenths (q : Q) (n : Z) :
  q <= inject_Z n / 10 -> py_round q 1 <= inject_Z n / 10.
Proof.
  intros Hq. unfold py_round. change (inject_Z (10 ^ Z.of_nat 1)) with 10.
  apply Qdiv_le_mono; [| reflexivity].
  rewrite <- Zle_Qle. apply round_half_even_le.
  assert (Hy : inject_Z n / 10 * 10 == inject_Z n) by field.
  revert Hq Hy. generalize (inject_Z n / 10). intros y Hq Hy. lra.
Qed.

(** X16.  The technical sub-score never exceeds 94: the stochastic, volume
    and momentum blocks earn at most 8 of their 10 points.  So the overall
    score, and the confidence that the analysis reports, never exceed 88.8. *)
Theorem technical_score_ceiling (inp : Inputs) :
  ratio_score (totals technical_factors inp) <= 94
  /\ (forall sc, score inp = Returned sc -> overall_score sc <= 888 # 10)
  /\ confidence (generate_ai_analysis inp) <= 888 # 10.
Proof.
  assert (Hoverall : forall sc, score inp = Returned sc -> overall_score sc <= 888 # 10).
  { intros sc Hscore.
    destruct (score_shape inp sc Hscore) as (fund & mom & val & Hshape & ->).
    rewrite Hshape, weighted_sum_five.
    pose proof (technical_ratio_cap inp).
    pose proof (clamp_score_range fund). pose proof (clamp_score_range mom).
    pose proof (clamp_score_range val).
    pose proof (ratio_score_range _ (totals_bounded inp _ (growth_bounded inp))).
    lra. }
  split; [apply technical_ratio_cap |]. split; [exact Hoverall |].
  destruct (confidence_cases inp) as [-> | (sc & Hscore & ->)].
  - vm_compute. discriminate.
  - change (888 # 10) with (inject_Z 888 / 10).
    apply py_round_le_tenths. change (inject_Z 888 / 10) with (888 # 10).
    now apply Hoverall.
Qed.

Lemma technical_score_ceiling_witness :
  exists sc, score sample_inputs = Returned sc /\ overall_score sc <= 888 # 10.
Proof.
  eexists. split.
  - vm_compute. reflexivity.
  - apply (proj1 (proj2 (technical_score_ceiling sample_inputs))).
    vm_compute. reflexivity.
Defined.

(** ** The exception handler *)

Lemma score_passes_guard (inp : Inputs) (sc : Scored) :
  score inp = Returned sc -> exists b, target_guard inp = Returned b.
Proof.
  unfold score.
  destruct (totals fundamental_factors inp), (totals momentum_factors inp).
  destruct (target_guard inp) as [b | e]; [eauto | discriminate].
Qed.

(** X17.  With a current price of 0 (no price, or the placeholder text) and
    an analyst target that rounds to a positive number of cents, an analysis
    whose scoring completed still ends in the handler: the conclusion divides
    by the price.  The score set, the rating and the price target stay as
    computed, the confidence is 50. *)
Theorem unpriced_target_degrades (inp : Inputs) (sc : Scored) (t : Q) :
  current_price inp = Some 0 ->
  get_num (info inp) "targetMeanPrice" = Some t ->
  0 < t ->
  ~ py_round t 2 == 0 ->
  score inp = Returned sc ->
  let a := generate_ai_analysis inp in
  caught a = Some ZeroDivisionError
  /\ confidence a = 50
  /\ priceTarget a = Some (py_round t 2)
  /\ overallRating a = (rating (overall_score sc)).1.1.1
  /\ map fst (scores a) = ["technical"; "fundamental"; "momentum"; "value"; "growth"].
Proof.
  intros Hprice Htarget Hpos Hcents Hscore a. unfold a, generate_ai_analysis.
  rewrite Hscore.
  destruct (rating (overall_score sc)) as [[[r1 r2] r3] r4].
  rewrite (price_target_analyst inp (overall_score sc) t Htarget Hpos).
  unfold conclusion_check. apply Qeqb_neq in Hcents. rewrite Hcents, Hprice.
  rewrite py_div_zero by reflexivity. cbn.
  repeat split.
  destruct (score_shape inp sc Hscore) as (fund & mom & val & -> & _). reflexivity.
Qed.

Lemma unpriced_target_degrades_witness :
  exists sc,
    score unpriced_inputs = Returned sc
    /\ let a := generate_ai_analysis unpriced_inputs in
       caught a = Some ZeroDivisionError
       /\ confidence a = 50
       /\ priceTarget a = Some (py_round 130 2)
       /\ overallRating a = (rating (overall_score sc)).1.1.1
       /\ map fst (scores a)
          = ["technical"; "fundamental"; "momentum"; "value"; "growth"].
Proof.
  eexists. split.
  - vm_compute. reflexivity.
  - apply (unpriced_target_degrades unpriced_inputs _ 130).
    + reflexivity.
    + reflexivity.
    + reflexivity.
    + vm_compute. discriminate.
    + vm_compute. reflexivity.
Defined.

Lemma none_price_handler (inp : Inputs) :
  current_price inp = None ->
  confidence (generate_ai_analysis inp) = 50
  /\ priceTarget (generate_ai_analysis inp) = None
  /\ caught (generate_ai_analysis inp) <> None.
Proof.
  intros Hprice. unfold generate_ai_analysis.
  destruct (score inp) as [sc | e] eqn:Hscore.
  - destruct (rating (overall_score sc)) as [[[r1 r2] r3] r4].
    destruct (score_passes_guard inp sc Hscore) as [b Hguard].
    unfold target_guard in Hguard. unfold price_target.
    destruct (get_num (info inp) "targetMeanPrice") as [t |].
    + unfold price_positive in Hguard. rewrite Hprice in Hguard. discriminate.
    + unfold price_positive. rewrite Hprice. cbn. repeat split. discriminate.
  - cbn. repeat split. discriminate.
Qed.

(** X18.  A current price that is Python's [None] always ends in the
    handler: some comparison of the price raises, the confidence is 50 and
    there is no price target. *)
Theorem none_price_degrades (inp : Inputs) :
  current_price inp = None ->
  let a := generate_ai_analysis inp in
  confidence a = 50 /\ priceTarget a = None /\ caught a <> None.
Proof.
  intros Hprice a. now apply none_price_handler.
Qed.

Lemma none_price_degrades_witness :
  let a := generate_ai_analysis none_price_inputs in
  confidence a = 50 /\ priceTarget a = None /\ caught a <> None.
Proof.
  apply (none_price_degrades none_price_inputs). reflexivity.
Defined.

(** ** Indicator library: on-balance volume *)

Lemma signed_series_of_values (ds vs : list Q) :
  zip_with xmul (map xsign (of_values ds)) (of_values vs)
  = of_values (zip_with (fun d v => direction d * v) ds vs).
Proof.
  revert vs. induction ds as [|d ds IH]; intros [|v vs]; simpl; try reflexivity.
  now rewrite IH.
Qed.

Lemma fillna_of_values (l : list Q) : fillna_zero (of_values l) = of_values l.
Proof.
  unfold fillna_zero, of_values.
  induction l as [|x l IH]; simpl; [reflexivity | now rewrite IH].
Qed.

(** The last running total of a series of finite values. *)
Lemma cumsum_from_last (l : list Q) :
  l <> [] ->
  forall acc : Q,
    exists v, iloc_last (cumsum_from (Fin acc) (of_values l)) = Returned (Fin v)
              /\ v == acc + qsum l.
Proof.
  induction l as [|x l IH]; [congruence | intros _ acc].
  destruct l as [|y l].
  - exists (acc + x). split; [reflexivity |]. simpl. ring.
  - destruct (IH ltac:(discriminate) (acc + x)) as (v & Hv & Hsum).
    exists v. split.
    + unfold iloc_last in *. simpl in *. exact Hv.
    + rewrite Hsum. simpl. ring.
Qed.

(** X20.  From two closes on, with a volume for every close, the on-balance
    volume is the total of the volumes after the first, each counted
    positive on a rising close, negative on a falling close and not at all
    on an unchanged one.  The first volume never counts. *)
Theorem obv_is_signed_volume (close volume : list Q) :
  (2 <= length close)%nat ->
  length volume = length close ->
  exists v,
    calculate_obv close volume = Returned (Some (Fin v))
    /\ v == signed_volume close volume.
Proof.
  intros Hlen Hvol. unfold calculate_obv.
  replace (length (of_values close) <? 2)%nat with false
    by (symmetry; apply Nat.ltb_ge; now rewrite length_of_values).
  rewrite diff_of_values by (destruct close; [simpl in Hlen; lia | discriminate]).
  destruct volume as [|v0 vs]; [simpl in Hvol; lia |].
  change (map xsign (NaN :: of_values (deltas close)))
    with (NaN :: map xsign (of_values (deltas close))).
  change (zip_with xmul (NaN :: map xsign (of_values (deltas close)))
            (of_values (v0 :: vs)))
    with (NaN :: zip_with xmul (map xsign (of_values (deltas close))) (of_values vs)).
  rewrite signed_series_of_values.
  change (fillna_zero (NaN :: ?l)) with (Fin 0 :: fillna_zero l).
  rewrite fillna_of_values.
  set (signed := zip_with (fun d v => direction d * v) (deltas close) vs).
  change (Fin 0 :: of_values signed) with (of_values (0 :: signed)).
  destruct (cumsum_from_last (0 :: signed) ltac:(discriminate) 0) as (v & Hv & Hsum).
  exists v. unfold cumsum. rewrite Hv. split; [reflexivity |].
  rewrite Hsum. unfold signed_volume. simpl. fold signed. ring.
Qed.

Lemma obv_is_signed_volume_witness :
  exists v,
    calculate_obv bar_closes bar_volumes = Returned (Some (Fin v))
    /\ v == signed_volume bar_closes bar_volumes.
Proof.
  apply (obv_is_signed_volume bar_closes bar_volumes).
  - simpl. lia.
  - reflexivity.
Defined.

(** ** Indicator library: average true range *)







(** ** Indicator library: stochastic oscillator *)

(** The last entry of a rolling aggregate of a series of finite values: the
    aggregate of its last [w] values. *)
Lemma rolling_last (w : nat) (agg : list xfloat -> xfloat) (l : list Q) :
  (1 <= w)%nat -> (w <= length l)%nat ->
  rolling w agg (of_values l) !! pred (length l)
  = Some (agg (of_values (skipn (length l - w) l))).
Proof.
  intros Hw Hl.
  rewrite rolling_lookup by (rewrite length_of_values; lia).
  replace (w <=? pred (length l) + 1)%nat with true
    by (symmetry; apply Nat.leb_le; lia).
  rewrite window_of_values, no_nan_of_values.
  replace (pred (length l) + 1 - w)%nat with (length l - w)%nat by lia.
  rewrite firstn_all2 by (rewrite length_skipn; lia).
  reflexivity.
Qed.

Lemma fold_xmin_of_values (l : list Q) :
  forall a : Q,
    exists m,
      fold_left xmin (of_values l) (Fin a) = Fin m
      /\ m <= a /\ Forall (fun x => m <= x) l /\ In m (a :: l).
Proof.
  induction l as [|x l IH]; intros a.
  - exists a. repeat split; [lra | constructor | now left].
  - change (fold_left xmin (of_values (x :: l)) (Fin a))
      with (fold_left xmin (of_values l) (if x <? a then Fin x else Fin a)).
    destruct (x <? a) eqn:Hx.
    + apply Qltb_lt in Hx. destruct (IH x) as (m & Hm & Hle & Hall & Hin).
      exists m. repeat split; [exact Hm | lra | | now right].
      constructor; assumption.
    + apply Qltb_ge in Hx. destruct (IH a) as (m & Hm & Hle & Hall & Hin).
      exists m. repeat split; [exact Hm | exact Hle | |].
      * constructor; [lra | assumption].
      * destruct Hin as [Hin | Hin]; [now left | right; now right].
Qed.

Lemma fold_xmax_of_values (l : list Q) :
  forall a : Q,
    exists m,
      fold_left xmax (of_values l) (Fin a) = Fin m
      /\ a <= m /\ Forall (fun x => x <= m) l /\ In m (a :: l).
Proof.
  induction l as [|x l IH]; intros a.
  - exists a. repeat split; [lra | constructor | now left].
  - change (fold_left xmax (of_values (x :: l)) (Fin a))
      with (fold_left xmax (of_values l) (if a <? x then Fin x else Fin a)).
    destruct (a <? x) eqn:Hx.
    + apply Qltb_lt in Hx. destruct (IH x) as (m & Hm & Hle & Hall & Hin).
      exists m. repeat split; [exact Hm | lra | | now right].
      constructor; assumption.
    + apply Qltb_ge in Hx. destruct (IH a) as (m & Hm & Hle & Hall & Hin).
      exists m. repeat split; [exact Hm | exact Hle | |].
      * constructor; [lra | assumption].
      * destruct Hin as [Hin | Hin]; [now left | right; now right].
Qed.

(** The lowest and the highest value of a window of finite values. *)
Lemma minimum_of_values (l : list Q) :
  l <> [] ->
  exists m, minimum (of_values l) = Fin m
            /\ Forall (fun x => m <= x) l /\ In m l.
Proof.
  destruct l as [|a l]; [congruence | intros _].
  destruct (fold_xmin_of_values l a) as (m & Hm & Hle & Hall & Hin).
  exists m. repeat split; [exact Hm | | exact Hin]. now constructor.
Qed.

Lemma maximum_of_values (l : list Q) :
  l <> [] ->
  exists m, maximum (of_values l) = Fin m
            /\ Forall (fun x => x <= m) l /\ In m l.
Proof.
  destruct l as [|a l]; [congruence | intros _].
  destruct (fold_xmax_of_values l a) as (m & Hm & Hle & Hall & Hin).
  exists m. repeat split; [exact Hm | | exact Hin]. now constructor.
Qed.

(** The last value of a series lies in its last window. *)
Lemma last_in_window (l : list Q) (w : nat) (x : Q) :
  (1 <= w)%nat -> (w <= length l)%nat -> last l = Some x ->
  skipn (length l - w) l !! (w - 1)%nat = Some x.
Proof.
  intros Hw Hl Hlast. rewrite lookup_drop.
  replace (length l - w + (w - 1))%nat with (pred (length l)) by lia.
  now rewrite <- last_lookup.
Qed.

Lemma window_not_empty (l : list Q) (w : nat) :
  (1 <= w)%nat -> (w <= length l)%nat -> skipn (length l - w) l <> [].
Proof.
  intros Hw Hl Hnil. apply (f_equal length) in Hnil.
  rewrite length_skipn in Hnil. simpl in Hnil. lia.
Qed.

(** The stochastic of the last bar, from the lowest low [m] and the highest
    high [M] of the last window; a %K that is not a number makes %D one. *)
Lemma stochastic_value (high low close : list Q) (period : nat) (c : Q) :
  (1 <= period)%nat ->
  (period <= length close)%nat ->
  length high = length close ->
  length low = length close ->
  last close = Some c ->
  exists m M dv,
    Forall (fun x => m <= x) (skipn (length close - period) low)
    /\ In m (skipn (length close - period) low)
    /\ Forall (fun x => x <= M) (skipn (length close - period) high)
    /\ In M (skipn (length close - period) high)
    /\ (isna (xmul (Fin 100) (xdiv (Fin (c - m)) (Fin (M - m)))) = true ->
        isna dv = true)
    /\ calculate_stochastic high low close period
       = Returned (Some
           {| k := float_or_none (xmul (Fin 100) (xdiv (Fin (c - m)) (Fin (M - m))));
              d := float_or_none dv |}).
Proof.
  intros Hperiod Hlen Hhigh Hlow Hlast.
  destruct (minimum_of_values (skipn (length low - period) low))
    as (m & Hm & Hm_all & Hm_in); [apply window_not_empty; lia |].
  destruct (maximum_of_values (skipn (length high - period) high))
    as (M & HM & HM_all & HM_in); [apply window_not_empty; lia |].
  pose proof (rolling_last period minimum low Hperiod ltac:(lia)) as Hlow_last.
  pose proof (rolling_last period maximum high Hperiod ltac:(lia)) as Hhigh_last.
  rewrite Hm in Hlow_last. rewrite HM in Hhigh_last.
  rewrite Hlow in Hlow_last, Hm_all, Hm_in.
  rewrite Hhigh in Hhigh_last, HM_all, HM_in.
  set (k_percent :=
         map (xmul (Fin 100))
           (zip_with xdiv
              (zip_with xsub (of_values close)
                 (rolling period minimum (of_values low)))
              (zip_with xsub (rolling period maximum (of_values high))
                 (rolling period minimum (of_values low))))).
  assert (Hk_len : length k_percent = length close).
  { unfold k_percent.
    rewrite length_map, !length_zip_with, !length_rolling, !length_of_values. lia. }
  assert (Hk_last :
    k_percent !! pred (length close)
    = Some (xmul (Fin 100) (xdiv (Fin (c - m)) (Fin (M - m))))).
  { unfold k_percent. rewrite lookup_map, !lookup_zip_with.
    rewrite Hlow_last, Hhigh_last, lookup_of_values, <- last_lookup, Hlast.
    reflexivity. }
  destruct (lookup_last_exists (rolling 3 mean k_percent)) as [dv Hdv].
  { rewrite length_rolling. lia. }
  exists m, M, dv. repeat split; try assumption.
  - intros Hnan. rewrite length_rolling, Hk_len in Hdv.
    rewrite rolling_lookup in Hdv by lia. apply (inj Some) in Hdv. subst dv.
    destruct (3 <=? pred (length close) + 1)%nat eqn:Hthree; [| reflexivity].
    apply Nat.leb_le in Hthree.
    replace (existsb isna (window_at 3 (pred (length close)) k_percent)) with true;
      [reflexivity |].
    symmetry. apply existsb_exists.
    exists (xmul (Fin 100) (xdiv (Fin (c - m)) (Fin (M - m)))).
    split; [| exact Hnan].
    apply list_elem_of_In, (list_elem_of_lookup_2 _ 2). unfold window_at.
    rewrite lookup_take_lt by lia. rewrite lookup_drop.
    replace (pred (length close) + 1 - 3 + 2)%nat with (pred (length close)) by lia.
    exact Hk_last.
  - unfold calculate_stochastic.
    replace (length (of_values close) <? period)%nat with false
      by (symmetry; apply Nat.ltb_ge; now rewrite length_of_values).
    fold k_percent.
    rewrite (iloc_last_lookup k_percent _ ltac:(rewrite Hk_len; exact Hk_last)).
    cbn [bind].
    rewrite (iloc_last_lookup (rolling 3 mean k_percent) dv Hdv).
    reflexivity.
Qed.

(** X22.  When the last close lies between the low and the high of its bar,
    %K is either unavailable or a finite number from 0 to 100. *)
Theorem stochastic_k_range (high low close : list Q) (period : nat) (lo c hi : Q) :
  (1 <= period)%nat ->
  (period <= length close)%nat ->
  length high = length close ->
  length low = length close ->
  last low = Some lo -> last close = Some c -> last high = Some hi ->
  lo <= c -> c <= hi ->
  exists st,
    calculate_stochastic high low close period = Returned (Some st)
    /\ (k st = None \/ exists v, k st = Some (Fin v) /\ 0 <= v /\ v <= 100).
Proof.
  intros Hperiod Hlen Hhigh Hlow Hlo Hc Hhi Hlo_c Hc_hi.
  destruct (stochastic_value high low close period c)
    as (m & M & dv & Hm_all & _ & HM_all & _ & _ & Hvalue); try assumption.
  eexists. split; [exact Hvalue |]. cbn [k].
  assert (Hm_lo : m <= lo).
  { rewrite <- Hlow in Hm_all.
    apply (Forall_lookup_1 _ _ _ _ Hm_all (last_in_window low period lo
             Hperiod ltac:(lia) Hlo)). }
  assert (Hhi_M : hi <= M).
  { rewrite <- Hhigh in HM_all.
    apply (Forall_lookup_1 _ _ _ _ HM_all (last_in_window high period hi
             Hperiod ltac:(lia) Hhi)). }
  unfold xdiv. destruct (M - m =? 0) eqn:Hflat.
  - left. apply Qeq_bool_iff in Hflat.
    unfold sign_inf. replace (c - m =? 0) with true; [reflexivity |].
    symmetry. apply Qeq_bool_iff. lra.
  - right. apply Qeqb_neq in Hflat.
    eexists. split; [reflexivity |].
    assert (Hrange : 0 < M - m) by lra.
    pose proof (Qdiv_nonneg (c - m) (M - m) ltac:(lra) Hrange) as Hlow_bound.
    assert (Hhigh_bound : (c - m) / (M - m) <= 1)
      by (apply Qle_shift_div_r; [exact Hrange | lra]).
    revert Hlow_bound Hhigh_bound. generalize ((c - m) / (M - m)). intros r H0 H1.
    split; lra.
Qed.

Lemma stochastic_k_range_witness :
  exists st,
    calculate_stochastic bar_highs bar_lows bar_closes 2 = Returned (Some st)
    /\ (k st = None \/ exists v, k st = Some (Fin v) /\ 0 <= v /\ v <= 100).
Proof.
  apply (stochastic_k_range bar_highs bar_lows bar_closes 2 10 11 12).
  - lia.
  - simpl. lia.
  - reflexivity.
  - reflexivity.
  - reflexivity.
  - reflexivity.
  - reflexivity.
  - vm_compute. discriminate.
  - vm_compute. discriminate.
Defined.

(** X23.  When every high and every low of the last window equals the last
    close, the window has no range: %K is 0/0, and both %K and %D are
    unavailable. *)
Theorem stochastic_flat_window (high low close : list Q) (period : nat) (c : Q) :
  (1 <= period)%nat ->
  (period <= length close)%nat ->
  length high = length close ->
  length low = length close ->
  last close = Some c ->
  Forall (fun x => x == c) (skipn (length close - period) high) ->
  Forall (fun x => x == c) (skipn (length close - period) low) ->
  calculate_stochastic high low close period
  = Returned (Some {| k := None; d := None |}).
Proof.
  intros Hperiod Hlen Hhigh Hlow Hc Hflat_high Hflat_low.
  destruct (stochastic_value high low close period c)
    as (m & M & dv & _ & Hm_in & _ & HM_in & Hd & Hvalue); try assumption.
  rewrite Hvalue.
  assert (Hm : m == c).
  { rewrite List.Forall_forall in Hflat_low. now apply Hflat_low. }
  assert (HM : M == c).
  { rewrite List.Forall_forall in Hflat_high. now apply Hflat_high. }
  assert (Hnan : xmul (Fin 100) (xdiv (Fin (c - m)) (Fin (M - m))) = NaN).
  { unfold xdiv, sign_inf.
    replace (M - m =? 0) with true by (symmetry; apply Qeq_bool_iff; lra).
    replace (c - m =? 0) with true by (symmetry; apply Qeq_bool_iff; lra).
    reflexivity. }
  rewrite Hnan in Hd |- *. specialize (Hd eq_refl).
  destruct dv; try discriminate. reflexivity.
Qed.

Lemma stochastic_flat_window_witness :
  calculate_stochastic still_bars still_bars still_bars 2
  = Returned (Some {| k := None; d := None |}).
Proof.
  apply (stochastic_flat_window still_bars still_bars still_bars 2 10).
  - lia.
  - simpl. lia.
  - reflexivity.
  - reflexivity.
  - reflexivity.
  - repeat constructor.
  - repeat constructor.
Defined.

(** ** Indicator library: Bollinger bands *)

Lemma squares_of_values (mu : Q) (l : list Q) :
  map (fun x => xmul (xsub x (Fin mu)) (xsub x (Fin mu))) (of_values l)
  = of_values (map (fun x => (x - mu) * (x - mu)) l).
Proof.
  unfold of_values. induction l as [|x l IH]; [reflexivity |].
  cbn [map]. now rewrite IH.
Qed.

(** The sample standard deviation of two or more finite values is the
    square root of their sample variance, for any square root function. *)
Lemma std_of_values (sqrt : Q -> Q) (l : list Q) :
  (2 <= length l)%nat ->
  std sqrt (of_values l) = Fin (sqrt (sample_variance l)).
Proof.
  intros Hl. unfold std.
  rewrite mean_of_values by lia.
  fold (arithmetic_mean l).
  rewrite squares_of_values, sum_of_values, length_of_values.
  assert (Hn : 0 < inject_Z (Z.of_nat (length l)) - 1).
  { assert (H2 : inject_Z 2 <= inject_Z (Z.of_nat (length l)))
      by (rewrite <- Zle_Qle; lia).
    change (inject_Z 2) with 2 in H2. lra. }
  unfold xdiv.
  replace (inject_Z (Z.of_nat (length l)) - 1 =? 0) with false
    by (symmetry; apply Qeqb_neq; lra).
  fold (sample_variance l). unfold xsqrt.
  replace (sample_variance l <? 0) with false; [reflexivity |].
  symmetry. apply Qltb_ge. unfold sample_variance.
  apply Qdiv_nonneg; [| exact Hn].
  apply qsum_map_nonneg. intros x.
  generalize (x - arithmetic_mean l). intros y. nra.
Qed.

(** X24.  With a window of two or more closes inside [price_in_range] and
    a multiplier of at most a million in size, the middle band is the mean
    of the last [period] closes, and the upper and the lower band lie
    [std_dev] times the square root of the sample variance of those closes
    above and below it, for any square root function.  %B is 50 when that
    distance is zero; when it is at least [band_margin] of the middle band,
    %B is 50 plus 50 times the distance of the last close from the middle
    band in units of it: 0 on the lower band, 50 on the middle band and 100
    on the upper band. *)
Theorem bollinger_bands_symmetric
    (sqrt : Q -> Q) (prices : list Q) (period : nat) (std_dev p : Q) :
  (2 <= period)%nat ->
  (period <= length prices)%nat ->
  last prices = Some p ->
  Forall price_in_range prices ->
  Qabs std_dev <= 1000000 ->
  let window := skipn (length prices - period) prices in
  let mu := arithmetic_mean window in
  let distance := sqrt (sample_variance window) * std_dev in
  exists b v,
    calculate_bollinger_bands sqrt prices period std_dev = Returned (Some b)
    /\ middle b = Fin mu
    /\ upper b = Fin (mu + distance)
    /\ lower b = Fin (mu - distance)
    /\ percent_b b = Fin v
    /\ (distance == 0 -> v == 50)
    /\ (band_margin * mu <= Qabs distance ->
        v == 50 + 50 * ((p - mu) / distance)).
Proof.
  intros Hperiod Hlen Hlast Hprices _ window mu distance.
  assert (Hmu_pos : 0 < mu).
  { unfold mu, arithmetic_mean.
    assert (Hwin : Forall price_in_range window)
      by (unfold window; now apply Forall_drop).
    assert (Hlen_win : (1 <= length window)%nat)
      by (unfold window; rewrite length_skipn; lia).
    apply Qdiv_pos; [| now apply inject_nat_pos].
    destruct window as [|x w]; [simpl in Hlen_win; lia |].
    apply Forall_cons in Hwin as [[Hx _] Hw]. rewrite qsum_cons.
    assert (Hrest : 0 <= qsum w).
    { apply qsum_nonneg. eapply List.Forall_impl; [| exact Hw].
      intros a [Ha _]. lra. }
    lra. }
  assert (Hwindow : length window = period)
    by (unfold window; rewrite length_skipn; lia).
  pose proof (rolling_mean_last period prices ltac:(lia) Hlen) as Hmean.
  assert (Hmu : qsum (skipn (length prices - period) prices)
                / inject_Z (Z.of_nat period) = mu)
    by (unfold mu, arithmetic_mean; fold window; now rewrite Hwindow).
  rewrite Hmu in Hmean.
  pose proof (rolling_last period (std sqrt) prices ltac:(lia) Hlen) as Hstd.
  fold window in Hstd. rewrite std_of_values in Hstd by lia.
  unfold calculate_bollinger_bands.
  replace (length (of_values prices) <? period)%nat with false
    by (symmetry; apply Nat.ltb_ge; now rewrite length_of_values).
  rewrite (iloc_last_of_values prices p) by (now rewrite <- last_lookup).
  cbn [bind].
  rewrite (iloc_last_lookup _ (Fin (mu + distance))).
  2: { rewrite length_zip_with, length_map, !length_rolling, length_of_values.
       replace (length prices `min` length prices)%nat with (length prices) by lia.
       rewrite lookup_zip_with, lookup_map, Hmean, Hstd. reflexivity. }
  cbn [bind].
  rewrite (iloc_last_lookup _ (Fin (mu - distance))).
  2: { rewrite length_zip_with, length_map, !length_rolling, length_of_values.
       replace (length prices `min` length prices)%nat with (length prices) by lia.
       rewrite lookup_zip_with, lookup_map, Hmean, Hstd. reflexivity. }
  cbn [bind].
  rewrite (iloc_last_lookup _ (Fin mu))
    by (now rewrite length_rolling, length_of_values).
  cbn [bind].
  destruct (mu + distance =? mu - distance) eqn:Hsame.
  - apply Qeq_bool_iff in Hsame.
    eexists _, 50. split; [reflexivity |].
    cbn [middle upper lower percent_b xneqb]. rewrite (proj2 (Qeq_bool_iff _ _) Hsame).
    do 4 (split; [reflexivity |]).
    split; [reflexivity |]. intros Hfar. exfalso.
    assert (Hzero : distance == 0) by lra.
    rewrite Hzero in Hfar. change (Qabs 0) with 0 in Hfar.
    unfold band_margin in Hfar. lra.
  - apply Qeqb_neq in Hsame.
    assert (Hne : ~ distance == 0) by (intros H; apply Hsame; lra).
    eexists _, _. split; [reflexivity |].
    cbn [middle upper lower percent_b xneqb]. rewrite (proj2 (Qeqb_neq _ _) Hsame).
    cbn [negb]. unfold xsub, xdiv. cbn [xopp xadd].
    replace (mu + distance + - (mu - distance) =? 0) with false
      by (symmetry; apply Qeqb_neq; intros H; apply Hne; lra).
    cbn [xmul]. do 4 (split; [reflexivity |]). split.
    + intros H. contradiction.
    + intros _. revert Hne. generalize distance. intros w Hne.
      field. repeat split; intros H; apply Hne; lra.
Qed.

Lemma bollinger_bands_symmetric_witness :
  exists b v,
    calculate_bollinger_bands sqrt_sample spread_closes 3 2 = Returned (Some b)
    /\ middle b = Fin (arithmetic_mean [9; 11; 13])
    /\ upper b
       = Fin (arithmetic_mean [9; 11; 13]
              + sqrt_sample (sample_variance [9; 11; 13]) * 2)
    /\ lower b
       = Fin (arithmetic_mean [9; 11; 13]
              - sqrt_sample (sample_variance [9; 11; 13]) * 2)
    /\ percent_b b = Fin v
    /\ (sqrt_sample (sample_variance [9; 11; 13]) * 2 == 0 -> v == 50)
    /\ (band_margin * arithmetic_mean [9; 11; 13]
        <= Qabs (sqrt_sample (sample_variance [9; 11; 13]) * 2) ->
        v == 50 + 50 * ((13 - arithmetic_mean [9; 11; 13])
                        / (sqrt_sample (sample_variance [9; 11; 13]) * 2))).
Proof.
  apply (bollinger_bands_symmetric sqrt_sample spread_closes 3 2 13).
  - lia.
  - simpl. lia.
  - reflexivity.
  - repeat constructor; vm_compute; discriminate.
  - vm_compute. discriminate.
Defined.

(** On the sample the square root is exact: the bands lie 4 above and below
    the mean 11, and the last close 13 sits at 75% of the way up. *)
Lemma bollinger_sample_bands :
  arithmetic_mean [9; 11; 13] == 11
  /\ sample_variance [9; 11; 13] == 4
  /\ sqrt_sample (sample_variance [9; 11; 13]) * 2 == 4
  /\ 50 + 50 * ((13 - arithmetic_mean [9; 11; 13])
                / (sqrt_sample (sample_variance [9; 11; 13]) * 2)) == 75.
Proof. repeat split; reflexivity. Qed.

(** ** Indicator library: the moving averages stay within the closes *)









